(** * LuxCore Material Toolkit: role classification and graph synthesis

    A shallow embedding of the texture classifiers and of the node-graph
    synthesis of the toolkit's operators

      - [luxcore_texture_connect.py]   (module [TextureConnect]),
      - [luxcore_texture_extractor.py] (module [TextureExtractor]),
      - [luxcore_disney_setup.py]      (module [DisneySetup]: the
        classifier, the loading loop with its coverage test and the
        splitters of the combined textures),
      - [luxcore_connect_selected.py]  (module [ConnectSelected]: the
        connectors that do not read node labels),

    over an explicit model of the host node tree (module [Host]).

    Conventions of the embedding.
      - Python [str] is [string]; names are taken to be ASCII (bytes above
        127 are kept as they are and count as non-alphanumeric).
      - A [try: ... except:] around [nodes.new] is an [option]; the
        text of a host exception is not part of a diagnostic.
      - [print] is an entry appended to the diagnostic log of the state;
        for the texture-connect operator and the extractor the log keeps
        the diagnostics of the failure and skip paths, and the progress
        messages of the successful paths are left out.
      - Node labels, positions and scalar properties written under a
        [hasattr] guard do not influence which nodes and edges are made; they
        are left out, and such a write is taken not to raise. *)

From Stdlib Require Import String Ascii List Bool Arith ZArith Lia Permutation
  Sorted.
From Stdlib Require QArith.
Import ListNotations.
Open Scope string_scope.
Open Scope list_scope.
Open Scope nat_scope.

(** ** Python string operations used by the classifiers *)
Module PyStr.

Definition lower_ascii (c : ascii) : ascii :=
  let n := nat_of_ascii c in
  if (65 <=? n) && (n <=? 90) then ascii_of_nat (n + 32) else c.

(** [s.lower()] *)
Fixpoint lower (s : string) : string :=
  match s with
  | EmptyString => EmptyString
  | String c t => String (lower_ascii c) (lower t)
  end.

(** the class [[a-zA-Z0-9]] *)
Definition is_alnum (c : ascii) : bool :=
  let n := nat_of_ascii c in
  ((48 <=? n) && (n <=? 57)) || ((65 <=? n) && (n <=? 90))
  || ((97 <=? n) && (n <=? 122)).

(** [s] with the leading [kw] taken off, when [s] starts with [kw] *)
Fixpoint strip_prefix (kw s : string) : option string :=
  match kw with
  | EmptyString => Some s
  | String a kw' =>
      match s with
      | EmptyString => None
      | String b s' => if Ascii.eqb a b then strip_prefix kw' s' else None
      end
  end.

(** [needle in hay] *)
Fixpoint contains (needle hay : string) : bool :=
  match strip_prefix needle hay with
  | Some _ => true
  | None =>
      match hay with
      | EmptyString => false
      | String _ t => contains needle t
      end
  end.

(** what may follow a keyword: [($|[^a-zA-Z0-9])] *)
Definition right_boundary (rest : string) : bool :=
  match rest with
  | EmptyString => true
  | String c _ => negb (is_alnum c)
  end.

(** [scan left_ok kw s]: the keyword occurs in [s] between two boundaries,
    [left_ok] telling whether the position before [s] is one *)
Fixpoint scan (left_ok : bool) (kw s : string) : bool :=
  (left_ok &&
   match strip_prefix kw s with
   | Some rest => right_boundary rest
   | None => false
   end)
  || match s with
     | EmptyString => false
     | String c t => scan (negb (is_alnum c)) kw t
     end.

(** [re.search(r'(^|[^a-zA-Z0-9])' + re.escape(kw) + r'($|[^a-zA-Z0-9])',
    text, re.IGNORECASE)] on a lowercased text and a lowercase keyword *)
Definition boundary_search (kw text : string) : bool := scan true kw text.

(** the part of the text before an occurrence is empty (and the position
    counts as a boundary), or ends in a non-alphanumeric character *)
Definition left_flank (left_ok : bool) (pre : string) : Prop :=
  (pre = EmptyString /\ left_ok = true)
  \/ exists pre' c, pre = (pre' ++ String c EmptyString)%string
                    /\ is_alnum c = false.

(** the keyword occurs in the text flanked on both sides by a
    non-alphanumeric character or an end of the text *)
Definition flanked (kw text : string) : Prop :=
  exists pre post,
    text = (pre ++ kw ++ post)%string
    /\ left_flank true pre /\ right_boundary post = true.

(** the class [[_-]] of the Disney setup's pattern *)
Definition is_dash (c : ascii) : bool :=
  Ascii.eqb c "_" || Ascii.eqb c "-".

Definition right_dash (rest : string) : bool :=
  match rest with
  | EmptyString => true
  | String c _ => is_dash c
  end.

Fixpoint scan_dash (left_ok : bool) (kw s : string) : bool :=
  (left_ok &&
   match strip_prefix kw s with
   | Some rest => right_dash rest
   | None => false
   end)
  || match s with
     | EmptyString => false
     | String c t => scan_dash (is_dash c) kw t
     end.

(** [re.search(r'(^|[_-])' + re.escape(kw) + r'($|[_-])', text)] *)
Definition dash_search (kw text : string) : bool := scan_dash true kw text.

(** [s.rfind(c)] *)
Fixpoint rindex_from (i : nat) (c : ascii) (s : string) (acc : option nat)
  : option nat :=
  match s with
  | EmptyString => acc
  | String d t =>
      rindex_from (S i) c t (if Ascii.eqb c d then Some i else acc)
  end.

Definition rindex (c : ascii) (s : string) : option nat :=
  rindex_from 0 c s None.

Definition char_is (c : ascii) (s : string) (i : nat) : bool :=
  match String.get i s with
  | Some d => Ascii.eqb c d
  | None => false
  end.

(** [os.path.splitext(p)] (the POSIX one: the separator is [/]) *)
Definition splitext (p : string) : string * string :=
  let filenameIndex :=
    match rindex "/" p with Some i => S i | None => 0 end in
  match rindex "." p with
  | Some dotIndex =>
      if (filenameIndex <=? dotIndex)
         && existsb (fun i => negb (char_is "." p i))
                    (seq filenameIndex (dotIndex - filenameIndex))
      then (substring 0 dotIndex p,
            substring dotIndex (String.length p - dotIndex) p)
      else (p, EmptyString)
  | None => (p, EmptyString)
  end.

(** the class [[_\-\.]] *)
Definition is_sep (c : ascii) : bool :=
  Ascii.eqb c "_" || Ascii.eqb c "-" || Ascii.eqb c ".".

(** [re.split(r'[_\-\.]', s)] *)
Fixpoint re_split (s : string) : list string :=
  match s with
  | EmptyString => [EmptyString]
  | String c t =>
      let r := re_split t in
      if is_sep c then EmptyString :: r
      else match r with
           | [] => [String c EmptyString]
           | h :: tl => String c h :: tl
           end
  end.

(** [parts[-1] if parts else ""] *)
Definition last_part (parts : list string) : string :=
  List.last parts EmptyString.

(** [re.search('^' + re.escape(kw) + '$', s, re.IGNORECASE)]: the whole of
    [s] is the keyword ([$] also matches before one final newline) *)
Definition full_match (kw s : string) : bool :=
  String.eqb s kw
  || String.eqb s (kw ++ String (ascii_of_nat 10) EmptyString)%string.

End PyStr.

(** ** Roles and keyword tables *)

(** the keys of [texture_mapping]; [unassigned] is the extractor's extra
    type for a texture that no keyword matches *)
Inductive TexType : Type :=
  | orm | ors | color | emission | normal | bump | metallic | roughness
  | specular | height | opacity | ao | unassigned.

Definition TexType_eqb (a b : TexType) : bool :=
  match a, b with
  | orm, orm | ors, ors | color, color | emission, emission
  | normal, normal | bump, bump | metallic, metallic
  | roughness, roughness | specular, specular | height, height
  | opacity, opacity | ao, ao | unassigned, unassigned => true
  | _, _ => false
  end.

(** the key as the source writes it *)
Definition type_name (t : TexType) : string :=
  match t with
  | orm => "orm" | ors => "ors" | color => "color" | emission => "emission"
  | normal => "normal" | bump => "bump" | metallic => "metallic"
  | roughness => "roughness" | specular => "specular" | height => "height"
  | opacity => "opacity" | ao => "ao" | unassigned => "unassigned"
  end.

(** one value of the [texture_mapping] dictionary *)
Record TexInfo : Type := mkInfo {
  keywords : list string;
  socket : option string;
  priority : Z
}.

Definition Mapping : Type := list (TexType * TexInfo).

(** first keyword of the list that the search finds in the text: the inner
    [for keyword in ...: if re.search(...): ...; break] *)
Fixpoint first_keyword (search : string -> string -> bool)
    (kws : list string) (text : string) : option string :=
  match kws with
  | [] => None
  | kw :: rest =>
      if search kw text then Some kw else first_keyword search rest text
  end.

(** [texture_mapping.get(t, {'priority': 0}).get('priority', 0)] *)
Fixpoint priority_of (m : Mapping) (t : TexType) : Z :=
  match m with
  | [] => 0%Z
  | (k, info) :: rest =>
      if TexType_eqb k t then priority info else priority_of rest t
  end.

(** [list.sort(key=..., reverse=True)]: stable, by descending key *)
Section StableSort.
Context {A : Type} (key : A -> Z).

Fixpoint insert_desc (x : A) (l : list A) : list A :=
    match l with
    | [] => [x]
    | y :: rest =>
        if (key y <=? key x)%Z then x :: l else y :: insert_desc x rest
    end.

Definition sort_desc (l : list A) : list A :=
    fold_right insert_desc [] l.
End StableSort.

(** ** The host node tree *)
Module Host.

(** a socket object: the owning node and the position in its [inputs] (or
    [outputs]) collection *)
Record Socket : Type := mkSocket { s_node : nat; s_index : nat }.

Definition Socket_eqb (a b : Socket) : bool :=
  (s_node a =? s_node b) && (s_index a =? s_index b).

(** an edge [from_socket -> to_socket] *)
Record Link : Type := mkLink { from_socket : Socket; to_socket : Socket }.

Definition Link_eqb (a b : Link) : bool :=
  Socket_eqb (from_socket a) (from_socket b)
  && Socket_eqb (to_socket a) (to_socket b).

Record Node : Type := mkNode {
  nid : nat;                 (* identity of the node object *)
  bl_idname : string;
  name : string;
  image : option string;     (* [node.image.name] when the node has an image *)
  inputs : list string;      (* names of the input sockets, in order *)
  outputs : list string;     (* names of the output sockets, in order *)
  attrs : list string        (* attributes [hasattr] finds on the node *)
}.

(** [node_tree]: its nodes, its links, and the identity of the next node *)
Record Graph : Type := mkGraph {
  nodes : list Node;
  links : list Link;
  next_id : nat
}.

(** what the host makes of a node kind: [None] when [nodes.new] raises *)
Record Schema : Type := mkSchema {
  sch_name : string;
  sch_inputs : list string;
  sch_outputs : list string;
  sch_attrs : list string
}.

Definition Host : Type := string -> option Schema.

(** the tree and the failure diagnostics printed so far *)
Record St : Type := mkSt { graph : Graph; log : list string }.

(** *** A state monad for the operators *)
Definition M (A : Type) : Type := St -> A * St.

Definition ret {A : Type} (a : A) : M A := fun s => (a, s).

Definition bind {A B : Type} (m : M A) (f : A -> M B) : M B :=
  fun s => let (a, s') := m s in f a s'.

Declare Scope synth_scope.
Delimit Scope synth_scope with synth.
Notation "x <- m ;; k" := (bind m (fun x => k))
  (at level 61, m at next level, right associativity) : synth_scope.
Notation "m ;; k" := (bind m (fun _ => k))
  (at level 61, right associativity) : synth_scope.
Open Scope synth_scope.

(** [print(msg)] on a failure path *)
Definition print (msg : string) : M unit :=
  fun s => (tt, mkSt (graph s) (log s ++ [msg])).

(** [node_tree.nodes.new(type=kind)]; [None] stands for the exception *)
Definition nodes_new (host : Host) (kind : string) : M (option Node) :=
  fun s =>
    match host kind with
    | Some sch =>
        let g := graph s in
        let n := mkNode (next_id g) kind (sch_name sch) None
                        (sch_inputs sch) (sch_outputs sch) (sch_attrs sch) in
        (Some n, mkSt (mkGraph (nodes g ++ [n]) (links g) (S (next_id g)))
                      (log s))
    | None => (None, s)
    end.

(** the node [nodes.new] makes of an accepted kind, and the state it leaves *)
Definition made (kind : string) (sch : Schema) (g : Graph) : Node :=
  mkNode (next_id g) kind (sch_name sch) None (sch_inputs sch)
         (sch_outputs sch) (sch_attrs sch).

Definition with_node (n : Node) (s : St) : St :=
  mkSt (mkGraph (nodes (graph s) ++ [n]) (links (graph s))
                (S (next_id (graph s)))) (log s).

(** Modelled from the spec: the host's [node_tree.links.new(src, dst)], which
    is not part of the repository. Section 6 of the specification has the host
    create an edge between two ports, replacing any existing edge at the
    destination. *)
Definition links_new_graph (src dst : Socket) (g : Graph) : Graph :=
  mkGraph (nodes g)
          (filter (fun l => negb (Socket_eqb (to_socket l) dst)) (links g)
           ++ [mkLink src dst])
          (next_id g).

Definition links_new (src dst : Socket) : M unit :=
  fun s => (tt, mkSt (links_new_graph src dst (graph s)) (log s)).

(** [node_tree.links.remove(link)]: the link object leaves the collection *)
Fixpoint remove_link (l : Link) (ls : list Link) : list Link :=
  match ls with
  | [] => []
  | x :: rest => if Link_eqb x l then rest else x :: remove_link l rest
  end.

Definition links_remove_graph (l : Link) (g : Graph) : Graph :=
  mkGraph (nodes g) (remove_link l (links g)) (next_id g).

Definition links_remove (l : Link) : M unit :=
  fun s => (tt, mkSt (links_remove_graph l (graph s)) (log s)).

(** the edges that end at a destination port *)
Definition incoming (dst : Socket) (g : Graph) : list Link :=
  filter (fun l => Socket_eqb (to_socket l) dst) (links g).

(** every destination port carries at most one incoming edge *)
Definition single_dest (g : Graph) : Prop :=
  forall dst : Socket, List.length (incoming dst g) <= 1.

(** the same, of the tree of a state *)
Definition single_dest_st (s : St) : Prop := single_dest (graph s).

(** [node_tree.links] *)
Definition get_links : M (list Link) := fun s => (links (graph s), s).

(** [node_tree.nodes] *)
Definition get_nodes : M (list Node) := fun s => (nodes (graph s), s).

(** [for x in xs: body(x)] threading the loop variables [v] *)
Fixpoint for_each {A V : Type} (xs : list A) (body : V -> A -> M V) (v : V)
  : M V :=
  match xs with
  | [] => ret v
  | x :: rest => v' <- body v x ;; for_each rest body v'
  end.

(** the computation keeps the invariant [I] of the state *)
Definition preserves (I : St -> Prop) {A : Type} (m : M A) : Prop :=
  forall s, I s -> I (snd (m s)).

(** the tree of the state has the nodes [ns] and the next identity [nx] *)
Definition same_nodes (ns : list Node) (nx : nat) (s : St) : Prop :=
  nodes (graph s) = ns /\ next_id (graph s) = nx.

(** the node list of the tree begins with [ns] *)
Definition extends_nodes (ns : list Node) (s : St) : Prop :=
  exists tail, nodes (graph s) = ns ++ tail.

(** whatever the state, the result of the computation satisfies [P] *)
Definition returns {A : Type} (P : A -> Prop) (m : M A) : Prop :=
  forall s, P (fst (m s)).

(** *** Sockets by name *)

(** position of the first name satisfying [p] *)
Fixpoint find_index (p : string -> bool) (names : list string) : option nat :=
  match names with
  | [] => None
  | x :: rest =>
      if p x then Some 0
      else match find_index p rest with
           | Some i => Some (S i)
           | None => None
           end
  end.

(** [name in node.inputs] together with [node.inputs[name]] *)
Definition input_named (n : Node) (nm : string) : option Socket :=
  match find_index (String.eqb nm) (inputs n) with
  | Some i => Some (mkSocket (nid n) i)
  | None => None
  end.

Definition output_named (n : Node) (nm : string) : option Socket :=
  match find_index (String.eqb nm) (outputs n) with
  | Some i => Some (mkSocket (nid n) i)
  | None => None
  end.

(** first input whose name satisfies [p]: [for s in node.inputs: if p(s.name):
    found = s; break] *)
Definition input_where (n : Node) (p : string -> bool) : option Socket :=
  match find_index p (inputs n) with
  | Some i => Some (mkSocket (nid n) i)
  | None => None
  end.

Definition output_where (n : Node) (p : string -> bool) : option Socket :=
  match find_index p (outputs n) with
  | Some i => Some (mkSocket (nid n) i)
  | None => None
  end.

(** [node.inputs[i]] under a guard [len(node.inputs) > i] *)
Definition input_at (n : Node) (i : nat) : option Socket :=
  if i <? List.length (inputs n) then Some (mkSocket (nid n) i) else None.

Definition output_at (n : Node) (i : nat) : option Socket :=
  if i <? List.length (outputs n) then Some (mkSocket (nid n) i) else None.

Definition orelse {A : Type} (a b : option A) : option A :=
  match a with Some _ => a | None => b end.

Definition mem (x : string) (l : list string) : bool :=
  existsb (String.eqb x) l.

(** the [color_output] idiom: the first output named color, image or value
    (in any case), else the first output *)
Definition color_output (n : Node) : option Socket :=
  orelse
    (output_where n (fun nm => mem (PyStr.lower nm) ["color"; "image"; "value"]))
    (output_at n 0).

(** [hasattr(node, a)] *)
Definition hasattr (n : Node) (a : string) : bool := mem a (attrs n).

(** the node of the first kind of the list the host accepts:
    [for node_type in kinds: try: n = nodes.new(type=node_type); break
    except: continue] *)
Fixpoint first_creatable (host : Host) (kinds : list string) : M (option Node) :=
  match kinds with
  | [] => ret None
  | k :: rest =>
      r <- nodes_new host k ;;
      match r with
      | Some n => ret (Some n)
      | None => first_creatable host rest
      end
  end.

(** the Bump socket of the material node: by the names [Bump], [bump],
    [Normal], [normal], else the first input whose lowercased name contains
    bump or normal *)
Definition bump_socket (material_node : Node) : option Socket :=
  orelse
    (orelse (input_named material_node "Bump")
       (orelse (input_named material_node "bump")
          (orelse (input_named material_node "Normal")
                  (input_named material_node "normal"))))
    (input_where material_node
       (fun nm => PyStr.contains "bump" (PyStr.lower nm)
                  || PyStr.contains "normal" (PyStr.lower nm))).

(** [links.new(src, inputs[name])] when the name exists, else the link to the
    first input whose lowercased name contains [frag] *)
Definition link_named_or_like (src : Socket) (n : Node) (nm frag : string)
  : M unit :=
  match orelse (input_named n nm)
               (input_where n (fun x => PyStr.contains frag (PyStr.lower x)))
  with
  | Some dst => links_new src dst
  | None => ret tt
  end.

(** [o], when it is a socket, is an input of [n] whose name satisfies [p] *)
Definition finds (o : option Socket) (n : Node) (p : string -> bool) : Prop :=
  forall dst, o = Some dst ->
    s_node dst = nid n
    /\ exists x, nth_error (inputs n) (s_index dst) = Some x /\ p x = true.

(** the kinds of the nodes of a combine: the multiply nodes and the constant *)
Definition combine_kinds : list string :=
  ["LuxCoreNodeTexConstantFloat3"; "LuxCoreNodeTexMath"; "LuxCoreNodeMath";
   "LuxCoreNodeTexMix"; "LuxCoreNodeTexMixColor"; "luxcore_tex_math";
   "luxcore_tex_mix"].

(** relative to the tree [g0]: the material node is a node of the tree, no
    edge into [bc] has been added, and no node of a combine has been made *)
Definition quiet (g0 : Graph) (material_node : Node) (bc : Socket) (s : St)
  : Prop :=
  nid material_node < next_id (graph s)
  /\ (forall l, In l (links (graph s)) -> to_socket l = bc ->
        In l (links g0))
  /\ (forall n, In n (nodes (graph s)) -> In (bl_idname n) combine_kinds ->
        In n (nodes g0)).

(** the hosts on which a combine can be made: some kind of the list is
    accepted, and an accepted kind has two inputs and an output *)
Definition offers_combiner (host : Host) (kinds : list string) : Prop :=
  (exists k, In k kinds /\ host k <> None)
  /\ (forall k sch, In k kinds -> host k = Some sch ->
        2 <= List.length (sch_inputs sch)
        /\ 1 <= List.length (sch_outputs sch)).


(** the tree [g'] is the tree [g] after a combine on constant white: two new
    nodes, a combiner [math] of one of the [kinds] and a constant [white],
    [white] feeding input 0 of [math], [ch] its input 1, and the output [out]
    of [math] linked to [bc] *)
Definition white_combined (kinds : list string) (g g' : Graph)
    (ch bc : Socket) : Prop :=
  exists (math white : Node) (out : Socket),
    nodes g' = nodes g ++ [math; white]
    /\ In (bl_idname math) kinds
    /\ bl_idname white = "LuxCoreNodeTexConstantFloat3"
    /\ s_node out = nid math
    /\ In (mkLink (mkSocket (nid white) 0) (mkSocket (nid math) 0)) (links g')
    /\ In (mkLink ch (mkSocket (nid math) 1)) (links g')
    /\ In (mkLink out bc) (links g').

(** *** Operators *)

(** what an operator's [execute] returns *)
Inductive Status := FINISHED | CANCELLED.

(** [self.report({level}, msg)]: the message is kept in the log, after its
    level *)
Definition report (level msg : string) : M unit :=
  print (level ++ ": " ++ msg)%string.

(** [for node in node_tree.nodes: if node.bl_idname in kinds: ...; break] *)
Definition find_kind (kinds : list string) (ns : list Node) : option Node :=
  find (fun n => mem (bl_idname n) kinds) ns.

(** Python's [str(n)] of a natural number *)
Fixpoint digits (fuel n : nat) (acc : string) : string :=
  let d := String (ascii_of_nat (48 + n mod 10)) acc in
  match fuel with
  | 0 => d
  | S fuel' => if n / 10 =? 0 then d else digits fuel' (n / 10) d
  end.

Definition str_of_nat (n : nat) : string := digits n n EmptyString.

End Host.
(** ** [luxcore_texture_connect.py]: the classifier *)
Module TextureConnect.

Definition texture_mapping : Mapping :=
  [ (orm, mkInfo ["orm"; "arm"; "mro"; "metallicroughness";
                  "roughnessmetallic"; "occlusionroughnessmetallic";
                  "ambientroughnessmetallic"] None 12);
    (ors, mkInfo ["ors"; "occlusionroughnessspecular";
                  "roughnessspecularocclusion"; "specularroughnessocclusion";
                  "ambientroughnessspecular"; "occlusionroughnessgloss";
                  "roughnessglossocclusion"] None 11);
    (color, mkInfo ["color"; "diff"; "diffuse"; "albedo"; "basecolor"; "col";
                    "base"] (Some "Base Color") 9);
    (emission, mkInfo ["emission"; "emit"; "emissive"; "emiss"; "glow";
                       "light"] (Some "Emission") 10);
    (normal, mkInfo ["normal"; "norm"; "nrm"; "nor"; "normalmap";
                     "normal_map"; "normalgl"; "normaldx"] (Some "Bump") 8);
    (bump, mkInfo ["bump"; "bmp"; "bump_map"; "bumpmap"] (Some "Bump") 7);
    (metallic, mkInfo ["metal"; "metallic"; "metalness"; "mtl"; "met"]
                      (Some "Metallic") 6);
    (roughness, mkInfo ["rough"; "roughness"; "rgh"; "rug"]
                       (Some "Roughness") 5);
    (specular, mkInfo ["spec"; "specular"; "specularity"; "spc"]
                      (Some "Specular") 4);
    (height, mkInfo ["height"; "disp"; "displacement"; "heightmap"]
                    (Some "Height") 3);
    (opacity, mkInfo ["opacity"; "alpha"; "transparency"; "transparent";
                      "mask"] (Some "Opacity") 2);
    (ao, mkInfo ["ao"; "ambientocclusion"; "occlusion"; "ambient"] None 1) ].

(** [search_text = node_name + " " + image_name] *)
Definition search_text (node_name : string) (image : option string) : string :=
  (PyStr.lower node_name ++ " " ++
   match image with Some i => PyStr.lower i | None => EmptyString end)%string.

(** one turn of [for tex_type, tex_info in texture_mapping.items()] *)
Definition match_step (text : string)
    (best : option (TexType * TexInfo) * Z) (e : TexType * TexInfo)
  : option (TexType * TexInfo) * Z :=
  match first_keyword PyStr.boundary_search (keywords (snd e)) text with
  | Some _ =>
      if (priority (snd e) >? snd best)%Z
      then (Some e, priority (snd e)) else best
  | None => best
  end.

(** [best_match] at the end of the first pass over one texture *)
Definition best_match (node_name : string) (image : option string)
  : option (TexType * TexInfo) :=
  fst (fold_left (match_step (search_text node_name image))
                 texture_mapping (None, (-1)%Z)).

(** the type the first pass gives a texture node, when it gives one *)
Definition tex_type_of (node_name : string) (image : option string)
  : option TexType :=
  option_map fst (best_match node_name image).

(** does some keyword of the group of [t] match the text *)
Definition group_matches (t : TexType) (text : string) : bool :=
  existsb (fun e => TexType_eqb (fst e) t &&
             match first_keyword PyStr.boundary_search (keywords (snd e)) text
             with Some _ => true | None => false end)
          texture_mapping.


(** *** The second pass: synthesis *)
Import Host.

(** the variables of [connect_textures_to_material] that live across the
    loop ([normal_nodes] and [height_nodes] are only ever appended to) *)
Record Vars : Type := mkVars {
  connected_count : nat;
  color_node : option Node;
  ao_node : option Node;
  orm_node : option Node;
  ors_node : option Node;
  orm_ao_channel : option Socket;
  ors_ao_channel : option Socket;
  covered_types : list TexType
}.

Definition init_vars : Vars := mkVars 0 None None None None None None [].

Definition incr (v : Vars) : Vars :=
  mkVars (S (connected_count v)) (color_node v) (ao_node v) (orm_node v)
         (ors_node v) (orm_ao_channel v) (ors_ao_channel v) (covered_types v).

Definition incr_if (b : bool) (v : Vars) : Vars := if b then incr v else v.

Definition cover (ts : list TexType) (v : Vars) : Vars :=
  mkVars (connected_count v) (color_node v) (ao_node v) (orm_node v)
         (ors_node v) (orm_ao_channel v) (ors_ao_channel v)
         (covered_types v ++ ts).

Definition set_color (n : Node) (v : Vars) : Vars :=
  mkVars (connected_count v) (Some n) (ao_node v) (orm_node v)
         (ors_node v) (orm_ao_channel v) (ors_ao_channel v) (covered_types v).

Definition set_ao (n : Node) (v : Vars) : Vars :=
  mkVars (connected_count v) (color_node v) (Some n) (orm_node v)
         (ors_node v) (orm_ao_channel v) (ors_ao_channel v) (covered_types v).

Definition set_orm (n : Node) (ch : option Socket) (v : Vars) : Vars :=
  mkVars (connected_count v) (color_node v) (ao_node v) (Some n)
         (ors_node v) ch (ors_ao_channel v) (covered_types v).

Definition set_ors (n : Node) (ch : option Socket) (v : Vars) : Vars :=
  mkVars (connected_count v) (color_node v) (ao_node v) (orm_node v)
         (Some n) (orm_ao_channel v) ch (covered_types v).

Definition covered (t : TexType) (v : Vars) : bool :=
  existsb (TexType_eqb t) (covered_types v).

(** the loop variables after the combined textures: no standalone AO texture
    has been kept, occlusion is covered, and the combined textures and their
    channels are the given ones *)
Definition combined_kept (oa ob : option Node) (c1 c2 : option Socket)
    (v : Vars) : Prop :=
  ao_node v = None /\ covered ao v = true
  /\ orm_node v = oa /\ ors_node v = ob
  /\ orm_ao_channel v = c1 /\ ors_ao_channel v = c2.

Definition is_some {A : Type} (o : option A) : bool :=
  match o with Some _ => true | None => false end.

Definition mapping_inputs : list string :=
  ["2D Mapping"; "Mapping"; "UV"; "UV Map"; "UVs"; "Vector"].

Definition mapping_outputs : list string :=
  ["2D Mapping"; "Mapping"; "UV"; "Vector"; "Output"].

(** first output of the mapping node that goes by one of the names *)
Fixpoint first_output_named (n : Node) (names : list string) : option Socket :=
  match names with
  | [] => None
  | nm :: rest => orelse (output_named n nm) (first_output_named n rest)
  end.

Section Synthesis.
Variable host : Host.
  (** [self.create_uv_node] *)
Variable create_uv_node : bool.

  (** [connect_mapping_to_texture]: the nested loops link the first input of
      the texture whose lowercased name contains a mapping name to the first
      mapping output that exists; failing that, the first input unless it is
      a color or height input *)
Definition connect_mapping_to_texture (mapping_node tex_node : Node)
    : M bool :=
    if (0 <? List.length (outputs mapping_node))
       && (0 <? List.length (inputs tex_node))
    then
      match first_output_named mapping_node mapping_outputs,
            input_where tex_node
              (fun nm => existsb (fun mi => PyStr.contains (PyStr.lower mi)
                                                           (PyStr.lower nm))
                                 mapping_inputs)
      with
      | Some src, Some dst => links_new src dst ;; ret true
      | _, _ =>
          match output_at mapping_node 0, input_at tex_node 0 with
          | Some src, Some dst =>
              let input_name :=
                PyStr.lower (nth 0 (inputs tex_node) EmptyString) in
              if negb (PyStr.contains "color" input_name)
                 && negb (PyStr.contains "height" input_name)
              then links_new src dst ;; ret true
              else ret false
          | _, _ => ret false
          end
      end
    else ret false.

Definition normalmap_props : list string :=
    ["is_normal_map"; "normalmap"; "normal_map"; "use_normalmap";
     "use_normal_map"; "is_normalmap"; "normal"; "as_normal"].

  (** [activate_normal_map]: sets the first property the node has; complains
      when it has none *)
Definition activate_normal_map (tex_node : Node) : M unit :=
    if existsb (hasattr tex_node) normalmap_props then ret tt
    else print ("Nessuna proprietà normalmap trovata per " ++ name tex_node).

  (** [setup_emission] *)
Definition setup_emission (material_node tex_node : Node) : M bool :=
    r <- nodes_new host "LuxCoreNodeMatEmission" ;;
    match r with
    | None => print "Cannot create Emission node" ;; ret false
    | Some emission_node =>
        let finish : M bool :=
          match output_at emission_node 0 with
          | Some emission_output =>
              match orelse (input_named material_node "Emission")
                      (input_where material_node
                         (fun nm =>
                            PyStr.contains "emission" (PyStr.lower nm)
                            || PyStr.contains "emit" (PyStr.lower nm)))
              with
              | Some dst => links_new emission_output dst ;; ret true
              | None =>
                  print "Emission input not found in Disney node" ;; ret false
              end
          | None => ret false
          end in
        match color_output tex_node with
        | Some src =>
            match input_where emission_node
                    (fun nm => PyStr.contains "color" (PyStr.lower nm)) with
            | Some color_input => links_new src color_input ;; finish
            | None =>
                print "Color input not found in Emission node" ;; ret false
            end
        | None => finish
        end
    end.

  (** [setup_bump] *)
Definition setup_bump (material_node tex_node : Node) : M bool :=
    r <- nodes_new host "LuxCoreNodeTexBump" ;;
    match r with
    | None => print "Cannot create Bump node" ;; ret false
    | Some bump_node =>
        let finish : M bool :=
          match orelse (output_where bump_node
                          (fun nm => PyStr.contains "bump" (PyStr.lower nm)))
                       (output_at bump_node 0) with
          | Some bump_output =>
              match bump_socket material_node with
              | Some socket_found =>
                  links_new bump_output socket_found ;; ret true
              | None =>
                  print "Bump input not found in material node" ;; ret false
              end
          | None => ret false
          end in
        match color_output tex_node with
        | Some src =>
            match input_where bump_node
                    (fun nm => PyStr.contains "value" (PyStr.lower nm)) with
            | Some value_input => links_new src value_input ;; finish
            | None => print "Value input not found in Bump node" ;; ret false
            end
        | None => finish
        end
    end.

  (** [setup_combined_texture]: the splitter behind an ORM or ORS texture;
      returns the splitter's channel 0, the occlusion channel *)
Definition setup_combined_texture (material_node combined_node : Node)
      (tex_type : TexType) : M (option Socket) :=
    r <- nodes_new host "LuxCoreNodeTexSplitFloat3" ;;
    match r with
    | None => print "DEBUG: Cannot create SplitFloat3 node" ;; ret None
    | Some split_node =>
        match color_output combined_node, input_at split_node 0 with
        | Some src, Some dst => links_new src dst
        | _, _ => ret tt
        end ;;
        match output_at split_node 1 with
        | Some roughness_output =>
            link_named_or_like roughness_output material_node
                               "Roughness" "rough"
        | None => ret tt
        end ;;
        match tex_type, output_at split_node 2 with
        | orm, Some metallic_output =>
            link_named_or_like metallic_output material_node
                               "Metallic" "metal"
        | ors, Some specular_output =>
            link_named_or_like specular_output material_node
                               "Specular" "spec"
        | _, _ => ret tt
        end ;;
        ret (output_at split_node 0)
    end.

Definition displacement_node_types : list string :=
    ["LuxCoreNodeShapeHeightDisplacement"; "LuxCoreNodeMatHeightDisplacement";
     "LuxCoreNodeMatDisplacement"; "LuxCoreNodeDisplacement";
     "luxcore_material_height_displacement"; "luxcore_material_displacement"].

Definition is_shape (nm : string) : bool :=
    String.eqb nm "Shape" || PyStr.contains "shape" (PyStr.lower nm).

  (** first of the names that is an input of the node *)
Fixpoint first_input_named (n : Node) (names : list string) : option Socket :=
    match names with
    | [] => None
    | nm :: rest => orelse (input_named n nm) (first_input_named n rest)
    end.

  (** [setup_displacement]: returns nothing, and says nothing when there is
      no material output or no displacement node *)
Definition setup_displacement (material_node height_node : Node)
      (material_output : option Node) : M unit :=
    match material_output with
    | None => ret tt
    | Some material_output =>
        r <- first_creatable host displacement_node_types ;;
        match r with
        | None => ret tt
        | Some displacement_node =>
            match color_output height_node,
                  first_input_named displacement_node
                    ["Height"; "height"; "Displacement"; "displacement";
                     "Texture"; "texture"] with
            | Some src, Some dst => links_new src dst
            | _, _ => ret tt
            end ;;
            s <- nodes_new host "LuxCoreNodeShapeSubdiv" ;;
            match s with
            | None => print "Error creating Subdivision node"
            | Some subdivision_node =>
                match input_where displacement_node is_shape,
                      orelse (output_where subdivision_node is_shape)
                             (output_at subdivision_node 0) with
                | Some shape_input_disp, Some shape_output_subdiv =>
                    links_new shape_output_subdiv shape_input_disp
                | _, _ => ret tt
                end
            end ;;
            match orelse (output_named displacement_node "Shape")
                         (output_at displacement_node 0),
                  first_input_named material_output
                    ["Displacement"; "displacement"; "Shape"; "shape"] with
            | Some src, Some dst => links_new src dst
            | _, _ => ret tt
            end
        end
    end.

Definition math_node_types : list string :=
    ["LuxCoreNodeTexMath"; "LuxCoreNodeMath"; "LuxCoreNodeTexMix";
     "LuxCoreNodeTexMixColor"; "luxcore_tex_math"; "luxcore_tex_mix"].

Definition first_input_hint (nm : string) : bool :=
    PyStr.contains "value1" nm || PyStr.contains "input1" nm
    || PyStr.contains "a" nm || PyStr.contains "color1" nm.

Definition second_input_hint (nm : string) : bool :=
    PyStr.contains "value2" nm || PyStr.contains "input2" nm
    || PyStr.contains "b" nm || PyStr.contains "color2" nm.

  (** one turn of [for i, input_socket in enumerate(math_node.inputs)], on
      the pair [(color_connected, ao_connected)] *)
Definition math_input_step (math_node color_node : Node) (ao_channel : Socket)
      (c : bool * bool) (inp : nat * string) : M (bool * bool) :=
    let '(color_connected, ao_connected) := c in
    let '(i, nm) := inp in
    let input_name := PyStr.lower nm in
    let input_socket := mkSocket (nid math_node) i in
    if negb color_connected && (first_input_hint input_name || (i =? 0))
    then match color_output color_node with
         | Some src => links_new src input_socket ;; ret (true, ao_connected)
         | None => ret c
         end
    else if negb ao_connected && (second_input_hint input_name || (i =? 1))
    then links_new ao_channel input_socket ;; ret (color_connected, true)
    else ret c.

Definition enumerate (l : list string) : list (nat * string) :=
    combine (seq 0 (List.length l)) l.

  (** the color texture straight into Base Color *)
Definition connect_color_directly (material_node color_node : Node)
    : M bool :=
    match color_output color_node, input_named material_node "Base Color" with
    | Some src, Some dst => links_new src dst ;; ret true
    | _, _ => ret false
    end.

  (** the output the multiply node is read from: the first whose lowercased
      name contains value, color or result, else the first *)
Definition math_output (math_node : Node) : option Socket :=
    orelse (output_where math_node
              (fun nm => PyStr.contains "value" (PyStr.lower nm)
                         || PyStr.contains "color" (PyStr.lower nm)
                         || PyStr.contains "result" (PyStr.lower nm)))
           (output_at math_node 0).

  (** [setup_ao_multiply] *)
Definition setup_ao_multiply (material_node color_node : Node)
      (ao_channel : Socket) : M unit :=
    r <- first_creatable host math_node_types ;;
    match r with
    | Some math_node =>
        c <- for_each (enumerate (inputs math_node))
               (math_input_step math_node color_node ao_channel)
               (false, false) ;;
        c1 <- (if negb (fst c) then
                 match color_output color_node, input_at math_node 0 with
                 | Some src, Some dst => links_new src dst ;; ret true
                 | _, _ => ret false
                 end
               else ret true) ;;
        c2 <- (if negb (snd c) then
                 match input_at math_node 1 with
                 | Some dst => links_new ao_channel dst ;; ret true
                 | None => ret false
                 end
               else ret true) ;;
        if c1 && c2 then
          match math_output math_node with
          | Some output_socket =>
              match input_named material_node "Base Color" with
              | Some dst => links_new output_socket dst
              | None => print "Socket 'Base Color' not found in Disney node"
              end
          | None => print "Math node has no output"
          end
        else print "Cannot connect both textures to Math node"
    | None =>
        print "Math node not available. AO connection not possible." ;;
        _ <- connect_color_directly material_node color_node ;; ret tt
    end.

  (** the body of the second pass for one entry of [texture_info_list] *)
Definition process_texture (material_node : Node)
      (mapping_node material_output : option Node)
      (v : Vars) (entry : Node * (TexType * TexInfo)) : M Vars :=
    let '(tex_node, (tex_type, tex_info)) := entry in
    if existsb (TexType_eqb tex_type) [metallic; roughness; ao; specular]
       && covered tex_type v
    then
      print ("Texture " ++ type_name tex_type ++ " (" ++ name tex_node
             ++ ") ignorata perché già coperta da ORM/ORS") ;;
      ret v
    else
      match mapping_node with
      | Some m =>
          if create_uv_node
          then _ <- connect_mapping_to_texture m tex_node ;; ret tt
          else ret tt
      | None => ret tt
      end ;;
      match tex_type with
      | orm =>
          ch <- setup_combined_texture material_node tex_node tex_type ;;
          ret (incr_if (is_some ch)
                 (set_orm tex_node ch (cover [metallic; roughness; ao] v)))
      | ors =>
          ch <- setup_combined_texture material_node tex_node tex_type ;;
          ret (incr_if (is_some ch)
                 (set_ors tex_node ch (cover [specular; roughness; ao] v)))
      | color => ret (set_color tex_node (cover [tex_type] v))
      | ao => ret (set_ao tex_node (cover [tex_type] v))
      | normal =>
          match bump_socket material_node, color_output tex_node with
          | Some socket_found, Some src =>
              links_new src socket_found ;;
              activate_normal_map tex_node ;;
              ret (incr (cover [tex_type] v))
          | _, _ => ret (cover [tex_type] v)
          end
      | bump =>
          ok <- setup_bump material_node tex_node ;;
          ret (incr_if ok (cover [tex_type] v))
      | height =>
          setup_displacement material_node tex_node material_output ;;
          ret (incr (cover [tex_type] v))
      | emission =>
          ok <- setup_emission material_node tex_node ;;
          ret (incr_if ok (cover [tex_type] v))
      | _ =>
          match socket tex_info with
          | Some sock =>
              match input_named material_node sock, color_output tex_node with
              | Some dst, Some src =>
                  links_new src dst ;; ret (incr (cover [tex_type] v))
              | _, _ => ret (cover [tex_type] v)
              end
          | None => ret (cover [tex_type] v)
          end
      end.

  (** [ao_channel]: the standalone AO texture the loop kept, else the ORM
      splitter's channel, else the ORS splitter's *)
Definition select_ao_channel (v : Vars) : option Socket :=
    match ao_node v with
    | Some n =>
        if 0 <? List.length (outputs n) then color_output n
        else orelse (orm_ao_channel v) (ors_ao_channel v)
    | None => orelse (orm_ao_channel v) (ors_ao_channel v)
    end.

  (** the end of [connect_textures_to_material]: combine color and AO *)
Definition combine_color_ao (material_node : Node) (v : Vars) : M Vars :=
    match color_node v, select_ao_channel v with
    | Some c, Some ao_channel =>
        setup_ao_multiply material_node c ao_channel ;; ret (incr v)
    | Some c, None =>
        ok <- connect_color_directly material_node c ;; ret (incr_if ok v)
    | None, _ => ret v
    end.

  (** the first pass: [texture_info_list], then sorted by priority *)
Definition first_pass (texture_nodes : list Node)
    : list (Node * (TexType * TexInfo)) :=
    flat_map (fun n => match best_match (name n) (image n) with
                       | Some e => [(n, e)]
                       | None => []
                       end) texture_nodes.

Definition texture_info_list (texture_nodes : list Node)
    : list (Node * (TexType * TexInfo)) :=
    sort_desc (fun x => priority_of texture_mapping (fst (snd x)))
              (first_pass texture_nodes).

  (** [connect_textures_to_material]; the result is [connected_count] (kept
      with the other loop variables) *)
Definition connect_textures_to_material (material_node : Node)
      (texture_nodes : list Node) (mapping_node material_output : option Node)
    : M Vars :=
    v <- for_each (texture_info_list texture_nodes)
           (process_texture material_node mapping_node material_output)
           init_vars ;;
    combine_color_ao material_node v.

  (** *** The operator *)

Definition mapping_node_types : list string :=
    ["LuxCoreNodeTexMapping2D"; "LuxCoreNodeMapping2D";
     "luxcore_tex_mapping2d"; "LuxCoreNodeUV"].

  (** [create_2d_mapping_node]: the first kind the host accepts *)
Definition create_2d_mapping_node : M (option Node) :=
    first_creatable host mapping_node_types.

  (** [find_or_create_material_output]: the first output node of the tree,
      else a new one, else nothing *)
Definition find_or_create_material_output : M (option Node) :=
    ns <- get_nodes ;;
    match find_kind ["LuxCoreNodeMatOutput"] ns with
    | Some n => ret (Some n)
    | None => nodes_new host "LuxCoreNodeMatOutput"
    end.

Definition disney_node_types : list string :=
    ["LuxCoreNodeMatDisney"; "LuxCoreNodeMatDisney2";
     "luxcore_material_disney"].

Definition texture_node_types : list string :=
    ["LuxCoreNodeTexImagemap"; "LuxCoreNodeTexImage"; "ShaderNodeTexImage"].

  (** [poll]: the active node is a Disney node *)
Definition poll (active : option Node) : bool :=
    match active with
    | Some n => mem (bl_idname n) disney_node_types
    | None => false
    end.

  (** [execute], on the active node of the tree; [organize_nodes] only moves
      nodes and is left out *)
Definition execute (disney_node : Node) : M Status :=
    ns <- get_nodes ;;
    let texture_nodes :=
      filter (fun n => mem (bl_idname n) texture_node_types) ns in
    match texture_nodes with
    | [] =>
        report "WARNING" "No texture nodes found in the node tree" ;;
        ret CANCELLED
    | _ :: _ =>
        mapping_node <- (if create_uv_node then create_2d_mapping_node
                         else ret None) ;;
        material_output <- find_or_create_material_output ;;
        v <- connect_textures_to_material disney_node texture_nodes
                                          mapping_node material_output ;;
        (if 0 <? connected_count v
         then report "INFO" ("Connected " ++ str_of_nat (connected_count v)
                             ++ " textures")
         else report "WARNING" "No textures were connected") ;;
        ret FINISHED
    end.

End Synthesis.

End TextureConnect.
(** ** [luxcore_texture_extractor.py]: the classifier with suffix precedence *)
Module TextureExtractor.

Definition texture_mapping : Mapping :=
  [ (orm, mkInfo ["orm"; "arm"; "mro"; "metallicroughness";
                  "roughnessmetallic"; "occlusionroughnessmetallic";
                  "ambientroughnessmetallic"] None 12);
    (ors, mkInfo ["ors"; "occlusionroughnessspecular";
                  "roughnessspecularocclusion"; "specularroughnessocclusion";
                  "ambientroughnessspecular"; "occlusionroughnessgloss";
                  "roughnessglossocclusion"] None 11);
    (emission, mkInfo ["emission"; "emit"; "emissive"; "emiss"; "glow";
                       "light"] (Some "Emission") 10);
    (color, mkInfo ["color"; "diff"; "diffuse"; "albedo"; "basecolor"; "col";
                    "base"; "basecol"; "diffuse"; "dif"; "dff"; "clr";
                    "colour"] (Some "Base Color") 9);
    (normal, mkInfo ["normal"; "norm"; "nrm"; "nor"; "normalmap";
                     "normal_map"; "normalgl"; "normal_dx"; "nrml"; "normals";
                     "normal_gl"; "normalgl"; "norm_gl"] (Some "Bump") 8);
    (bump, mkInfo ["bump"; "bmp"; "bump_map"; "bumpmap"] (Some "Bump") 7);
    (metallic, mkInfo ["metal"; "metallic"; "metallness"; "metalness"; "mtl";
                       "met"; "metalic"] (Some "Metallic") 6);
    (roughness, mkInfo ["rough"; "roughness"; "rugosità"; "roughness";
                        "gloss"; "glossiness"; "rgh"; "roughness"; "rghns";
                        "rough"; "rug"] (Some "Roughness") 5);
    (specular, mkInfo ["spec"; "specular"; "specularity"; "spc"; "specular";
                       "specularlevel"] (Some "Specular") 4);
    (height, mkInfo ["height"; "disp"; "displacement"; "heightmap";
                     "height_map"; "hgt"; "displace"; "depth"; "depthmap"]
                    (Some "Height") 3);
    (opacity, mkInfo ["opacity"; "alpha"; "transparency"; "transparent";
                      "opac"; "alph"; "trans"; "op"; "mask"]
                     (Some "Opacity") 2);
    (ao, mkInfo ["ao"; "ambientocclusion"; "occlusion"; "ambient";
                 "ambient_occlusion"; "occl"; "ambocc"; "ambientoccl";
                 "occlusion"; "ao_"; "_ao"; "ao_map"] None 1) ].

Definition search_text (node_name : string) (image : option string) : string :=
  (PyStr.lower node_name ++ " " ++
   match image with Some i => PyStr.lower i | None => EmptyString end)%string.

(** [suffix_text]: last segment of the extension-stripped image name (of the
    node name when the texture has no image) *)
Definition suffix_text (node_name : string) (image : option string) : string :=
  let image_name :=
    match image with Some i => PyStr.lower i | None => EmptyString end in
  let basename_no_ext :=
    if String.eqb image_name EmptyString
    then fst (PyStr.splitext (PyStr.lower node_name))
    else fst (PyStr.splitext image_name) in
  PyStr.last_part (PyStr.re_split basename_no_ext).

(** the loop state [(best_match, best_priority, best_is_suffix)] *)
Record Best : Type := mkBest {
  best_match : option (TexType * TexInfo);
  best_priority : Z;
  best_is_suffix : bool
}.

(** one turn of [for tex_type, tex_info in texture_mapping.items()]: the
    first keyword found in the text decides, for the whole entry, whether the
    entry counts as a suffix match *)
Definition match_step (text suffix : string) (b : Best)
    (e : TexType * TexInfo) : Best :=
  match first_keyword PyStr.boundary_search (keywords (snd e)) text with
  | Some keyword =>
      let is_suffix_match := PyStr.full_match keyword suffix in
      let current_priority := priority (snd e) in
      if is_suffix_match && negb (best_is_suffix b)
      then mkBest (Some e) current_priority true
      else if is_suffix_match && best_is_suffix b
      then if (current_priority >? best_priority b)%Z
           then mkBest (Some e) current_priority (best_is_suffix b) else b
      else if negb is_suffix_match && negb (best_is_suffix b)
      then if (current_priority >? best_priority b)%Z
           then mkBest (Some e) current_priority (best_is_suffix b) else b
      else b
  | None => b
  end.

Definition classify_best (node_name : string) (image : option string) : Best :=
  fold_left (match_step (search_text node_name image)
                        (suffix_text node_name image))
            texture_mapping (mkBest None (-1)%Z false).

(** the type recorded in [texture_info_list] *)
Definition classify (node_name : string) (image : option string) : TexType :=
  match best_match (classify_best node_name image) with
  | Some e => fst e
  | None => unassigned
  end.


(** *** Synthesis *)
Import Host.

(** the variables the first pass fills: the last texture of each kind wins *)
Record Special : Type := mkSpecial {
  ao_texture_node : option Node;
  color_texture_node : option Node;
  orm_node : option Node;
  ors_node : option Node
}.

Definition note_special (sp : Special) (n : Node) (t : TexType) : Special :=
  match t with
  | ao => mkSpecial (Some n) (color_texture_node sp) (orm_node sp) (ors_node sp)
  | color => mkSpecial (ao_texture_node sp) (Some n) (orm_node sp) (ors_node sp)
  | orm => mkSpecial (ao_texture_node sp) (color_texture_node sp) (Some n)
                     (ors_node sp)
  | ors => mkSpecial (ao_texture_node sp) (color_texture_node sp) (orm_node sp)
                     (Some n)
  | _ => sp
  end.

(** the [tex_info] of a texture: its table entry, or the extractor's
    dictionary for an unassigned one *)
Definition info_of (node_name : string) (image : option string)
  : TexType * TexInfo :=
  match best_match (classify_best node_name image) with
  | Some e => e
  | None => (unassigned, mkInfo [] None 0%Z)
  end.

Definition first_pass (texture_nodes : list Node)
  : list (Node * (TexType * TexInfo)) :=
  map (fun n => (n, info_of (name n) (image n))) texture_nodes.

Definition specials (texture_nodes : list Node) : Special :=
  fold_left (fun sp n => note_special sp n (classify (name n) (image n)))
            texture_nodes (mkSpecial None None None None).

Definition texture_info_list (texture_nodes : list Node)
  : list (Node * (TexType * TexInfo)) :=
  sort_desc (fun x => priority_of texture_mapping (fst (snd x)))
            (first_pass texture_nodes).

Definition same_node (n : Node) (o : option Node) : bool :=
  match o with Some m => nid n =? nid m | None => false end.

Definition texture_kinds : list string :=
  ["LuxCoreNodeTexImagemap"; "LuxCoreNodeTexImage"; "ShaderNodeTexImage"].

Definition color_keywords : list string :=
  ["color"; "diff"; "diffuse"; "albedo"; "basecolor"; "col"; "base"].

Definition multiply_node_types : list string :=
  ["LuxCoreNodeTexMath"; "LuxCoreNodeMath"; "LuxCoreNodeTexMix";
   "LuxCoreNodeTexMixColor"; "luxcore_tex_math"; "luxcore_tex_mix"].

Section Synthesis.
Variable host : Host.
Variable create_uv_node : bool.

  (** [connect_mapping_to_texture]: the first input that is neither a color
      nor a value input, else the first input *)
Definition connect_mapping_to_texture (mapping_node tex_node : Node)
    : M bool :=
    match output_at mapping_node 0, input_at tex_node 0 with
    | Some src, Some first_input =>
        match input_where tex_node
                (fun nm => negb (PyStr.contains "color" (PyStr.lower nm))
                           && negb (PyStr.contains "value" (PyStr.lower nm)))
        with
        | Some dst => links_new src dst ;; ret true
        | None => links_new src first_input ;; ret true
        end
    | _, _ => ret false
    end.

Definition connect_mapping (mapping_node : option Node) (tex_node : Node)
    : M unit :=
    match mapping_node with
    | Some m =>
        if create_uv_node
        then _ <- connect_mapping_to_texture m tex_node ;; ret tt
        else ret tt
    | None => ret tt
    end.

  (** [setup_combined_texture]: the mapping first, then the same text as in
      [luxcore_texture_connect.py] *)
Definition setup_combined_texture (material_node combined_node : Node)
      (tex_type : TexType) (mapping_node : option Node) : M (option Socket) :=
    connect_mapping mapping_node combined_node ;;
    TextureConnect.setup_combined_texture host material_node combined_node
                                          tex_type.

  (** the link object that ends at the socket, first in [node_tree.links] *)
Definition link_into (dst : Socket) (ls : list Link) : option Link :=
    find (fun l => Socket_eqb (to_socket l) dst) ls.

  (** the output the multiply node is read from: the first named color,
      value or result (in any case), else the first *)
Definition multiply_output (multiply_node : Node) : option Socket :=
    orelse (output_where multiply_node
              (fun nm => mem (PyStr.lower nm) ["color"; "value"; "result"]))
           (output_at multiply_node 0).

  (** [multiply_ao_with_color]; [color_node] may be [None]. The constant
      node's [value] is written without a guard: a node without that attribute
      raises, as a rejected node kind does. *)
Definition multiply_ao_with_color (material_node : Node)
      (color_node : option Node) (ao_channel : Socket) : M bool :=
    r <- first_creatable host multiply_node_types ;;
    match r with
    | None => print "ERROR: Cannot create multiply node" ;; ret false
    | Some multiply_node =>
        let wire (color_output : option Socket) : M bool :=
          match color_output, input_at multiply_node 0 with
          | Some src, Some dst => links_new src dst
          | _, _ => ret tt
          end ;;
          match input_at multiply_node 1 with
          | Some dst => links_new ao_channel dst
          | None => ret tt
          end ;;
          match input_named material_node "Base Color",
                multiply_output multiply_node with
          | Some base_color_input, Some multiply_output =>
              ls <- get_links ;;
              match link_into base_color_input ls with
              | Some l => links_remove l
              | None => ret tt
              end ;;
              links_new multiply_output base_color_input ;;
              ret true
          | _, _ => ret false
          end in
        match match color_node with
              | Some c => color_output c
              | None => None
              end with
        | Some src => wire (Some src)
        | None =>
            w <- nodes_new host "LuxCoreNodeTexConstantFloat3" ;;
            match w with
            | Some white_node =>
                if hasattr white_node "value"
                then wire (output_at white_node 0)
                else print "ERROR in multiply_ao_with_color" ;; ret false
            | None => print "ERROR in multiply_ao_with_color" ;; ret false
            end
        end
    end.

  (** [setup_displacement] *)
Definition setup_displacement (material_node height_node : Node)
      (material_output : option Node) : M unit :=
    match material_output with
    | None => ret tt
    | Some material_output =>
        r <- first_creatable host TextureConnect.displacement_node_types ;;
        match r with
        | None => ret tt
        | Some displacement_node =>
            match output_at height_node 0,
                  orelse (input_where displacement_node
                            (fun nm => PyStr.contains "height" (PyStr.lower nm)))
                         (input_at displacement_node 0) with
            | Some src, Some height_input => links_new src height_input
            | _, _ => ret tt
            end ;;
            s <- nodes_new host "LuxCoreNodeShapeSubdiv" ;;
            match s with
            | None => print "Error creating Subdivision node"
            | Some subdivision_node =>
                match input_where displacement_node TextureConnect.is_shape,
                      orelse (output_where subdivision_node
                                           TextureConnect.is_shape)
                             (output_at subdivision_node 0) with
                | Some shape_input_disp, Some shape_output_subdiv =>
                    links_new shape_output_subdiv shape_input_disp
                | _, _ => ret tt
                end
            end ;;
            match orelse (output_where displacement_node
                            (fun nm => PyStr.contains "shape" (PyStr.lower nm)))
                         (output_at displacement_node 0),
                  input_where material_output
                    (fun nm => PyStr.contains "shape" (PyStr.lower nm)
                               || PyStr.contains "displacement"
                                                 (PyStr.lower nm)) with
            | Some shape_output, Some shape_input =>
                links_new shape_output shape_input
            | _, _ => ret tt
            end
        end
    end.

  (** the loop "Handle ORM and ORS textures first", on
      [(orm_ao_channel, ors_ao_channel, connected_count)] *)
Definition combined_step (material_node : Node) (mapping_node : option Node)
      (v : option Socket * option Socket * nat)
      (entry : Node * (TexType * TexInfo))
    : M (option Socket * option Socket * nat) :=
    let '(orm_ch, ors_ch, count) := v in
    let '(tex_node, (tex_type, _)) := entry in
    match tex_type with
    | orm =>
        ch <- setup_combined_texture material_node tex_node tex_type
                                     mapping_node ;;
        ret (ch, ors_ch, if TextureConnect.is_some ch then S count else count)
    | ors =>
        ch <- setup_combined_texture material_node tex_node tex_type
                                     mapping_node ;;
        ret (orm_ch, ch, if TextureConnect.is_some ch then S count else count)
    | _ => ret v
    end.

  (** the search for "any color texture in the node tree": the last texture
      node, other than the occlusion sources, that a color keyword matches *)
Definition fallback_color (sp : Special) (ns : list Node) : option Node :=
    fold_left
      (fun found node =>
         if mem (bl_idname node) texture_kinds
            && negb (same_node node (ao_texture_node sp))
            && negb (same_node node (orm_node sp))
            && negb (same_node node (ors_node sp))
            && existsb (fun kw => PyStr.boundary_search kw
                                    (search_text (name node) (image node)))
                       color_keywords
         then Some node else found)
      ns None.

  (** the output of the standalone AO texture, else a splitter's channel 0 *)
Definition select_ao_channel (sp : Special) (mapping_node : option Node)
      (orm_ch ors_ch : option Socket) : M (option Socket) :=
    match ao_texture_node sp with
    | Some a =>
        if 0 <? List.length (outputs a)
        then connect_mapping mapping_node a ;; ret (color_output a)
        else ret (orelse orm_ch ors_ch)
    | None => ret (orelse orm_ch ors_ch)
    end.

  (** the step "Multiply AO with Color" *)
Definition combine_color_ao (material_node : Node) (sp : Special)
      (mapping_node : option Node) (ao_channel : option Socket) (count : nat)
    : M nat :=
    match ao_channel with
    | Some ch =>
        ns <- get_nodes ;;
        let color_texture_for_ao :=
          match color_texture_node sp with
          | Some c => Some c
          | None => fallback_color sp ns
          end in
        match color_texture_for_ao with
        | Some c => connect_mapping mapping_node c
        | None => ret tt
        end ;;
        ok <- multiply_ao_with_color material_node color_texture_for_ao ch ;;
        ret (if ok then S count else count)
    | None =>
        match color_texture_node sp with
        | Some c =>
            connect_mapping mapping_node c ;;
            ok <- TextureConnect.connect_color_directly material_node c ;;
            ret (if ok then S count else count)
        | None => ret count
        end
    end.

  (** the body of "Second pass: connect all other textures". A texture that is
      [unassigned] has [None] for its socket, and [None in
      material_node.inputs] raises: the handler of the loop prints. *)
Definition process_other (material_node : Node)
      (mapping_node material_output : option Node) (count : nat)
      (entry : Node * (TexType * TexInfo)) : M nat :=
    let '(tex_node, (tex_type, tex_info)) := entry in
    match tex_type with
    | orm | ors | ao | color => ret count
    | _ =>
        connect_mapping mapping_node tex_node ;;
        match tex_type with
        | emission =>
            ok <- TextureConnect.setup_emission host material_node tex_node ;;
            ret (if ok then S count else count)
        | bump =>
            ok <- TextureConnect.setup_bump host material_node tex_node ;;
            ret (if ok then S count else count)
        | _ =>
            match socket tex_info with
            | None =>
                print ("Error connecting texture " ++ name tex_node) ;;
                ret count
            | Some sock =>
                match input_named material_node sock with
                | Some dst =>
                    match output_at tex_node 0 with
                    | Some src => links_new src dst ;; ret (S count)
                    | None => ret count
                    end
                | None =>
                    match tex_type with
                    | height =>
                        setup_displacement material_node tex_node
                                           material_output ;;
                        ret (S count)
                    | _ => ret count
                    end
                end
            end
        end
    end.

  (** [connect_textures_to_material]; returns [connected_count] *)
Definition connect_textures_to_material (material_node : Node)
      (texture_nodes : list Node) (mapping_node material_output : option Node)
    : M nat :=
    let sp := specials texture_nodes in
    let infos := texture_info_list texture_nodes in
    v <- for_each infos (combined_step material_node mapping_node)
                  (None, None, 0) ;;
    let '(orm_ch, ors_ch, count) := v in
    ao_channel <- select_ao_channel sp mapping_node orm_ch ors_ch ;;
    count <- combine_color_ao material_node sp mapping_node ao_channel count ;;
    for_each infos (process_other material_node mapping_node material_output)
             count.

End Synthesis.

(** *** Value transfer from a Principled BSDF node *)

(** a socket's [default_value]: a number or a sequence of numbers *)
Inductive Value (F : Type) : Type :=
  | VScalar (x : F)
  | VVec (xs : list F).
Arguments VScalar {F} x.
Arguments VVec {F} xs.

(** an input of the Principled node: its name, [is_linked], [default_value] *)
Record PInput (F : Type) : Type := mkPInput {
  p_name : string;
  p_linked : bool;
  p_default : Value F
}.
Arguments mkPInput {F} _ _ _.
Arguments p_name {F} _.
Arguments p_linked {F} _.
Arguments p_default {F} _.

(** one value of the [values] dictionary *)
Record ValueInfo (F : Type) : Type := mkValueInfo {
  value : Value F;
  is_color : bool;
  invert : bool
}.
Arguments mkValueInfo {F} _ _ _.
Arguments value {F} _.
Arguments is_color {F} _.
Arguments invert {F} _.

(** [value_mapping]: Principled input -> (Disney input, invert, is_color) *)
Definition value_mapping : list (string * (string * bool * bool)) :=
  [ ("Base Color", ("Base Color", false, true));
    ("Metallic", ("Metallic", false, false));
    ("Roughness", ("Roughness", false, false));
    ("Specular IOR Level", ("Specular", false, false));
    ("Specular", ("Specular", false, false));
    ("Sheen Weight", ("Sheen", false, false));
    ("Sheen", ("Sheen", false, false));
    ("Sheen Tint", ("Sheen Tint", false, false));
    ("Coat Weight", ("Clearcoat", false, false));
    ("Clearcoat", ("Clearcoat", false, false));
    ("Coat Roughness", ("Clearcoat Gloss", true, false));
    ("Clearcoat Roughness", ("Clearcoat Gloss", true, false));
    ("Alpha", ("Opacity", false, false));
    ("Emission Color", ("Emission Color", false, true));
    ("Emission Strength", ("Emission Strength", false, false)) ].

(** [get_alternative_socket_names] *)
Definition get_alternative_socket_names (socket_name : string) : list string :=
  if String.eqb socket_name "Base Color"
  then ["BaseColor"; "Diffuse Color"; "Color"; "Diffuse"]
  else if String.eqb socket_name "Metallic" then ["Metal"; "Metallicness"]
  else if String.eqb socket_name "Roughness" then ["Rough"; "Glossiness"]
  else if String.eqb socket_name "Specular"
  then ["Spec"; "Specular Level"; "Reflection"]
  else if String.eqb socket_name "Sheen" then ["Sheen Weight"; "SheenAmount"]
  else if String.eqb socket_name "Sheen Tint" then ["SheenTint"; "Sheen Color"]
  else if String.eqb socket_name "Clearcoat"
  then ["Coat"; "Clear Coat"; "ClearCoat"; "Coat Weight"]
  else if String.eqb socket_name "Clearcoat Gloss"
  then ["Coat Gloss"; "ClearCoatGloss"; "Clearcoat Roughness"]
  else if String.eqb socket_name "Opacity" then ["Alpha"; "Transparency"]
  else [].

(** [d[k] = v] on a dictionary kept in insertion order *)
Fixpoint dict_set {V : Type} (k : string) (v : V) (d : list (string * V))
  : list (string * V) :=
  match d with
  | [] => [(k, v)]
  | (k', v') :: rest =>
      if String.eqb k k' then (k, v) :: rest
      else (k', v') :: dict_set k v rest
  end.

(** [d.get(k)] *)
Fixpoint dict_get {V : Type} (k : string) (d : list (string * V)) : option V :=
  match d with
  | [] => None
  | (k', v) :: rest => if String.eqb k k' then Some v else dict_get k rest
  end.

Section ValueTransfer.
  (** the numbers of the host and the arithmetic the code uses on them:
      [1.0 - v], [c > 0.001], [s > 0] *)
Variable F : Type.
Variables (f_zero f_one f_threshold : F).
Variable f_sub : F -> F -> F.
Variable f_gtb : F -> F -> bool.
Variable host : Host.

Definition Values : Type := list (string * ValueInfo F).

  (** the resting value of one mapping, when there is one to take *)
Definition extract_one (inp : PInput F) (invert is_color : bool)
    : option (ValueInfo F) :=
    if p_linked inp then None
    else if is_color
    then match p_default inp with
         | VVec xs => Some (mkValueInfo (VVec (firstn 3 xs)) true invert)
         | VScalar _ => None
         end
    else match p_default inp with
         | VScalar x =>
             Some (mkValueInfo (VScalar (if invert then f_sub f_one x else x))
                               false invert)
         | VVec _ => None
         end.

  (** one turn of [for principled_input, (...) in value_mapping.items()] *)
Definition extract_step (principled_inputs : list (PInput F)) (values : Values)
      (m : string * (string * bool * bool)) : Values :=
    let '(principled_input, (disney_input, invert, is_color)) := m in
    match find (fun i => String.eqb principled_input (p_name i))
               principled_inputs with
    | Some inp =>
        match extract_one inp invert is_color with
        | Some info => dict_set disney_input info values
        | None => values
        end
    | None => values
    end.

  (** [extract_principled_values], from the inputs of the Principled node *)
Definition extract_principled_values (principled_inputs : list (PInput F))
    : Values :=
    fold_left (extract_step principled_inputs) value_mapping [].

  (** [has_valid_emission] *)
Definition has_valid_emission (principled_values : Values) : bool :=
    match dict_get "Emission Color" principled_values with
    | Some emission_color =>
        match value emission_color with
        | VVec rgb =>
            existsb (fun c => f_gtb c f_threshold) rgb
            && match dict_get "Emission Strength" principled_values with
               | Some emission_strength =>
                   match value emission_strength with
                   | VScalar s => f_gtb s f_zero
                   | VVec _ => false
                   end
               | None => true
               end
        | VScalar _ => false
        end
    | None => false
    end.

  (** the tree, the [default_value] of every socket, and [applied_count] *)
Record VState : Type := mkVState {
    tree : St;
    defaults : Socket -> option (Value F);
    applied_count : nat
  }.

Definition set_default (s : Socket) (v : Value F)
      (d : Socket -> option (Value F)) : Socket -> option (Value F) :=
    fun s' => if Socket_eqb s' s then Some v else d s'.

Definition vprint (msg : string) (vs : VState) : VState :=
    mkVState (snd (print msg (tree vs))) (defaults vs) (applied_count vs).

Definition applied (vs : VState) : VState :=
    mkVState (tree vs) (defaults vs) (S (applied_count vs)).

  (** [create_emission_from_values] *)
Definition create_emission_from_values (disney_node : Node)
      (emission_color : list F) (vs : VState) : bool * VState :=
    match nodes_new host "LuxCoreNodeMatEmission" (tree vs) with
    | (None, _) => (false, vprint "Error creating Emission node" vs)
    | (Some emission_node, t1) =>
        let vs1 :=
          match input_named emission_node "Color" with
          | Some color_input =>
              mkVState t1 (set_default color_input (VVec emission_color)
                                       (defaults vs))
                       (applied_count vs)
          | None =>
              vprint "WARNING: 'Color' input not found in Emission node"
                     (mkVState t1 (defaults vs) (applied_count vs))
          end in
        match output_at emission_node 0 with
        | None => (false, vprint "Error creating Emission node" vs1)
        | Some emission_output =>
            match orelse (input_named disney_node "Emission")
                    (input_where disney_node
                       (fun nm => PyStr.contains "emission" (PyStr.lower nm)))
            with
            | Some emission_input =>
                (true,
                 mkVState (snd (links_new emission_output emission_input
                                          (tree vs1)))
                          (defaults vs1) (applied_count vs1))
            | None =>
                (false,
                 vprint "WARNING: Could not find Emission input in Disney node"
                        vs1)
            end
        end
    end.

  (** the Disney input a value goes to: by its name, by an alternative name,
      else the first input equal to the name up to case or containing, or
      contained in, the name or an alternative *)
Definition target_socket (disney_node : Node) (disney_input : string)
    : option Socket :=
    let alt_names := get_alternative_socket_names disney_input in
    orelse (input_named disney_node disney_input)
      (orelse (TextureConnect.first_input_named disney_node alt_names)
         (input_where disney_node
            (fun nm =>
               String.eqb (PyStr.lower nm) (PyStr.lower disney_input)
               || existsb
                    (fun alt =>
                       PyStr.contains (PyStr.lower alt) (PyStr.lower nm)
                       || PyStr.contains (PyStr.lower nm) (PyStr.lower alt))
                    (alt_names ++ [disney_input])))).

  (** [socket.is_linked] of an input *)
Definition is_linked (s : Socket) (g : Graph) : bool :=
    existsb (fun l => Socket_eqb (to_socket l) s) (links g).

  (** what a color value writes into a destination holding [old]: four
      components take the RGB and 1.0, three take the RGB, a number takes the
      first component; [None] when an index is out of range or the host
      refuses the shape *)
Definition color_write (color_val : list F) (old : Value F)
    : option (Value F) :=
    match old, color_val with
    | VVec [_; _; _; _], r :: g :: b :: _ => Some (VVec [r; g; b; f_one])
    | VVec [_; _; _], [r; g; b] => Some (VVec [r; g; b])
    | VScalar _, r :: _ => Some (VScalar r)
    | _, _ => None
    end.

  (** one turn of [for disney_input, value_info in principled_values.items()];
      a write the host refuses ends in the handler's diagnostic *)
Definition apply_step (disney_node : Node) (vs : VState)
      (item : string * ValueInfo F) : VState :=
    let '(disney_input, value_info) := item in
    if Host.mem disney_input ["Emission Color"; "Emission Strength"]
    then vs
    else
      match target_socket disney_node disney_input with
      | None => vprint ("Socket not found for " ++ disney_input) vs
      | Some target =>
          if is_linked target (graph (tree vs))
          then vprint (disney_input ++ ": already has connection, skipping") vs
          else
            match value value_info, is_color value_info with
            | VVec color_val, true =>
                match defaults vs target with
                | Some old =>
                    match color_write color_val old with
                    | Some new =>
                        applied (mkVState (tree vs)
                                   (set_default target new (defaults vs))
                                   (applied_count vs))
                    | None => vprint ("Error applying " ++ disney_input) vs
                    end
                | None => applied vs
                end
            | VScalar x, false =>
                match defaults vs target with
                | Some (VScalar _) =>
                    applied (mkVState (tree vs)
                               (set_default target (VScalar x) (defaults vs))
                               (applied_count vs))
                | _ => vprint ("Error applying " ++ disney_input) vs
                end
            | _, _ => vprint ("Error applying " ++ disney_input) vs
            end
      end.

Definition disney_kinds : list string :=
    ["LuxCoreNodeMatDisney"; "LuxCoreNodeMatDisney2"; "luxcore_material_disney"].

  (** [apply_principled_values_to_disney] on the LuxCore tree *)
Definition apply_principled_values_to_disney (principled_values : Values)
      (vs : VState) : VState :=
    match find (fun n => Host.mem (bl_idname n) disney_kinds)
               (nodes (graph (tree vs))) with
    | None => vprint "ERROR: No Disney node found" vs
    | Some disney_node =>
        let vs1 :=
          match dict_get "Emission Color" principled_values with
          | Some emission_color =>
              if has_valid_emission principled_values
              then match value emission_color with
                   | VVec rgb =>
                       let (ok, vs') :=
                         create_emission_from_values disney_node rgb vs in
                       if ok then applied vs' else vs'
                   | VScalar _ => vs
                   end
              else vs
          | None => vs
          end in
        fold_left (apply_step disney_node) principled_values vs1
    end.

End ValueTransfer.

End TextureExtractor.

(** ** [luxcore_disney_setup.py]: classification and the loading loop *)
Module DisneySetup.

(** [texture_mapping] of [execute], in the dictionary's order *)
Definition texture_mapping : Mapping :=
  [ (orm, mkInfo ["orm"; "arm"; "mro"; "metallicroughness";
                  "roughnessmetallic"; "occlusionroughnessmetallic";
                  "ambientroughnessmetallic"] None 100);
    (ors, mkInfo ["ors"; "occlusionroughnessspecular";
                  "roughnessspecularocclusion"; "specularroughnessocclusion";
                  "ambientroughnessspecular"; "occlusionroughnessgloss";
                  "roughnessglossocclusion"] None 90);
    (color, mkInfo ["color"; "diff"; "diffuse"; "albedo"; "basecolor"; "col";
                    "base"; "basecol"; "diffuse"; "dif"; "dff"; "clr";
                    "colour"] (Some "Base Color") 80);
    (emission, mkInfo ["emission"; "emit"; "emissive"; "emiss"; "glow";
                       "light"] (Some "Emission") 75);
    (normal, mkInfo ["normal"; "norm"; "nrm"; "nor"; "normalmap";
                     "normal_map"; "normalgl"; "normal_dx"; "normaldx";
                     "nrml"; "normals"; "normal_gl"; "norm_gl"]
                    (Some "Bump") 70);
    (bump, mkInfo ["bump"; "bmp"; "bump_map"; "bumpmap"] (Some "Bump") 65);
    (metallic, mkInfo ["metal"; "metallic"; "metallness"; "metalness"; "mtl";
                       "met"; "metalic"] (Some "Metallic") 60);
    (roughness, mkInfo ["rough"; "roughness"; "rugosità"; "roughness";
                        "gloss"; "glossiness"; "rgh"; "roughness"; "rghns";
                        "rough"; "rug"] (Some "Roughness") 50);
    (specular, mkInfo ["spec"; "specular"; "specularity"; "spc"; "specular";
                       "specularlevel"] (Some "Specular") 40);
    (height, mkInfo ["height"; "disp"; "displacement"; "heightmap";
                     "height_map"; "hgt"; "displace"; "depth"; "depthmap"]
                    (Some "Height") 30);
    (opacity, mkInfo ["opacity"; "alpha"; "transparency"; "transparent";
                      "opac"; "alph"; "trans"; "op"; "mask"]
                     (Some "Opacity") 20);
    (ao, mkInfo ["ao"; "ambientocclusion"; "occlusion"; "ambient";
                 "ambient_occlusion"; "occl"; "ambocc"; "ambientoccl";
                 "occlusion"] None 10) ].

(** the two nested loops with their [break]s: the first entry of the table
    one keyword of which satisfies [hit] *)
Definition first_entry (hit : string -> bool) : option (TexType * TexInfo) :=
  find (fun e => existsb hit (keywords (snd e))) texture_mapping.

(** the items of the [force_type] property *)
Inductive ForceType :=
  AUTO | COLOR | NORMAL | ROUGHNESS | METALLIC | SPECULAR | DISPLACEMENT
| AO | ORM | ORS.

Definition force_map (f : ForceType) : option TexType :=
  match f with
  | AUTO => None
  | COLOR => Some color
  | NORMAL => Some normal
  | ROUGHNESS => Some roughness
  | METALLIC => Some metallic
  | SPECULAR => Some specular
  | DISPLACEMENT => Some height
  | AO => Some ao
  | ORM => Some orm
  | ORS => Some ors
  end.

(** [texture_mapping[tex_type]] *)
Definition entry_of (t : TexType) : option (TexType * TexInfo) :=
  find (fun e => TexType_eqb (fst e) t) texture_mapping.

(** the type of a file: the pattern [(^|[_-])kw($|[_-])] first, then the
    keyword anywhere in the name, then the forced type *)
Definition classify (force_type : ForceType) (filename : string)
  : option (TexType * TexInfo) :=
  let filename_no_ext := fst (PyStr.splitext (PyStr.lower filename)) in
  match first_entry (fun kw => PyStr.dash_search kw filename_no_ext) with
  | Some e => Some e
  | None =>
      match first_entry (fun kw => PyStr.contains kw filename_no_ext) with
      | Some e => Some e
      | None =>
          match force_map force_type with
          | Some t => entry_of t
          | None => None
          end
      end
  end.

Definition tex_type_of (force_type : ForceType) (filename : string)
  : option TexType :=
  option_map fst (classify force_type filename).

(** an element of [file_list] *)
Record FileInfo := mkFile { f_path : string; f_name : string }.

(** an element of [textures_to_load] *)
Record TexData := mkTexData {
  filepath : string;
  filename : string;
  tex_type : TexType;
  tex_info : TexInfo
}.

(** the entry appended to [textures_to_load] for a file *)
Definition data_of (f : FileInfo) (ty : TexType) (i : TexInfo) : TexData :=
  mkTexData (f_path f) (f_name f) ty i.

(** the identification loop; an unrecognised file is reported and left out *)
Definition identify (force_type : ForceType) (file_list : list FileInfo)
  : list TexData :=
  flat_map (fun f =>
              match classify force_type (f_name f) with
              | Some (t, i) => [data_of f t i]
              | None => []
              end) file_list.

(** [textures_to_load], after
    [sort(key=lambda x: x['info'].get('priority', 0), reverse=True)] *)
Definition textures_to_load (force_type : ForceType)
    (file_list : list FileInfo) : list TexData :=
  sort_desc (fun d => priority (tex_info d)) (identify force_type file_list).

Import Host.

(** the variables of the loading loop that the coverage test reads or
    writes *)
Record Cover := mkCover {
  covered_types : list TexType;
  orm_node : option TexData;
  ors_node : option TexData
}.

Definition init_cover : Cover := mkCover [] None None.

Definition covered (t : TexType) (cv : Cover) : bool :=
  existsb (TexType_eqb t) (covered_types cv).

(** [covered_types.add(t)] for each [t] of [ts] *)
Definition cover (ts : list TexType) (cv : Cover) : Cover :=
  mkCover (covered_types cv ++ ts) (orm_node cv) (ors_node cv).

Definition set_orm (d : TexData) (cv : Cover) : Cover :=
  mkCover (covered_types cv) (Some d) (ors_node cv).

Definition set_ors (d : TexData) (cv : Cover) : Cover :=
  mkCover (covered_types cv) (orm_node cv) (Some d).

Section Loading.
  (** [Locals] stands for the other variables of [execute] that the body of
      the loop updates ([color_node], [ao_node], [loaded_textures], ...), and
      [load_and_connect] for the body from its [try:] on: it creates the
      image node of the asset, loads the image and connects the node. The
      coverage test and the [continue] come before it. *)
Variable Locals : Type.
Variable load_and_connect : Locals -> TexData -> M Locals.

  (** one turn of the loop of phase 1 *)
Definition load_step (st : Cover * Locals) (tex_data : TexData)
    : M (Cover * Locals) :=
    let '(cv, loc) := st in
    let ty := tex_type tex_data in
    print ("DEBUG: Processing texture: " ++ filename tex_data ++ " as "
           ++ type_name ty) ;;
    if existsb (TexType_eqb ty) [metallic; roughness; ao; specular]
       && covered ty cv
    then
      print ("DEBUG: Texture " ++ type_name ty ++ " (" ++ filename tex_data
             ++ ") ignored because already covered by ORM/ORS") ;;
      ret st
    else
      cv1 <- match ty with
             | orm =>
                 print ("DEBUG: ORM found: " ++ filename tex_data) ;;
                 ret (set_orm tex_data (cover [metallic; roughness; ao] cv))
             | ors =>
                 print ("DEBUG: ORS found: " ++ filename tex_data) ;;
                 ret (set_ors tex_data (cover [specular; roughness; ao] cv))
             | _ => ret cv
             end ;;
      loc' <- load_and_connect loc tex_data ;;
      ret (cover [ty] cv1, loc').

  (** phase 1 of [execute]: the textures are loaded in priority order *)
Definition load_textures (force_type : ForceType)
      (file_list : list FileInfo) (loc : Locals) : M (Cover * Locals) :=
    for_each (textures_to_load force_type file_list) load_step
             (init_cover, loc).
End Loading.

(** the assets the body of the loop is run for, in order: the loop with a
    body that records its asset and does nothing else *)
Definition loaded_assets (force_type : ForceType)
    (file_list : list FileInfo) : list TexData :=
  snd (fst (load_textures (list TexData)
              (fun loc tex_data => ret (loc ++ [tex_data]))
              force_type file_list [] (mkSt (mkGraph [] [] 0) []))).

(** the variables after the turn for an asset that is not skipped *)
Definition after_load (cv : Cover) (d : TexData) : Cover :=
  cover [tex_type d]
    (match tex_type d with
     | orm => set_orm d (cover [metallic; roughness; ao] cv)
     | ors => set_ors d (cover [specular; roughness; ao] cv)
     | _ => cv
     end).

(** *** The body of the loop and phase 2 *)

(** an element of [loaded_textures] *)
Record Loaded := mkLoaded {
  l_type : TexType;
  l_name : string;
  l_node : Node
}.

(** the other variables of [execute] that the body of the loop writes *)
Record Vars := mkVars {
  color_node : option Node;
  ao_node : option Node;
  normal_nodes : list Node;
  bump_nodes : list Node;
  height_nodes : list Node;
  material_output : option Node;
  loaded_textures : list Loaded
}.

(** [tex_node.image = image], on the node of the tree with that identity *)
Definition set_image (n : Node) (img : string) : M Node :=
  fun s =>
    let n' := mkNode (nid n) (bl_idname n) (name n) (Some img) (inputs n)
                     (outputs n) (attrs n) in
    (n', mkSt (mkGraph (map (fun x => if nid x =? nid n then n' else x)
                            (nodes (graph s)))
                       (links (graph s)) (next_id (graph s)))
              (log s)).

(** the image node of the body on the tree of [s]: a new node of the image
    texture kind, holding the image *)
Definition image_node (sch : Schema) (img : string) (s : St) : Node :=
  mkNode (next_id (graph s)) "LuxCoreNodeTexImagemap" (sch_name sch)
         (Some img) (sch_inputs sch) (sch_outputs sch) (sch_attrs sch).

(** "Store special nodes for later" *)
Definition store_special (ty : TexType) (tex_node : Node) (v : Vars) : Vars :=
  match ty with
  | color =>
      mkVars (Some tex_node) (ao_node v) (normal_nodes v) (bump_nodes v)
             (height_nodes v) (material_output v) (loaded_textures v)
  | ao =>
      mkVars (color_node v) (Some tex_node) (normal_nodes v) (bump_nodes v)
             (height_nodes v) (material_output v) (loaded_textures v)
  | normal =>
      mkVars (color_node v) (ao_node v) (normal_nodes v ++ [tex_node])
             (bump_nodes v) (height_nodes v) (material_output v)
             (loaded_textures v)
  | bump =>
      mkVars (color_node v) (ao_node v) (normal_nodes v)
             (bump_nodes v ++ [tex_node]) (height_nodes v)
             (material_output v) (loaded_textures v)
  | height =>
      mkVars (color_node v) (ao_node v) (normal_nodes v) (bump_nodes v)
             (height_nodes v ++ [tex_node]) (material_output v)
             (loaded_textures v)
  | _ => v
  end.

(** [loaded_textures.append(...)] *)
Definition append_loaded (t : Loaded) (v : Vars) : Vars :=
  mkVars (color_node v) (ao_node v) (normal_nodes v) (bump_nodes v)
         (height_nodes v) (material_output v) (loaded_textures v ++ [t]).

(** the name of the input a search by [find_index] has found *)
Definition input_name (n : Node) (x : Socket) : string :=
  nth (s_index x) (inputs n) EmptyString.

Section Execute.
Variable host : Host.
  (** the image of a file: [bpy.data.images[filename]] when it is there,
      else [bpy.data.images.load(filepath)]; the name of the image, or
      nothing when the load raises *)
Variable load_image : string -> string -> option string.
  (** [self.auto_connect] *)
Variable auto_connect : bool.
  (** the chain of branches by type of the body (normal, bump, height,
      emission, and the types connected directly to their socket), which is
      entered for no combined, color or occlusion texture; it returns the
      variables and whether the turn ends there ([continue]) *)
Variable connect_by_type : Node -> TexData -> Vars -> M (Vars * bool).
Variable disney_node : Node.
Variable mapping_node : option Node.

  (** the shared mapping node is linked to the texture *)
Definition connect_mapping (mapping tex_node : Node) : M unit :=
    match TextureConnect.first_output_named mapping
            TextureConnect.mapping_outputs,
          TextureConnect.first_input_named tex_node
            TextureConnect.mapping_inputs with
    | Some src, Some dst => links_new src dst
    | _, _ =>
        match output_at mapping 0, input_at tex_node 0 with
        | Some src, Some dst =>
            let first_name :=
              PyStr.lower (nth 0 (inputs tex_node) EmptyString) in
            if negb (PyStr.contains "color" first_name)
               && negb (PyStr.contains "height" first_name)
            then links_new src dst
            else ret tt
        | _, _ => ret tt
        end
    end.

  (** the types for which a branch of the chain can be entered *)
Definition has_branch (ty : TexType) : bool :=
    negb (existsb (TexType_eqb ty) [orm; ors; color; ao]).

  (** the body of the loop from its [try:] on; an exception ends the turn
      with a warning *)
Definition load_and_connect (v : Vars) (tex_data : TexData) : M Vars :=
    let failed :=
      report "WARNING" ("Error loading " ++ filename tex_data) ;; ret v in
    r <- nodes_new host "LuxCoreNodeTexImagemap" ;;
    match r with
    | None => failed
    | Some n =>
        match load_image (filename tex_data) (filepath tex_data) with
        | None => failed
        | Some img =>
            tex_node <- set_image n img ;;
            match mapping_node with
            | Some m => if auto_connect then connect_mapping m tex_node
                        else ret tt
            | None => ret tt
            end ;;
            let v1 := store_special (tex_type tex_data) tex_node v in
            c <- (if auto_connect && has_branch (tex_type tex_data)
                  then connect_by_type tex_node tex_data v1
                  else ret (v1, false)) ;;
            if snd c then ret (fst c)
            else ret (append_loaded
                        (mkLoaded (tex_type tex_data) (filename tex_data)
                                  tex_node)
                        (fst c))
        end
    end.

  (** the channel [i] of the splitter to the input [nm] of the Disney node,
      else to its first input whose lowercased name contains [frag] *)
Definition connect_channel (split_node : Node) (i : nat)
      (channel nm frag : string) : M unit :=
    match output_at split_node i with
    | Some out =>
        match input_named disney_node nm with
        | Some dst =>
            links_new out dst ;;
            print ("DEBUG: Channel " ++ channel ++ " connected")
        | None =>
            match input_where disney_node
                    (fun x => PyStr.contains frag (PyStr.lower x)) with
            | Some dst =>
                links_new out dst ;;
                print ("DEBUG: Channel " ++ channel ++ " connected to "
                       ++ input_name disney_node dst)
            | None => ret tt
            end
        end
    | None => ret tt
    end.

  (** the common part of [setup_orm_texture] and [setup_ors_texture] *)
Definition setup_split (kind b_channel b_name b_frag : string)
      (tex_node : Node) : M (option Socket) :=
    print ("DEBUG: Configuring " ++ kind ++ " texture: " ++ name tex_node) ;;
    r <- nodes_new host "LuxCoreNodeTexSplitFloat3" ;;
    match r with
    | None => print "DEBUG: Cannot create SplitFloat3 node" ;; ret None
    | Some split_node =>
        match color_output tex_node, input_at split_node 0 with
        | Some src, Some dst =>
            links_new src dst ;;
            print ("DEBUG: " ++ kind ++ " connected to SplitFloat3")
        | _, _ => ret tt
        end ;;
        connect_channel split_node 1 "G (Roughness)" "Roughness" "rough" ;;
        connect_channel split_node 2 b_channel b_name b_frag ;;
        match output_at split_node 0 with
        | Some ao_output =>
            print "DEBUG: Channel R (AO) ready for multiplication" ;;
            ret (Some ao_output)
        | None => ret None
        end
    end.

Definition setup_orm_texture (orm_tex : Node) : M (option Socket) :=
    setup_split "ORM" "B (Metallic)" "Metallic" "metal" orm_tex.

Definition setup_ors_texture (ors_tex : Node) : M (option Socket) :=
    setup_split "ORS" "B (Specular)" "Specular" "spec" ors_tex.

  (** the loaded texture of a type: [for tex in loaded_textures: if
      tex['type'] == ty: ...; break] *)
Definition loaded_of (ty : TexType) (v : Vars) : option Node :=
    option_map l_node
      (find (fun t => TexType_eqb (l_type t) ty) (loaded_textures v)).

  (** one of the two steps of phase 2 *)
Definition split_combined (kind : string) (found : option TexData)
      (ty : TexType) (setup : Node -> M (option Socket)) (v : Vars)
    : M (option Socket) :=
    match found with
    | Some d =>
        if auto_connect then
          print ("DEBUG: Found " ++ kind ++ " texture: " ++ filename d) ;;
          match loaded_of ty v with
          | Some tex_node => setup tex_node
          | None => ret None
          end
        else ret None
    | None => ret None
    end.

  (** phases 1 and 2 of [execute]: the textures are loaded, then the
      combined ones get their splitter; the result holds the loop variables
      and [orm_ao_channel], [ors_ao_channel] *)
Definition load_and_split (force_type : ForceType)
      (file_list : list FileInfo) (v0 : Vars)
    : M (Cover * Vars * (option Socket * option Socket)) :=
    st <- load_textures Vars load_and_connect force_type file_list v0 ;;
    orm_ao_channel <- split_combined "ORM" (orm_node (fst st)) orm
                        setup_orm_texture (snd st) ;;
    ors_ao_channel <- split_combined "ORS" (ors_node (fst st)) ors
                        setup_ors_texture (snd st) ;;
    ret (st, (orm_ao_channel, ors_ao_channel)).
End Execute.

End DisneySetup.

(** ** [luxcore_connect_selected.py]: the connectors of the selected texture

    The connectors that do not read node labels are embedded: the five direct
    ones, occlusion, height and emission. [connect_orm] and [connect_ors]
    look for a color texture by its label and are left out, and with them
    [execute], which dispatches to all of them. *)
Module ConnectSelected.
Import Host.

Section Connectors.
Variable host : Host.

  (** the common shape of [connect_color], [connect_roughness],
      [connect_specular], [connect_metallic] and [connect_opacity]:
      [if name in disney_node.inputs ...: if 'Color' in texture_node.outputs:
      links.new(...); return True] and [return False] *)
Definition connect_direct (socket_name : string)
      (texture_node disney_node : Node) : M bool :=
    match input_named disney_node socket_name,
          output_named texture_node "Color" with
    | Some dst, Some src => links_new src dst ;; ret true
    | _, _ => ret false
    end.

Definition connect_color := connect_direct "Base Color".
Definition connect_roughness := connect_direct "Roughness".
Definition connect_specular := connect_direct "Specular".
Definition connect_metallic := connect_direct "Metallic".
Definition connect_opacity := connect_direct "Opacity".

Definition math_node_types : list string :=
    ["LuxCoreNodeTexMath"; "LuxCoreNodeMath"; "LuxCoreNodeTexMix";
     "LuxCoreNodeTexMixColor"; "luxcore_tex_math"; "luxcore_tex_mix"].

Definition first_input_hint (i : nat) (nm : string) : bool :=
    (i =? 0) || PyStr.contains "value1" nm || PyStr.contains "input1" nm
    || PyStr.contains "a" nm || PyStr.contains "color1" nm.

Definition second_input_hint (i : nat) (nm : string) : bool :=
    (i =? 1) || PyStr.contains "value2" nm || PyStr.contains "input2" nm
    || PyStr.contains "b" nm || PyStr.contains "color2" nm.

  (** one turn of [for i, input_socket in enumerate(math_node.inputs)] of
      [connect_occlusion], on the pair [(color_connected, ao_connected)];
      [color_source] is [existing_color_link.from_socket] *)
Definition occlusion_input_step (math_node texture_node : Node)
      (color_source : Socket) (c : bool * bool) (inp : nat * string)
    : M (bool * bool) :=
    let '(color_connected, ao_connected) := c in
    let '(i, nm) := inp in
    let input_name := PyStr.lower nm in
    let input_socket := mkSocket (nid math_node) i in
    if negb color_connected && first_input_hint i input_name
    then links_new color_source input_socket ;; ret (true, ao_connected)
    else if negb ao_connected && second_input_hint i input_name
    then match output_named texture_node "Color" with
         | Some src => links_new src input_socket ;; ret (color_connected, true)
         | None => ret c
         end
    else ret c.

  (** the output the Math node is read from *)
Definition math_output (math_node : Node) : option Socket :=
    orelse (output_where math_node
              (fun nm => PyStr.contains "value" (PyStr.lower nm)
                         || PyStr.contains "color" (PyStr.lower nm)
                         || PyStr.contains "result" (PyStr.lower nm)))
           (output_at math_node 0).

  (** [connect_occlusion]: the occlusion texture is multiplied into the
      color that is already linked to Base Color *)
Definition connect_occlusion (texture_node disney_node : Node) : M bool :=
    match input_named disney_node "Base Color" with
    | None =>
        report "WARNING" "No Base Color input found on Disney node" ;;
        ret false
    | Some color_input =>
        ls <- get_links ;;
        match find (fun l => Socket_eqb (to_socket l) color_input) ls with
        | None => report "ERROR" "Connect a Color Texture first" ;; ret false
        | Some existing_color_link =>
            r <- first_creatable host math_node_types ;;
            match r with
            | None =>
                report "ERROR" "Cannot create Math node for AO multiply" ;;
                ret false
            | Some math_node =>
                c <- for_each (TextureConnect.enumerate (inputs math_node))
                       (occlusion_input_step math_node texture_node
                          (from_socket existing_color_link))
                       (false, false) ;;
                c1 <- (if negb (fst c) then
                         match input_at math_node 0 with
                         | Some dst =>
                             links_new (from_socket existing_color_link) dst ;;
                             ret true
                         | None => ret false
                         end
                       else ret true) ;;
                c2 <- (if negb (snd c) then
                         match input_at math_node 1,
                               output_named texture_node "Color" with
                         | Some dst, Some src => links_new src dst ;; ret true
                         | _, _ => ret false
                         end
                       else ret true) ;;
                links_remove existing_color_link ;;
                if c1 && c2 then
                  match math_output math_node with
                  | Some output_socket =>
                      links_new output_socket color_input ;; ret true
                  | None => ret false
                  end
                else ret false
            end
        end
    end.

End Connectors.

End ConnectSelected.

(** ** Sequences of synthesis operations *)
Module Synthesis.
Import Host.

(** the mutations of the host interface and the operators built on them *)
Inductive SynthOp : Type :=
  | NodesNew (kind : string)
  | LinksNew (src dst : Socket)
  | LinksRemove (l : Link)
  | ConnectSetupCombined (material_node tex_node : Node) (t : TexType)
  | ConnectSetupAoMultiply (material_node color_node : Node) (ao_channel : Socket)
  | ConnectTextures (create_uv_node : bool) (material_node : Node)
      (texture_nodes : list Node) (mapping_node material_output : option Node)
  | ExtractorMultiplyAo (material_node : Node) (color_node : option Node)
      (ao_channel : Socket)
  | ExtractorTextures (create_uv_node : bool) (material_node : Node)
      (texture_nodes : list Node) (mapping_node material_output : option Node).

Definition run_op (host : Host) (op : SynthOp) : M unit :=
  match op with
  | NodesNew kind => _ <- nodes_new host kind ;; ret tt
  | LinksNew src dst => links_new src dst
  | LinksRemove l => links_remove l
  | ConnectSetupCombined m t ty =>
      _ <- TextureConnect.setup_combined_texture host m t ty ;; ret tt
  | ConnectSetupAoMultiply m c ch =>
      TextureConnect.setup_ao_multiply host m c ch
  | ConnectTextures uv m texs mp mo =>
      _ <- TextureConnect.connect_textures_to_material host uv m texs mp mo ;;
      ret tt
  | ExtractorMultiplyAo m c ch =>
      _ <- TextureExtractor.multiply_ao_with_color host m c ch ;; ret tt
  | ExtractorTextures uv m texs mp mo =>
      _ <- TextureExtractor.connect_textures_to_material host uv m texs mp mo ;;
      ret tt
  end.

Fixpoint run_ops (host : Host) (ops : list SynthOp) : M unit :=
  match ops with
  | [] => ret tt
  | op :: rest => run_op host op ;; run_ops host rest
  end.

End Synthesis.

(** ** A concrete host, for evaluating the operators *)
Module Example.
Import Host.

(** the node kinds of a LuxCore-like host and their sockets; every other
    kind is refused *)
Definition luxcore_host : Host :=
  fun kind =>
    if String.eqb kind "LuxCoreNodeTexSplitFloat3"
    then Some (mkSchema "Split Float3" ["Color"] ["R"; "G"; "B"] [])
    else if String.eqb kind "LuxCoreNodeTexMath"
    then Some (mkSchema "Math" ["Value 1"; "Value 2"] ["Value"] ["mode"])
    else if String.eqb kind "LuxCoreNodeTexConstantFloat3"
    then Some (mkSchema "Constant Color" [] ["Color"] ["value"])
    else if String.eqb kind "LuxCoreNodeMatEmission"
    then Some (mkSchema "Emission" ["Color"] ["Emission"] [])
    else if String.eqb kind "LuxCoreNodeTexBump"
    then Some (mkSchema "Bump" ["Value"; "Bump Height"] ["Bump"] [])
    else if String.eqb kind "LuxCoreNodeShapeHeightDisplacement"
    then Some (mkSchema "Height Displacement" ["Shape"; "Height"] ["Shape"]
                        ["scale"])
    else if String.eqb kind "LuxCoreNodeShapeSubdiv"
    then Some (mkSchema "Subdivision" ["Shape"] ["Shape"] [])
    else if String.eqb kind "LuxCoreNodeTexImagemap"
    then Some (mkSchema "Imagemap" ["2D Mapping"] ["Color"; "Alpha"]
                        ["image"; "gamma"; "is_normal_map"])
    else None.

(** a host that knows no node kind at all *)
Definition bare_host : Host := fun _ => None.

Definition disney : Node :=
  mkNode 0 "LuxCoreNodeMatDisney" "Disney"
         None
         ["Base Color"; "Subsurface"; "Metallic"; "Specular"; "Specular Tint";
          "Roughness"; "Anisotropic"; "Sheen"; "Sheen Tint"; "Clearcoat";
          "Clearcoat Gloss"; "Opacity"; "Bump"; "Emission"]
         ["Material"] [].

(** an image texture node *)
Definition texture (id : nat) (nm : string) : Node :=
  mkNode id "LuxCoreNodeTexImagemap" nm (Some nm) ["2D Mapping"]
         ["Color"; "Alpha"] ["image"; "gamma"; "is_normal_map"].

(** a tree holding the Disney node and the given textures *)
Definition tree_of (texs : list Node) : St :=
  mkSt (mkGraph (disney :: texs) [] (S (List.length texs))) [].

Definition base_color_socket : Socket := mkSocket 0 0.

Definition t_color : Node := texture 1 "wall_basecolor.jpg".
Definition t_ao : Node := texture 1 "wall_ao.png".
Definition t_orm : Node := texture 1 "wall_orm.png".
Definition t_metallic : Node := texture 2 "wall_metallic.png".
Definition t_roughness : Node := texture 3 "wall_roughness.png".
Definition t_height : Node := texture 1 "wall_height.png".

End Example.

(** * Properties *)
Import Host.

Lemma TexType_eqb_eq (a b : TexType) : TexType_eqb a b = true <-> a = b.
Proof. destruct a, b; simpl; split; intro H; try reflexivity; discriminate. Qed.

Lemma TexType_eqb_refl (a : TexType) : TexType_eqb a a = true.
Proof. destruct a; reflexivity. Qed.

(** ** The classifiers *)
Section Boundaries.
Import PyStr.

Lemma strip_prefix_app (kw s rest : string) :
    strip_prefix kw s = Some rest -> s = (kw ++ rest)%string.
Proof.
    revert s; induction kw as [|a kw IH]; intros s H; simpl in *.
    - now inversion H.
    - destruct s as [|b s]; [discriminate|].
      destruct (Ascii.eqb a b) eqn:E; [|discriminate].
      apply Ascii.eqb_eq in E; subst b.
      now rewrite (IH _ H).
Qed.

Lemma scan_flanked (kw s : string) (left_ok : bool) :
    scan left_ok kw s = true ->
    exists pre post,
      s = (pre ++ kw ++ post)%string
      /\ left_flank left_ok pre /\ right_boundary post = true.
Proof.
    revert left_ok; induction s as [|c t IH]; intros left_ok H.
    - simpl in H. rewrite orb_false_r in H.
      apply andb_prop in H as [Hl H].
      destruct (strip_prefix kw EmptyString) as [rest|] eqn:E; [|discriminate].
      exists EmptyString, rest; repeat split; auto.
      + simpl. now apply strip_prefix_app.
      + now left.
    - simpl in H. apply orb_prop in H as [H|H].
      + apply andb_prop in H as [Hl H].
        destruct (strip_prefix kw (String c t)) as [rest|] eqn:E;
          [|discriminate].
        exists EmptyString, rest; repeat split; auto.
        * simpl. now apply strip_prefix_app.
        * now left.
      + destruct (IH _ H) as (pre & post & -> & Hf & Hr).
        exists (String c pre), post; repeat split; auto.
        right. destruct Hf as [[-> Hc]|(pre' & c' & -> & Hc')].
        * exists EmptyString, c; split; [reflexivity|].
          now apply negb_true_iff in Hc.
        * exists (String c pre'), c'; split; [reflexivity|assumption].
Qed.
End Boundaries.


(** C1 (suffix precedence). The extractor gives the name "diffuse_normal"
    the role Normal, its keyword "normal" being the suffix; the classifier of
    [luxcore_texture_connect.py], which has no suffix rule, gives the same
    name the role BaseColor by priority. In the extractor the rule is applied
    to the first keyword of an entry found in the text only: "glow_color_albedo"
    has the suffix "albedo", a BaseColor keyword, and is classified Emission,
    a non-suffix match of higher priority. *)
Theorem C1_suffix_precedence_on_the_code :
  TextureExtractor.classify "diffuse_normal" None = normal
  /\ TextureExtractor.classify "LuxCore_diffuse_normal_png"
                               (Some "diffuse_normal.png") = normal
  /\ option_map fst (TextureConnect.best_match "diffuse_normal" None)
     = Some color
  /\ TextureExtractor.suffix_text "glow_color_albedo" None = "albedo"
  /\ In "albedo" (keywords (snd (nth 3 TextureExtractor.texture_mapping
                                      (unassigned, mkInfo [] None 0%Z))))
  /\ TextureExtractor.classify "glow_color_albedo" None = emission.
Proof.
  repeat split; try (vm_compute; reflexivity).
  vm_compute. tauto.
Qed.

(** C5, the claim as stated fails: the bare name "col" matches the color
    keyword group, "col" being one of its keywords. *)
Lemma C5_col_matches_color_group :
  TextureConnect.group_matches color (TextureConnect.search_text "col" None)
  <> false
  /\ option_map fst (TextureConnect.best_match "col" None) = Some color.
Proof. split; [vm_compute; discriminate | vm_compute; reflexivity]. Qed.

(** C5 (boundary matching), amended. A keyword is found in a text only where
    it is flanked on each side by a non-alphanumeric character or an end of
    the text. The name "base_color" matches the color keyword group, and so
    does the bare name "col", which is itself a keyword of the group; a name
    such as "recolored", where the keywords "color" and "col" occur only
    inside a longer word, does not. *)
Theorem C5_boundary_matching :
  (forall kw text : string,
      PyStr.boundary_search kw text = true -> PyStr.flanked kw text)
  /\ TextureConnect.group_matches color
       (TextureConnect.search_text "base_color" None) = true
  /\ TextureConnect.group_matches color
       (TextureConnect.search_text "col" None) = true
  /\ TextureConnect.group_matches color
       (TextureConnect.search_text "recolored" None) = false.
Proof.
  split; [|repeat split; vm_compute; reflexivity].
  intros kw text H. unfold PyStr.boundary_search in H.
  exact (scan_flanked kw text true H).
Qed.

Lemma C5_boundary_matching_witness :
  PyStr.boundary_search "color" "base_color " = true
  /\ PyStr.flanked "color" "base_color ".
Proof.
  split; [reflexivity|].
  apply (proj1 C5_boundary_matching "color" "base_color "). reflexivity.
Defined.

(** ** Failure isolation *)

(** C7 (partial-failure isolation). With no material-output node,
    [setup_displacement] of [luxcore_texture_connect.py] returns at once: no
    node, no edge and no diagnostic, whatever the host and the tree. The
    caller then counts the Height texture as connected. In a run over a
    Height, a Roughness and a Metallic texture the other two are connected,
    the count is 3 and the log is empty. *)
Theorem C7_missing_output_fails_silently :
  (forall (host : Host.Host) (material_node height_node : Host.Node)
          (s : Host.St),
      TextureConnect.setup_displacement host material_node height_node None s
      = (tt, s))
  /\ (forall (host : Host.Host) (uv : bool) (material_node tex : Host.Node)
             (info : TexInfo) (v : TextureConnect.Vars) (s : Host.St),
         TextureConnect.process_texture host uv material_node None None v
                                        (tex, (height, info)) s
         = (TextureConnect.incr (TextureConnect.cover [height] v), s))
  /\ (let texs := [Example.t_height; Example.t_roughness; Example.t_metallic] in
      let r := TextureConnect.connect_textures_to_material
                 Example.luxcore_host true Example.disney texs None None
                 (Example.tree_of texs) in
      Host.log (snd r) = []
      /\ TextureConnect.connected_count (fst r) = 3
      /\ Host.nodes (Host.graph (snd r)) = Example.disney :: texs
      /\ Host.links (Host.graph (snd r))
         = [ Host.mkLink (Host.mkSocket 2 0) (Host.mkSocket 0 2);
             Host.mkLink (Host.mkSocket 3 0) (Host.mkSocket 0 5) ]).
Proof.
  split; [reflexivity|]. split; [reflexivity|].
  vm_compute. repeat split.
Qed.

(** ** Invariants of the tree under the operators *)
Section Preservation.
Import Host.

Variable I : St -> Prop.

Lemma preserves_ret {A : Type} (a : A) : preserves I (ret a).
Proof. intros s H; exact H. Qed.

Lemma preserves_bind {A B : Type} (m : M A) (f : A -> M B) :
  preserves I m -> (forall a, preserves I (f a)) -> preserves I (bind m f).
Proof.
  intros Hm Hf s H. unfold bind.
  specialize (Hm s H). destruct (m s) as [a s']. simpl in Hm.
  exact (Hf a s' Hm).
Qed.

Lemma preserves_for_each {A V : Type} (xs : list A) (body : V -> A -> M V) :
  (forall v x, preserves I (body v x)) ->
  forall v, preserves I (for_each xs body v).
Proof.
  intros Hb. induction xs as [|x xs IH]; intros v; simpl.
  - apply preserves_ret.
  - apply preserves_bind; [apply Hb | intros; apply IH].
Qed.

Lemma preserves_first_creatable (host : Host) (kinds : list string) :
  (forall k, preserves I (nodes_new host k)) ->
  preserves I (first_creatable host kinds).
Proof.
  intros Hn. induction kinds as [|k kinds IH]; simpl.
  - apply preserves_ret.
  - apply preserves_bind; [apply Hn|].
    intros [n|]; [apply preserves_ret | exact IH].
Qed.

End Preservation.

(** takes a computation apart along its binds and case distinctions, leaving
    the primitive steps to the hints of [db] *)
Ltac preserve_with tac :=
  repeat first
    [ tac
    | apply preserves_ret
    | apply preserves_for_each; intros
    | apply preserves_first_creatable; intros
    | match goal with
      | |- preserves _ (bind _ _) => apply preserves_bind; [|intros]
      | |- preserves _ (let _ := _ in _) => cbv zeta
      end
    | match goal with
      | |- preserves _ (match ?x with _ => _ end) => destruct x
      | |- preserves _ (if ?x then _ else _) => destruct x
      | |- preserves _ (let '(_, _) := ?x in _) => destruct x
      end ].

Section SingleDestination.
Import Host.

Lemma filter_filter_length {A : Type} (p q : A -> bool) (l : list A) :
  List.length (filter p (filter q l)) <= List.length (filter p l).
Proof.
  induction l as [|x l IH]; simpl; [lia|].
  destruct (q x); simpl; destruct (p x); simpl; lia.
Qed.

Lemma Socket_eqb_eq (a b : Socket) : Socket_eqb a b = true <-> a = b.
Proof.
  destruct a as [n i], b as [m j]; unfold Socket_eqb; simpl.
  rewrite andb_true_iff, !Nat.eqb_eq. split.
  - intros [-> ->]; reflexivity.
  - intros H; inversion H; auto.
Qed.

Lemma Socket_eqb_refl (a : Socket) : Socket_eqb a a = true.
Proof. now apply Socket_eqb_eq. Qed.

Lemma single_dest_links_new (src dst : Socket) (g : Graph) :
  single_dest g -> single_dest (links_new_graph src dst g).
Proof.
  intros H d. unfold incoming, links_new_graph; simpl.
  rewrite filter_app, length_app; simpl.
  destruct (Socket_eqb dst d) eqn:E.
  - apply Socket_eqb_eq in E; subst d.
    assert (filter (fun l => Socket_eqb (to_socket l) dst)
              (filter (fun l => negb (Socket_eqb (to_socket l) dst)) (links g))
            = []) as ->.
    { induction (links g) as [|x l IH]; simpl; [reflexivity|].
      destruct (Socket_eqb (to_socket x) dst) eqn:Ex; simpl; [exact IH|].
      rewrite Ex. exact IH. }
    simpl. lia.
  - simpl. pose proof (filter_filter_length
                         (fun l => Socket_eqb (to_socket l) d)
                         (fun l => negb (Socket_eqb (to_socket l) dst))
                         (links g)).
    specialize (H d). unfold incoming in H. lia.
Qed.

Lemma remove_link_filter_length (p : Link -> bool) (l : Link) (ls : list Link) :
  List.length (filter p (remove_link l ls)) <= List.length (filter p ls).
Proof.
  induction ls as [|x ls IH]; simpl; [lia|].
  destruct (Link_eqb x l); simpl.
  - destruct (p x); simpl; lia.
  - destruct (p x); simpl; lia.
Qed.

Lemma sd_print (msg : string) : preserves single_dest_st (print msg).
Proof. intros s H; exact H. Qed.

Lemma sd_nodes_new (host : Host) (k : string) :
  preserves single_dest_st (nodes_new host k).
Proof.
  intros s H. unfold nodes_new. destruct (host k); simpl; exact H.
Qed.

Lemma sd_links_new (src dst : Socket) :
  preserves single_dest_st (links_new src dst).
Proof. intros s H. apply single_dest_links_new. exact H. Qed.

Lemma sd_links_remove (l : Link) : preserves single_dest_st (links_remove l).
Proof.
  intros s H d. unfold incoming; simpl.
  pose proof (remove_link_filter_length
                (fun x => Socket_eqb (to_socket x) d) l (links (graph s))).
  specialize (H d). unfold incoming in H. lia.
Qed.

Lemma sd_get_links : preserves single_dest_st get_links.
Proof. intros s H; exact H. Qed.

Lemma sd_get_nodes : preserves single_dest_st get_nodes.
Proof. intros s H; exact H. Qed.

End SingleDestination.

Ltac sd_prim :=
  first [ apply sd_print | apply sd_nodes_new | apply sd_links_new
        | apply sd_links_remove | apply sd_get_links | apply sd_get_nodes ].

Ltac sd := preserve_with sd_prim.

Section SingleDestinationOperators.
Import Host.
Variable host : Host.

Lemma sd_link_named_or_like src n nm frag :
  preserves single_dest_st (link_named_or_like src n nm frag).
Proof. unfold link_named_or_like. sd. Qed.

Lemma sd_tc_mapping m t :
  preserves single_dest_st (TextureConnect.connect_mapping_to_texture m t).
Proof. unfold TextureConnect.connect_mapping_to_texture. sd. Qed.

Lemma sd_tc_setup_combined m t ty :
  preserves single_dest_st (TextureConnect.setup_combined_texture host m t ty).
Proof.
  unfold TextureConnect.setup_combined_texture.
  preserve_with ltac:(first [sd_prim | apply sd_link_named_or_like]).
Qed.

Lemma sd_tc_activate t :
  preserves single_dest_st (TextureConnect.activate_normal_map t).
Proof. unfold TextureConnect.activate_normal_map. sd. Qed.

Lemma sd_tc_setup_emission m t :
  preserves single_dest_st (TextureConnect.setup_emission host m t).
Proof. unfold TextureConnect.setup_emission. sd. Qed.

Lemma sd_tc_setup_bump m t :
  preserves single_dest_st (TextureConnect.setup_bump host m t).
Proof. unfold TextureConnect.setup_bump. sd. Qed.

Lemma sd_tc_setup_displacement m t mo :
  preserves single_dest_st (TextureConnect.setup_displacement host m t mo).
Proof. unfold TextureConnect.setup_displacement. sd. Qed.

Lemma sd_tc_connect_color_directly m c :
  preserves single_dest_st (TextureConnect.connect_color_directly m c).
Proof. unfold TextureConnect.connect_color_directly. sd. Qed.

Lemma sd_tc_math_input_step mn c ch st inp :
  preserves single_dest_st (TextureConnect.math_input_step mn c ch st inp).
Proof. unfold TextureConnect.math_input_step. sd. Qed.

Lemma sd_tc_setup_ao_multiply m c ch :
  preserves single_dest_st (TextureConnect.setup_ao_multiply host m c ch).
Proof.
  unfold TextureConnect.setup_ao_multiply.
  preserve_with ltac:(first [ sd_prim | apply sd_tc_math_input_step
                            | apply sd_tc_connect_color_directly ]).
Qed.

Lemma sd_tc_process uv m mp mo v e :
  preserves single_dest_st (TextureConnect.process_texture host uv m mp mo v e).
Proof.
  unfold TextureConnect.process_texture.
  preserve_with ltac:(first [ sd_prim | apply sd_tc_mapping
                            | apply sd_tc_setup_combined
                            | apply sd_tc_activate
                            | apply sd_tc_setup_emission
                            | apply sd_tc_setup_bump
                            | apply sd_tc_setup_displacement ]).
Qed.

Lemma sd_tc_combine m v :
  preserves single_dest_st (TextureConnect.combine_color_ao host m v).
Proof.
  unfold TextureConnect.combine_color_ao.
  preserve_with ltac:(first [ sd_prim | apply sd_tc_setup_ao_multiply
                            | apply sd_tc_connect_color_directly ]).
Qed.

Lemma sd_tc_connect uv m texs mp mo :
  preserves single_dest_st
    (TextureConnect.connect_textures_to_material host uv m texs mp mo).
Proof.
  unfold TextureConnect.connect_textures_to_material.
  preserve_with ltac:(first [ apply sd_tc_process | apply sd_tc_combine ]).
Qed.

Lemma sd_te_mapping m t :
  preserves single_dest_st (TextureExtractor.connect_mapping_to_texture m t).
Proof. unfold TextureExtractor.connect_mapping_to_texture. sd. Qed.

Lemma sd_te_connect_mapping uv mp t :
  preserves single_dest_st (TextureExtractor.connect_mapping uv mp t).
Proof.
  unfold TextureExtractor.connect_mapping.
  preserve_with ltac:(first [ sd_prim | apply sd_te_mapping ]).
Qed.

Lemma sd_te_setup_combined uv m t ty mp :
  preserves single_dest_st
    (TextureExtractor.setup_combined_texture host uv m t ty mp).
Proof.
  unfold TextureExtractor.setup_combined_texture.
  preserve_with ltac:(first [ apply sd_te_connect_mapping
                            | apply sd_tc_setup_combined ]).
Qed.

Lemma sd_te_multiply m c ch :
  preserves single_dest_st (TextureExtractor.multiply_ao_with_color host m c ch).
Proof. unfold TextureExtractor.multiply_ao_with_color. sd. Qed.

Lemma sd_te_setup_displacement m t mo :
  preserves single_dest_st (TextureExtractor.setup_displacement host m t mo).
Proof. unfold TextureExtractor.setup_displacement. sd. Qed.

Lemma sd_te_combined_step uv m mp v e :
  preserves single_dest_st (TextureExtractor.combined_step host uv m mp v e).
Proof.
  unfold TextureExtractor.combined_step.
  preserve_with ltac:(first [ sd_prim | apply sd_te_setup_combined ]).
Qed.

Lemma sd_te_select uv sp mp a b :
  preserves single_dest_st (TextureExtractor.select_ao_channel uv sp mp a b).
Proof.
  unfold TextureExtractor.select_ao_channel.
  preserve_with ltac:(first [ sd_prim | apply sd_te_connect_mapping ]).
Qed.

Lemma sd_te_combine uv m sp mp ch n :
  preserves single_dest_st
    (TextureExtractor.combine_color_ao host uv m sp mp ch n).
Proof.
  unfold TextureExtractor.combine_color_ao.
  preserve_with ltac:(first [ sd_prim | apply sd_te_connect_mapping
                            | apply sd_te_multiply
                            | apply sd_tc_connect_color_directly ]).
Qed.

Lemma sd_te_process_other uv m mp mo n e :
  preserves single_dest_st (TextureExtractor.process_other host uv m mp mo n e).
Proof.
  unfold TextureExtractor.process_other.
  preserve_with ltac:(first [ sd_prim | apply sd_te_connect_mapping
                            | apply sd_tc_setup_emission
                            | apply sd_tc_setup_bump
                            | apply sd_te_setup_displacement ]).
Qed.

Lemma sd_te_connect uv m texs mp mo :
  preserves single_dest_st
    (TextureExtractor.connect_textures_to_material host uv m texs mp mo).
Proof.
  unfold TextureExtractor.connect_textures_to_material.
  preserve_with ltac:(first [ apply sd_te_combined_step | apply sd_te_select
                            | apply sd_te_combine
                            | apply sd_te_process_other ]).
Qed.

Lemma sd_run_op op : preserves single_dest_st (Synthesis.run_op host op).
Proof.
  destruct op; simpl;
    preserve_with ltac:(first [ sd_prim | apply sd_tc_setup_combined
                              | apply sd_tc_setup_ao_multiply
                              | apply sd_tc_connect | apply sd_te_multiply
                              | apply sd_te_connect ]).
Qed.

Lemma sd_run_ops ops : preserves single_dest_st (Synthesis.run_ops host ops).
Proof.
  induction ops as [|op ops IH]; simpl.
  - apply preserves_ret.
  - apply preserves_bind; [apply sd_run_op | intros; exact IH].
Qed.

End SingleDestinationOperators.

(** C4 (single destination). Every link made by the operators goes through
    the host's [links.new], which replaces the edge at the destination; the
    extractor's [multiply_ao_with_color] removes the Base Color edge itself
    before linking. So after any sequence of synthesis operations on a tree
    in which every destination port carries at most one incoming edge, every
    destination port still carries at most one. *)
Theorem C4_single_destination (host : Host) (ops : list Synthesis.SynthOp)
    (s : St) :
  single_dest (graph s) ->
  single_dest (graph (snd (Synthesis.run_ops host ops s))).
Proof. intro H. exact (sd_run_ops host ops s H). Qed.

Lemma C4_single_destination_witness :
  let s := Example.tree_of [Example.t_color; Example.t_metallic] in
  let ops :=
    [ Synthesis.LinksNew (mkSocket 1 0) Example.base_color_socket;
      Synthesis.LinksNew (mkSocket 2 0) Example.base_color_socket;
      Synthesis.ExtractorMultiplyAo Example.disney (Some Example.t_color)
                                    (mkSocket 2 0);
      Synthesis.ConnectTextures true Example.disney
        [Example.t_color; Example.t_metallic] None None ] in
  single_dest (graph s)
  /\ single_dest (graph (snd (Synthesis.run_ops Example.luxcore_host ops s))).
Proof.
  assert (H : single_dest
                (graph (Example.tree_of [Example.t_color; Example.t_metallic]))).
  { intro d. simpl. lia. }
  split; [exact H|].
  apply (C4_single_destination Example.luxcore_host _ _ H).
Defined.

(** ** Value transfer *)
Section ValueTransferFacts.
Variable F : Type.
Variables (f_zero f_one f_threshold : F).
Variable f_sub : F -> F -> F.
Variable f_gtb : F -> F -> bool.
Variable host : Host.

Local Abbreviation apply_step := (TextureExtractor.apply_step F f_one).
Local Abbreviation VState := (TextureExtractor.VState F).

Lemma apply_step_graph (disney_node : Node) (vs : VState)
    (item : string * TextureExtractor.ValueInfo F) :
  graph (TextureExtractor.tree F (apply_step disney_node vs item))
  = graph (TextureExtractor.tree F vs).
Proof.
  destruct item as [d info]. unfold TextureExtractor.apply_step.
  destruct (mem d _); [reflexivity|].
  destruct (TextureExtractor.target_socket _ _) as [t|]; [|reflexivity].
  destruct (TextureExtractor.is_linked _ _); [reflexivity|].
  destruct (TextureExtractor.value info) as [x|xs],
           (TextureExtractor.is_color info); try reflexivity.
  - destruct (TextureExtractor.defaults F vs t) as [[o|os]|]; reflexivity.
  - destruct (TextureExtractor.defaults F vs t) as [old|]; [|reflexivity].
    destruct (TextureExtractor.color_write _ _ _ _); reflexivity.
Qed.

Lemma apply_steps_graph (disney_node : Node)
    (items : list (string * TextureExtractor.ValueInfo F)) (vs : VState) :
  graph (TextureExtractor.tree F (fold_left (apply_step disney_node) items vs))
  = graph (TextureExtractor.tree F vs).
Proof.
  revert vs; induction items as [|it items IH]; intros vs; simpl.
  - reflexivity.
  - rewrite IH. apply apply_step_graph.
Qed.

End ValueTransferFacts.



Section EmissionGate.
Variable F : Type.
Variables (f_zero f_one f_threshold : F).
Variable f_gtb : F -> F -> bool.

Lemma has_valid_emission_iff (values : TextureExtractor.Values F) :
  TextureExtractor.has_valid_emission F f_zero f_threshold f_gtb values = true
  <-> exists ec rgb,
        TextureExtractor.dict_get "Emission Color" values = Some ec
        /\ TextureExtractor.value ec = TextureExtractor.VVec rgb
        /\ (exists c, In c rgb /\ f_gtb c f_threshold = true)
        /\ (forall es,
               TextureExtractor.dict_get "Emission Strength" values = Some es ->
               exists s, TextureExtractor.value es = TextureExtractor.VScalar s
                         /\ f_gtb s f_zero = true).
Proof.
  unfold TextureExtractor.has_valid_emission. split.
  - destruct (TextureExtractor.dict_get "Emission Color" values) as [ec|];
      [|discriminate].
    destruct (TextureExtractor.value ec) as [x|rgb] eqn:Ev; [discriminate|].
    intros H. apply andb_prop in H as [Hc Hs].
    exists ec, rgb. repeat split; auto.
    + apply existsb_exists in Hc. exact Hc.
    + intros es Hes. rewrite Hes in Hs.
      destruct (TextureExtractor.value es) as [s|] eqn:Es; [|discriminate].
      exists s; auto.
  - intros (ec & rgb & -> & -> & Hc & Hs).
    apply andb_true_intro. split.
    + apply existsb_exists. exact Hc.
    + destruct (TextureExtractor.dict_get "Emission Strength" values)
        as [es|]; [|reflexivity].
      destruct (Hs es eq_refl) as (s & -> & Hg). exact Hg.
Qed.

End EmissionGate.

(** C9 (emission gate). The emission is valid exactly when an emission color
    was extracted, one of its channels exceeds the threshold, and the
    emission strength, when one was extracted, exceeds zero. Value transfer
    leaves the nodes and edges of the tree as they are when the emission is
    not valid; when it is valid, and the host makes an emission node with an
    output and the Disney node has an emission input, exactly that node is
    created and its output linked to that input. *)
Theorem C9_emission_gate (F : Type) (f_zero f_one f_threshold : F)
    (f_gtb : F -> F -> bool) (host : Host)
    (values : TextureExtractor.Values F) (vs : TextureExtractor.VState F) :
  let valid :=
    TextureExtractor.has_valid_emission F f_zero f_threshold f_gtb values in
  let vs' :=
    TextureExtractor.apply_principled_values_to_disney
      F f_zero f_one f_threshold f_gtb host values vs in
  let g := graph (TextureExtractor.tree F vs) in
  let g' := graph (TextureExtractor.tree F vs') in
  (valid = true
   <-> exists ec rgb,
         TextureExtractor.dict_get "Emission Color" values = Some ec
         /\ TextureExtractor.value ec = TextureExtractor.VVec rgb
         /\ (exists c, In c rgb /\ f_gtb c f_threshold = true)
         /\ (forall es,
                TextureExtractor.dict_get "Emission Strength" values = Some es ->
                exists s,
                  TextureExtractor.value es = TextureExtractor.VScalar s
                  /\ f_gtb s f_zero = true))
  /\ (valid = false -> g' = g)
  /\ (forall disney_node sch out outs e,
         valid = true ->
         find (fun n => mem (bl_idname n) TextureExtractor.disney_kinds)
              (nodes g) = Some disney_node ->
         host "LuxCoreNodeMatEmission" = Some sch ->
         sch_outputs sch = out :: outs ->
         orelse (input_named disney_node "Emission")
                (input_where disney_node
                   (fun nm => PyStr.contains "emission" (PyStr.lower nm)))
         = Some e ->
         nodes g'
         = nodes g ++ [mkNode (next_id g) "LuxCoreNodeMatEmission"
                              (sch_name sch) None (sch_inputs sch)
                              (sch_outputs sch) (sch_attrs sch)]
         /\ links g'
            = filter (fun l => negb (Socket_eqb (to_socket l) e)) (links g)
              ++ [mkLink (mkSocket (next_id g) 0) e]).
Proof.
  intros valid vs' g g'. split; [apply has_valid_emission_iff|]. split.
  - intros Hv. subst g' vs' g.
    unfold TextureExtractor.apply_principled_values_to_disney.
    destruct (find _ _) as [d|]; [|reflexivity].
    rewrite apply_steps_graph.
    destruct (TextureExtractor.dict_get "Emission Color" values);
      [|reflexivity].
    fold valid. rewrite Hv. reflexivity.
  - intros d sch out outs e Hv Hd Hh Ho He. subst g' vs'.
    unfold TextureExtractor.apply_principled_values_to_disney.
    fold g. rewrite Hd, apply_steps_graph.
    pose proof (proj1 (has_valid_emission_iff F f_zero f_threshold f_gtb values)
                  Hv) as (ec & rgb & Hec & Hrgb & _).
    rewrite Hec. fold valid. rewrite Hv, Hrgb.
    unfold TextureExtractor.create_emission_from_values, nodes_new.
    rewrite Hh. fold g.
    set (en := mkNode (next_id g) "LuxCoreNodeMatEmission" (sch_name sch) None
                      (sch_inputs sch) (sch_outputs sch) (sch_attrs sch)).
    assert (Hout : output_at en 0 = Some (mkSocket (next_id g) 0)).
    { unfold output_at, en; simpl. rewrite Ho. reflexivity. }
    rewrite Hout, He.
    destruct (input_named en "Color"); simpl; split; reflexivity.
Qed.

Lemma C9_emission_gate_witness :
  let F := QArith_base.Q in
  let q := fun n d => QArith_base.Qmake n d in
  let gtb := fun a b : F => negb (QArith_base.Qle_bool a b) in
  let values : TextureExtractor.Values F :=
    [ ("Emission Color",
       TextureExtractor.mkValueInfo
         (TextureExtractor.VVec [q 1%Z 1%positive; q 0%Z 1%positive;
                                 q 0%Z 1%positive]) true false);
      ("Emission Strength",
       TextureExtractor.mkValueInfo
         (TextureExtractor.VScalar (q 2%Z 1%positive)) false false) ] in
  let vs := TextureExtractor.mkVState F (Example.tree_of [])
              (fun _ => None) 0 in
  let vs' :=
    TextureExtractor.apply_principled_values_to_disney
      F (q 0%Z 1%positive) (q 1%Z 1%positive) (q 1%Z 1000%positive) gtb
      Example.luxcore_host values vs in
  TextureExtractor.has_valid_emission F (q 0%Z 1%positive)
    (q 1%Z 1000%positive) gtb values = true
  /\ Example.luxcore_host "LuxCoreNodeMatEmission"
     = Some (mkSchema "Emission" ["Color"] ["Emission"] [])
  /\ nodes (graph (TextureExtractor.tree F vs'))
     = [ Example.disney;
         mkNode 1 "LuxCoreNodeMatEmission" "Emission" None ["Color"]
                ["Emission"] [] ]
  /\ links (graph (TextureExtractor.tree F vs'))
     = [ mkLink (mkSocket 1 0) (mkSocket 0 13) ].
Proof.
  intros F q gtb values vs vs'.
  assert (Hv : TextureExtractor.has_valid_emission F (q 0%Z 1%positive)
                 (q 1%Z 1000%positive) gtb values = true) by reflexivity.
  assert (Hh : Example.luxcore_host "LuxCoreNodeMatEmission"
               = Some (mkSchema "Emission" ["Color"] ["Emission"] []))
    by reflexivity.
  split; [exact Hv|]. split; [exact Hh|].
  pose proof (C9_emission_gate F (q 0%Z 1%positive) (q 1%Z 1%positive)
                (q 1%Z 1000%positive) gtb Example.luxcore_host values vs) as H.
  cbv zeta in H. destruct H as (_ & _ & H).
  exact (H Example.disney (mkSchema "Emission" ["Color"] ["Emission"] [])
           "Emission" [] (mkSocket 0 13) Hv eq_refl Hh eq_refl eq_refl).
Defined.

(** ** The AO combine *)
Section LinkFacts.

Lemma in_links_new_same (src dst : Socket) (g : Graph) :
  In (mkLink src dst) (links (links_new_graph src dst g)).
Proof. simpl. apply in_or_app. right. now left. Qed.

Lemma in_links_new_other (src dst : Socket) (g : Graph) (l : Link) :
  In l (links g) -> to_socket l <> dst ->
  In l (links (links_new_graph src dst g)).
Proof.
  intros Hin Hne. simpl. apply in_or_app. left.
  apply filter_In. split; [exact Hin|].
  apply negb_true_iff. destruct (Socket_eqb (to_socket l) dst) eqn:E; auto.
  apply Socket_eqb_eq in E. contradiction.
Qed.

Lemma in_links_new_inv (src dst : Socket) (g : Graph) (l : Link) :
  In l (links (links_new_graph src dst g)) ->
  l = mkLink src dst \/ (In l (links g) /\ to_socket l <> dst).
Proof.
  simpl. intros H. apply in_app_or in H as [H|[H|[]]].
  - right. apply filter_In in H as [Hin Hb]. split; [exact Hin|].
    intros E. apply negb_true_iff in Hb.
    rewrite (proj2 (Socket_eqb_eq _ _) E) in Hb. discriminate.
  - left. now symmetry.
Qed.

Lemma in_remove_link (l x : Link) (ls : list Link) :
  In x (remove_link l ls) -> In x ls.
Proof.
  induction ls as [|y ls IH]; simpl; [tauto|].
  destruct (Link_eqb y l); simpl; [tauto|].
  intros [H|H]; [now left | right; auto].
Qed.

Lemma Link_eqb_eq (a b : Link) : Link_eqb a b = true <-> a = b.
Proof.
  destruct a as [f t], b as [f' t']; unfold Link_eqb; simpl.
  rewrite andb_true_iff, !Socket_eqb_eq. split.
  - intros [-> ->]; reflexivity.
  - intros H; inversion H; auto.
Qed.

Lemma in_remove_link_other (l x : Link) (ls : list Link) :
  In x ls -> x <> l -> In x (remove_link l ls).
Proof.
  induction ls as [|y ls IH]; simpl; [tauto|].
  intros [->|H] Hne.
  - destruct (Link_eqb x l) eqn:E.
    + apply Link_eqb_eq in E. contradiction.
    + now left.
  - destruct (Link_eqb y l); [exact H|]. right. auto.
Qed.

Lemma first_creatable_cases (host : Host) (kinds : list string) (s : St) :
  ((forall k, In k kinds -> host k = None)
   /\ first_creatable host kinds s = (None, s))
  \/ exists k sch,
       In k kinds /\ host k = Some sch
       /\ first_creatable host kinds s
          = (Some (made k sch (graph s)), with_node (made k sch (graph s)) s).
Proof.
  induction kinds as [|k kinds IH]; simpl.
  - left. split; [tauto | reflexivity].
  - unfold bind, nodes_new. destruct (host k) as [sch|] eqn:Hk.
    + right. exists k, sch. repeat split; auto.
    + destruct IH as [[Hn Hf]|(k' & sch & Hin & Hh & Hf)].
      * left. split; [|exact Hf]. intros k' [<-|H]; auto.
      * right. exists k', sch. repeat split; auto.
Qed.

End LinkFacts.

Section ConnectCombine.
Variable host : Host.


Lemma enumerate_two (i0 i1 : string) (rest : list string) :
  TextureConnect.enumerate (i0 :: i1 :: rest)
  = (0, i0) :: (1, i1) :: combine (seq 2 (List.length rest)) rest.
Proof. reflexivity. Qed.


End ConnectCombine.

Section SocketOwners.

Lemma input_where_node n p x : input_where n p = Some x -> s_node x = nid n.
Proof.
  unfold input_where. destruct (find_index p (inputs n)); [|discriminate].
  intros H; inversion H; reflexivity.
Qed.

Lemma output_where_node n p x : output_where n p = Some x -> s_node x = nid n.
Proof.
  unfold output_where. destruct (find_index p (outputs n)); [|discriminate].
  intros H; inversion H; reflexivity.
Qed.

Lemma input_named_node n nm x : input_named n nm = Some x -> s_node x = nid n.
Proof.
  unfold input_named. destruct (find_index _ (inputs n)); [|discriminate].
  intros H; inversion H; reflexivity.
Qed.

Lemma output_named_node n nm x : output_named n nm = Some x -> s_node x = nid n.
Proof.
  unfold output_named. destruct (find_index _ (outputs n)); [|discriminate].
  intros H; inversion H; reflexivity.
Qed.

Lemma input_at_node n i x : input_at n i = Some x -> s_node x = nid n.
Proof.
  unfold input_at. destruct (i <? _); [|discriminate].
  intros H; inversion H; reflexivity.
Qed.

Lemma output_at_node n i x : output_at n i = Some x -> s_node x = nid n.
Proof.
  unfold output_at. destruct (i <? _); [|discriminate].
  intros H; inversion H; reflexivity.
Qed.

Lemma orelse_some {A : Type} (a b : option A) (x : A) :
  orelse a b = Some x -> a = Some x \/ b = Some x.
Proof. destruct a; simpl; auto. Qed.

Lemma output_at_first n o os :
  outputs n = o :: os -> output_at n 0 = Some (mkSocket (nid n) 0).
Proof. intros H. unfold output_at. rewrite H. reflexivity. Qed.


Lemma multiply_output_some n o os :
  outputs n = o :: os ->
  exists out, TextureExtractor.multiply_output n = Some out
              /\ s_node out = nid n.
Proof.
  intros H. unfold TextureExtractor.multiply_output.
  destruct (output_where n _) as [x|] eqn:E; simpl.
  - exists x. split; [reflexivity | eapply output_where_node; eauto].
  - rewrite (output_at_first n o os H). eexists; split; reflexivity.
Qed.

End SocketOwners.

Section Combined.
Variable host : Host.


Lemma two_links_in (src ch : Socket) (n : nat) (g : Graph) :
  let g2 := links_new_graph ch (mkSocket n 1)
              (links_new_graph src (mkSocket n 0) g) in
  In (mkLink src (mkSocket n 0)) (links g2)
  /\ In (mkLink ch (mkSocket n 1)) (links g2).
Proof.
  split.
  - apply in_links_new_other; [apply in_links_new_same|].
    simpl. intros E. inversion E.
  - apply in_links_new_same.
Qed.

Lemma combiner_made (kinds : list string) (s : St) :
  offers_combiner host kinds ->
  exists k sch i0 i1 rest o os,
    In k kinds /\ sch_inputs sch = i0 :: i1 :: rest
    /\ sch_outputs sch = o :: os
    /\ first_creatable host kinds s
       = (Some (made k sch (graph s)), with_node (made k sch (graph s)) s).
Proof.
  intros [(k0 & Hin0 & Hk0) Hshape].
  destruct (first_creatable_cases host kinds s)
    as [[Hn _]|(k & sch & Hin & Hh & Hf)].
  - elim Hk0. auto.
  - destruct (Hshape k sch Hin Hh) as [Hi Ho].
    destruct (sch_inputs sch) as [|i0 [|i1 rest]] eqn:Ei;
      try (simpl in Hi; lia).
    destruct (sch_outputs sch) as [|o os] eqn:Eo; try (simpl in Ho; lia).
    exists k, sch, i0, i1, rest, o, os. auto.
Qed.





End Combined.




(** ** A run without a color texture *)
Section Finders.

Lemma find_index_nth (p : string -> bool) (l : list string) (i : nat) :
  find_index p l = Some i -> exists x, nth_error l i = Some x /\ p x = true.
Proof.
  revert i; induction l as [|y l IH]; intros i H; simpl in H; [discriminate|].
  destruct (p y) eqn:Ey.
  - inversion H; subst. exists y. auto.
  - destruct (find_index p l) as [j|]; [|discriminate].
    inversion H; subst. destruct (IH j eq_refl) as (x & Hx & Hp).
    exists x. auto.
Qed.

Lemma finds_input_where n p : finds (input_where n p) n p.
Proof.
  intros dst H. unfold input_where in H.
  destruct (find_index p (inputs n)) as [i|] eqn:E; [|discriminate].
  inversion H; subst; simpl. split; [reflexivity|].
  now apply find_index_nth.
Qed.

Lemma finds_input_named n nm : finds (input_named n nm) n (String.eqb nm).
Proof. exact (finds_input_where n (String.eqb nm)). Qed.

Lemma finds_input_at n i : finds (input_at n i) n (fun _ => true).
Proof.
  intros dst H. unfold input_at in H.
  destruct (i <? List.length (inputs n)) eqn:E; [|discriminate].
  inversion H; subst; simpl. split; [reflexivity|].
  apply Nat.ltb_lt in E.
  destruct (nth_error (inputs n) i) as [x|] eqn:Ex.
  - exists x; auto.
  - apply nth_error_None in Ex. lia.
Qed.

Lemma finds_orelse a b n pa pb :
  finds a n pa -> finds b n pb -> finds (orelse a b) n (fun x => pa x || pb x).
Proof.
  intros Ha Hb dst H. apply orelse_some in H as [H|H].
  - destruct (Ha dst H) as (Hn & x & Hx & Hp). split; [exact Hn|].
    exists x. rewrite Hp. auto.
  - destruct (Hb dst H) as (Hn & x & Hx & Hp). split; [exact Hn|].
    exists x. rewrite Hp, orb_true_r. auto.
Qed.

Lemma finds_first_input_named n names :
  finds (TextureConnect.first_input_named n names) n (fun x => mem x names).
Proof.
  induction names as [|nm names IH]; intros dst H; simpl in H; [discriminate|].
  apply orelse_some in H as [H|H].
  - destruct (finds_input_named n nm dst H) as (Hn & x & Hx & Hp).
    split; [exact Hn|]. exists x. split; [exact Hx|].
    apply String.eqb_eq in Hp. subst. simpl. rewrite String.eqb_refl. auto.
  - destruct (IH dst H) as (Hn & x & Hx & Hp).
    split; [exact Hn|]. exists x. split; [exact Hx|].
    unfold mem in *. simpl in *. rewrite Hp. apply orb_true_r.
Qed.

(** a socket found on another node, or on the material node under a name
    that is not Base Color, is not the Base Color socket *)
Lemma finds_not_bc o n p (material_node : Node) (bc dst : Socket) :
  finds o n p ->
  input_named material_node "Base Color" = Some bc ->
  nid n <> nid material_node
  \/ (n = material_node /\ p "Base Color" = false) ->
  o = Some dst -> dst <> bc.
Proof.
  intros Hf Hbc Hside Ho ->.
  destruct (Hf bc Ho) as (Hn & x & Hx & Hp).
  destruct (finds_input_named material_node "Base Color" bc Hbc)
    as (Hm & y & Hy & Hq).
  destruct Hside as [Hne|[-> Hfalse]].
  - congruence.
  - rewrite Hx in Hy. inversion Hy; subst y.
    apply String.eqb_eq in Hq. subst x. congruence.
Qed.

End Finders.

Create HintDb finder.
#[export] Hint Extern 1 (finds (input_where _ _) _ _) =>
  apply finds_input_where : finder.
#[export] Hint Extern 1 (finds (input_named _ _) _ _) =>
  apply finds_input_named : finder.
#[export] Hint Extern 1 (finds (input_at _ _) _ _) =>
  apply finds_input_at : finder.
#[export] Hint Extern 1 (finds (orelse _ _) _ _) =>
  apply finds_orelse : finder.
#[export] Hint Extern 1 (finds (TextureConnect.first_input_named _ _) _ _) =>
  apply finds_first_input_named : finder.

Section Quiet.
Variable host : Host.
Variable g0 : Graph.
Variable material_node : Node.
Variable bc : Socket.
Hypothesis Hbc : input_named material_node "Base Color" = Some bc.

Local Abbreviation Q := (quiet g0 material_node bc).

Lemma quiet_print msg : preserves Q (print msg).
Proof. intros s H; exact H. Qed.

Lemma quiet_links_new src dst : dst <> bc -> preserves Q (links_new src dst).
Proof.
  intros Hne s (H1 & H2 & H3). split; [exact H1|]. split; [|exact H3].
  intros l Hl Hto. apply in_links_new_inv in Hl as [->|[Hl _]].
  - simpl in Hto. contradiction.
  - now apply H2.
Qed.

(** after [nodes.new] the invariant holds again, and the new node is not the
    material node *)
Lemma quiet_nodes_new {B : Type} (k : string) (f : option Node -> M B) :
  ~ In k combine_kinds ->
  (forall n, nid n <> nid material_node -> preserves Q (f (Some n))) ->
  preserves Q (f None) ->
  preserves Q (bind (nodes_new host k) f).
Proof.
  intros Hk Hsome Hnone s HQ. unfold bind, nodes_new.
  destruct (host k) as [sch|]; [|exact (Hnone s HQ)].
  destruct HQ as (H1 & H2 & H3).
  apply Hsome; [simpl; lia|].
  split; [simpl; lia|]. split; [exact H2|].
  intros n Hn Hkind. simpl in Hn. apply in_app_or in Hn as [Hn|[<-|[]]].
  - now apply H3.
  - simpl in Hkind. contradiction.
Qed.

Lemma quiet_first_creatable {B : Type} (kinds : list string)
    (f : option Node -> M B) :
  (forall k, In k kinds -> ~ In k combine_kinds) ->
  (forall n, nid n <> nid material_node -> preserves Q (f (Some n))) ->
  preserves Q (f None) ->
  preserves Q (bind (first_creatable host kinds) f).
Proof.
  intros Hk Hsome Hnone. induction kinds as [|k kinds IH].
  - exact Hnone.
  - intros s HQ. simpl. unfold bind at 1 2.
    pose proof (quiet_nodes_new k
                  (fun r => match r with
                            | Some n => f (Some n)
                            | None => bind (first_creatable host kinds) f
                            end)) as Hstep.
    assert (Hk' : ~ In k combine_kinds) by (apply Hk; now left).
    assert (IH' : preserves Q (bind (first_creatable host kinds) f)).
    { apply IH. intros k' Hin. apply Hk. now right. }
    specialize (Hstep Hk' Hsome IH' s HQ).
    unfold bind at 1 in Hstep.
    destruct (nodes_new host k s) as [[n|] s1]; simpl in *; exact Hstep.
Qed.

End Quiet.

Lemma preserves_for_each_in (I : St -> Prop) {A V : Type} (xs : list A)
    (body : V -> A -> M V) :
  (forall v x, In x xs -> preserves I (body v x)) ->
  forall v, preserves I (for_each xs body v).
Proof.
  induction xs as [|x xs IH]; intros Hb v; simpl.
  - apply preserves_ret.
  - apply preserves_bind.
    + apply Hb. now left.
    + intros v'. apply IH. intros v0 y Hy. apply Hb. now right.
Qed.

Ltac not_combine_kind :=
  let H := fresh in
  intros H; simpl in H;
  repeat (destruct H as [H|H]; [discriminate|]); exact H.

Ltac not_combine_kinds :=
  let k := fresh in
  let H := fresh in
  intros k H; simpl in H;
  repeat (destruct H as [<-|H]; [not_combine_kind|]); destruct H.

Ltac not_bc_side :=
  first [ left; first [assumption | congruence]
        | right; split; [reflexivity | vm_compute; reflexivity] ].

Ltac quiet_link Hbc :=
  match goal with
  | E : ?o = Some ?dst |- preserves _ (links_new _ ?dst) =>
      apply quiet_links_new;
      eapply (finds_not_bc o _ _ _ _ dst);
      [ solve [eauto 8 with finder] | exact Hbc | not_bc_side | exact E ]
  end.

Ltac quiet_with host Hbc tac :=
  repeat first
    [ tac
    | apply preserves_ret
    | apply quiet_print
    | quiet_link Hbc
    | match goal with
      | |- preserves _ (bind (nodes_new _ _) _) =>
          apply (quiet_nodes_new host);
          [ not_combine_kind | intros ? ?; cbv beta iota | cbv beta iota ]
      | |- preserves _ (bind (first_creatable _ _) _) =>
          apply (quiet_first_creatable host);
          [ not_combine_kinds | intros ? ?; cbv beta iota | cbv beta iota ]
      | |- preserves _ (bind _ _) => apply preserves_bind; [|intros]
      | |- preserves _ (let _ := _ in _) => cbv zeta
      | |- preserves _ (match ?x with _ => _ end) => destruct x eqn:?
      | |- preserves _ (if ?x then _ else _) => destruct x eqn:?
      end ].

Section QuietConnect.
Variable host : Host.
Variable g0 : Graph.
Variable material_node : Node.
Variable bc : Socket.
Hypothesis Hbc : input_named material_node "Base Color" = Some bc.

Local Abbreviation Q := (quiet g0 material_node bc).

Lemma quiet_tc_mapping m t :
  nid t <> nid material_node ->
  preserves Q (TextureConnect.connect_mapping_to_texture m t).
Proof.
  intros Ht. unfold TextureConnect.connect_mapping_to_texture.
  quiet_with host Hbc fail.
Qed.

Lemma quiet_tc_activate t :
  preserves Q (TextureConnect.activate_normal_map t).
Proof.
  unfold TextureConnect.activate_normal_map. quiet_with host Hbc fail.
Qed.

Lemma quiet_link_named_or_like src nm frag :
  String.eqb nm "Base Color"
  || PyStr.contains frag (PyStr.lower "Base Color") = false ->
  preserves Q (link_named_or_like src material_node nm frag).
Proof.
  intros Hp. unfold link_named_or_like.
  destruct (orelse _ _) as [dst|] eqn:E; [|apply preserves_ret].
  apply quiet_links_new.
  match type of E with
  | ?o = _ =>
      eapply (finds_not_bc o _ _ _ _ dst);
      [ solve [eauto with finder] | exact Hbc | | exact E ]
  end.
  right. split; [reflexivity | exact Hp].
Qed.

Lemma quiet_tc_setup_combined t ty :
  preserves Q (TextureConnect.setup_combined_texture host material_node t ty).
Proof.
  unfold TextureConnect.setup_combined_texture.
  quiet_with host Hbc
    ltac:(apply quiet_link_named_or_like; vm_compute; reflexivity).
Qed.

Lemma quiet_tc_setup_emission t :
  preserves Q (TextureConnect.setup_emission host material_node t).
Proof.
  unfold TextureConnect.setup_emission. quiet_with host Hbc fail.
Qed.

Lemma quiet_tc_setup_bump t :
  preserves Q (TextureConnect.setup_bump host material_node t).
Proof.
  unfold TextureConnect.setup_bump, bump_socket. quiet_with host Hbc fail.
Qed.

Lemma quiet_tc_setup_displacement t mo :
  (forall m, mo = Some m -> nid m <> nid material_node) ->
  preserves Q (TextureConnect.setup_displacement host material_node t mo).
Proof.
  intros Hmo. unfold TextureConnect.setup_displacement.
  destruct mo as [m|]; [|apply preserves_ret].
  specialize (Hmo m eq_refl).
  quiet_with host Hbc fail.
Qed.

End QuietConnect.

Section Returns.

Lemma returns_ret {A : Type} (P : A -> Prop) (a : A) : P a -> returns P (ret a).
Proof. intros H s; exact H. Qed.

Lemma returns_bind {A B : Type} (P : B -> Prop) (m : M A) (f : A -> M B) :
  (forall a, returns P (f a)) -> returns P (bind m f).
Proof.
  intros Hf s. unfold bind. destruct (m s) as [a s']. apply Hf.
Qed.

End Returns.

Ltac returns_with tac :=
  repeat first
    [ tac
    | match goal with
      | |- returns _ (ret _) => apply returns_ret
      | |- returns _ (bind _ _) => apply returns_bind; intros
      | |- returns _ (let _ := _ in _) => cbv zeta
      | |- returns _ (match ?x with _ => _ end) => destruct x eqn:?
      | |- returns _ (if ?x then _ else _) => destruct x eqn:?
      end ].

Section SortFacts.
Context {A : Type} (key : A -> Z).

Lemma in_insert_desc (x y : A) (l : list A) :
  In y (insert_desc key x l) <-> y = x \/ In y l.
Proof.
  induction l as [|z l IH]; simpl.
  - split; intros H; [destruct H as [H|[]] | destruct H as [H|[]]]; auto.
  - destruct (key z <=? key x)%Z; simpl.
    + split; intros H; [destruct H as [H|H] | destruct H as [H|H]]; auto.
    + rewrite IH. split; intros H; tauto.
Qed.

Lemma in_sort_desc (y : A) (l : list A) : In y (sort_desc key l) <-> In y l.
Proof.
  induction l as [|x l IH]; simpl; [tauto|].
  rewrite in_insert_desc, IH. split; intros [H|H]; auto.
Qed.

End SortFacts.

Section ConnectFirstPass.

Lemma tc_match_step_in text (l : list (TexType * TexInfo)) acc e :
  fst (fold_left (TextureConnect.match_step text) l acc) = Some e ->
  fst acc = Some e \/ In e l.
Proof.
  revert acc; induction l as [|x l IH]; intros acc H; simpl in H.
  - now left.
  - apply IH in H as [H|H]; [|right; now right].
    unfold TextureConnect.match_step in H.
    destruct (first_keyword _ _ _); [|now left].
    destruct (priority (snd x) >? snd acc)%Z; [|now left].
    simpl in H. inversion H. right. now left.
Qed.

Lemma tc_best_match_in nm img e :
  TextureConnect.best_match nm img = Some e ->
  In e TextureConnect.texture_mapping.
Proof.
  intros H. apply tc_match_step_in in H as [H|H]; [discriminate | exact H].
Qed.

Lemma tc_socket_not_base_color ty info :
  In (ty, info) TextureConnect.texture_mapping -> ty <> color ->
  socket info <> Some "Base Color".
Proof.
  intros H Hty. simpl in H.
  repeat (destruct H as [H|H];
          [inversion H; subst; simpl; first [discriminate | congruence]|]).
  destruct H.
Qed.

Lemma tc_info_list_in (texs : list Node) t ty info :
  In (t, (ty, info)) (TextureConnect.texture_info_list texs) ->
  In t texs
  /\ TextureConnect.tex_type_of (name t) (image t) = Some ty
  /\ In (ty, info) TextureConnect.texture_mapping.
Proof.
  unfold TextureConnect.texture_info_list, TextureConnect.first_pass.
  rewrite in_sort_desc, in_flat_map. intros (n & Hn & H).
  destruct (TextureConnect.best_match (name n) (image n)) as [e|] eqn:E;
    [|destruct H].
  destruct H as [H|[]]. inversion H; subst.
  split; [exact Hn|]. unfold TextureConnect.tex_type_of. rewrite E.
  split; [reflexivity|]. now apply tc_best_match_in in E.
Qed.

End ConnectFirstPass.

Section QuietRun.
Variable host : Host.
Variable g0 : Graph.
Variable material_node : Node.
Variable bc : Socket.
Hypothesis Hbc : input_named material_node "Base Color" = Some bc.

Local Abbreviation Q := (quiet g0 material_node bc).

Lemma quiet_tc_process uv mp mo v t ty info :
  nid t <> nid material_node ->
  (forall m, mo = Some m -> nid m <> nid material_node) ->
  socket info <> Some "Base Color" ->
  preserves Q (TextureConnect.process_texture host uv material_node mp mo v
                 (t, (ty, info))).
Proof.
  intros Ht Hmo Hsock.
  unfold TextureConnect.process_texture, bump_socket.
  quiet_with host Hbc
    ltac:(first [ apply (quiet_tc_mapping g0 material_node bc); assumption
                | apply (quiet_tc_setup_combined host g0 material_node bc Hbc)
                | apply (quiet_tc_activate g0 material_node bc)
                | apply (quiet_tc_setup_emission host g0 material_node bc Hbc)
                | apply (quiet_tc_setup_bump host g0 material_node bc Hbc)
                | apply (quiet_tc_setup_displacement host g0 material_node bc
                           Hbc); assumption ]).
  all: apply quiet_links_new;
    match goal with
    | E : input_named material_node ?sock = Some ?dst |- ?dst <> bc =>
        eapply (finds_not_bc _ _ _ _ _ dst);
        [ apply finds_input_named | exact Hbc | | exact E ];
        right; split; [reflexivity|];
        destruct (String.eqb sock "Base Color") eqn:Es; [|reflexivity];
        apply String.eqb_eq in Es; subst; contradiction
    end.
Qed.

End QuietRun.

Section ColorKept.
Variable host : Host.

Lemma returns_for_each {A V : Type} (P : V -> Prop) (xs : list A)
    (body : V -> A -> M V) :
  (forall v x, In x xs -> P v -> returns P (body v x)) ->
  forall v, P v -> returns P (for_each xs body v).
Proof.
  induction xs as [|x xs IH]; intros Hb v Hv; simpl.
  - now apply returns_ret.
  - intros s. unfold bind.
    pose proof (Hb v x (or_introl eq_refl) Hv s) as Hx.
    destruct (body v x s) as [v' s']. simpl in Hx.
    apply IH; [|exact Hx]. intros v0 y Hy. apply Hb. now right.
Qed.

Lemma tc_process_color_kept uv material_node mp mo v t ty info :
  ty <> color ->
  TextureConnect.color_node v = None ->
  returns (fun v' => TextureConnect.color_node v' = None)
          (TextureConnect.process_texture host uv material_node mp mo v
             (t, (ty, info))).
Proof.
  intros Hty Hv. unfold TextureConnect.process_texture.
  returns_with fail;
    try contradiction;
    unfold TextureConnect.incr_if;
    repeat match goal with
           | |- context [if ?b then _ else _] => destruct b
           end;
    simpl; try exact Hv; try reflexivity.
Qed.

End ColorKept.

Section QuietWhole.
Variable host : Host.

Lemma quiet_initially (material_node : Node) (bc : Socket) (s : St) :
  nid material_node < next_id (graph s) ->
  quiet (graph s) material_node bc s.
Proof. intros H. split; [exact H|]. split; auto. Qed.

Lemma tc_no_color_quiet (uv : bool) (material_node : Node)
    (texs : list Node) (mp mo : option Node) (bc : Socket) (s : St) :
  input_named material_node "Base Color" = Some bc ->
  nid material_node < next_id (graph s) ->
  (forall t, In t texs -> nid t <> nid material_node) ->
  (forall m, mo = Some m -> nid m <> nid material_node) ->
  (forall t, In t texs ->
             TextureConnect.tex_type_of (name t) (image t) <> Some color) ->
  quiet (graph s) material_node bc
    (snd (TextureConnect.connect_textures_to_material host uv material_node
            texs mp mo s)).
Proof.
  intros Hbc Hfresh Htex Hmo Hcol.
  unfold TextureConnect.connect_textures_to_material, bind.
  pose proof (preserves_for_each_in (quiet (graph s) material_node bc)
                (TextureConnect.texture_info_list texs)
                (TextureConnect.process_texture host uv material_node mp mo))
    as Hloop.
  pose proof (returns_for_each
                (fun v => TextureConnect.color_node v = None)
                (TextureConnect.texture_info_list texs)
                (TextureConnect.process_texture host uv material_node mp mo))
    as Hvars.
  assert (Hq : quiet (graph s) material_node bc
                 (snd (for_each (TextureConnect.texture_info_list texs)
                         (TextureConnect.process_texture host uv material_node
                            mp mo) TextureConnect.init_vars s))).
  { apply Hloop; [|now apply quiet_initially].
    intros v [t [ty info]] Hin.
    apply tc_info_list_in in Hin as (Ht & Hty & Htab).
    apply quiet_tc_process; auto.
    apply (tc_socket_not_base_color ty); [exact Htab|].
    intros ->. exact (Hcol t Ht Hty). }
  assert (Hc : TextureConnect.color_node
                 (fst (for_each (TextureConnect.texture_info_list texs)
                         (TextureConnect.process_texture host uv material_node
                            mp mo) TextureConnect.init_vars s)) = None).
  { apply Hvars; [|reflexivity].
    intros v [t [ty info]] Hin Hv.
    apply tc_info_list_in in Hin as (Ht & Hty & Htab).
    apply tc_process_color_kept; [|exact Hv].
    intros ->. exact (Hcol t Ht Hty). }
  destruct (for_each _ _ _ s) as [v' s']. simpl in Hq, Hc.
  unfold TextureConnect.combine_color_ao. rewrite Hc. exact Hq.
Qed.

End QuietWhole.

(** ** Occlusion without a color texture, in the extractor *)
Section ExtractorWhite.
Variable host : Host.

Lemma te_multiply_white_graph (material_node : Node) (ch : Socket)
    (s : St) (k : string) (sch wsch : Schema) (i0 i1 : string)
    (rest : list string) (o : string) (os : list string) (bc out : Socket) :
  first_creatable host TextureExtractor.multiply_node_types s
  = (Some (made k sch (graph s)), with_node (made k sch (graph s)) s) ->
  sch_inputs sch = i0 :: i1 :: rest ->
  TextureExtractor.multiply_output (made k sch (graph s)) = Some out ->
  host "LuxCoreNodeTexConstantFloat3" = Some wsch ->
  sch_outputs wsch = o :: os ->
  mem "value" (sch_attrs wsch) = true ->
  input_named material_node "Base Color" = Some bc ->
  let s1 := with_node (made k sch (graph s)) s in
  let white := made "LuxCoreNodeTexConstantFloat3" wsch (graph s1) in
  let g2 := links_new_graph ch (mkSocket (next_id (graph s)) 1)
              (links_new_graph (mkSocket (nid white) 0)
                 (mkSocket (next_id (graph s)) 0)
                 (graph (with_node white s1))) in
  TextureExtractor.multiply_ao_with_color host material_node None ch s
  = (true,
     mkSt (links_new_graph out bc
             (match TextureExtractor.link_into bc (links g2) with
              | Some l => links_remove_graph l g2
              | None => g2
              end))
          (log s)).
Proof.
  intros Hfc Hin Hout Hw Hwo Hattr Hbc s1 white g2.
  unfold TextureExtractor.multiply_ao_with_color, bind. rewrite Hfc.
  unfold nodes_new. rewrite Hw.
  unfold hasattr. cbn [attrs]. rewrite Hattr.
  rewrite (output_at_first _ o os) by exact Hwo.
  unfold input_at.
  change (inputs (made k sch (graph s))) with (sch_inputs sch).
  rewrite Hin. cbn [List.length Nat.ltb Nat.leb].
  rewrite Hbc, Hout. unfold bind, links_new, get_links. cbn [graph log].
  change (nid (made k sch (graph s))) with (next_id (graph s)).
  subst g2 white s1.
  cbv beta iota delta [links_new_graph links_remove_graph with_node made graph
                       links nodes next_id nid log].
  match goal with
  | |- context [TextureExtractor.link_into ?b ?l] =>
      destruct (TextureExtractor.link_into b l)
  end; reflexivity.
Qed.

Lemma te_combine_white (uv : bool) (material_node : Node) (ch bc : Socket)
    (sp : TextureExtractor.Special) (mp : option Node) (count : nat)
    (wsch : Schema) (o : string) (os : list string) (s : St) :
  offers_combiner host TextureExtractor.multiply_node_types ->
  host "LuxCoreNodeTexConstantFloat3" = Some wsch ->
  sch_outputs wsch = o :: os ->
  mem "value" (sch_attrs wsch) = true ->
  input_named material_node "Base Color" = Some bc ->
  nid material_node < next_id (graph s) ->
  TextureExtractor.color_texture_node sp = None ->
  TextureExtractor.fallback_color sp (nodes (graph s)) = None ->
  white_combined TextureExtractor.multiply_node_types (graph s)
    (graph (snd (TextureExtractor.combine_color_ao host uv material_node sp mp
                   (Some ch) count s)))
    ch bc.
Proof.
  intros Hoff Hw Hwo Hattr Hbc Hfresh Hc Hfb.
  unfold TextureExtractor.combine_color_ao. rewrite Hc.
  unfold bind, get_nodes. rewrite Hfb. cbn [ret].
  destruct (combiner_made host _ s Hoff)
    as (k & sch & i0 & i1 & rest & o' & os' & Hin & Hi & Ho & Hf).
  destruct (multiply_output_some (made k sch (graph s)) o' os' Ho)
    as (out & Hout & Hon).
  rewrite (te_multiply_white_graph material_node ch s k sch wsch i0 i1
             rest o os bc out Hf Hi Hout Hw Hwo Hattr Hbc).
  cbn [snd graph].
  apply input_named_node in Hbc.
  set (s1 := with_node (made k sch (graph s)) s).
  set (white := made "LuxCoreNodeTexConstantFloat3" wsch (graph s1)).
  destruct (two_links_in (mkSocket (nid white) 0) ch (next_id (graph s))
              (graph (with_node white s1))) as [H0 H1].
  set (g2 := links_new_graph ch (mkSocket (next_id (graph s)) 1) _) in *.
  assert (Hnodes : nodes g2 = nodes (graph s) ++ [made k sch (graph s); white]).
  { simpl. now rewrite <- app_assoc. }
  exists (made k sch (graph s)), white, out.
  assert (Hne : forall i, mkSocket (next_id (graph s)) i <> bc).
  { intros i E. rewrite <- E in Hbc. simpl in Hbc. lia. }
  assert (Hin2 : forall x i,
             In x (links g2) ->
             to_socket x = mkSocket (next_id (graph s)) i ->
             In x (links
                     (match TextureExtractor.link_into bc (links g2) with
                      | Some l => links_remove_graph l g2
                      | None => g2
                      end))).
  { intros x i Hx Hto.
    destruct (TextureExtractor.link_into bc (links g2)) as [l|] eqn:El;
      [|exact Hx].
    apply find_some in El as [_ Hl]. apply Socket_eqb_eq in Hl.
    simpl. apply in_remove_link_other; [exact Hx|].
    intros ->. rewrite Hl in Hto. exact (Hne i (eq_sym Hto)). }
  assert (Hn2 : nodes (match TextureExtractor.link_into bc (links g2) with
                       | Some l => links_remove_graph l g2
                       | None => g2
                       end) = nodes g2).
  { destruct (TextureExtractor.link_into bc (links g2)); reflexivity. }
  split; [rewrite <- Hnodes, <- Hn2; reflexivity|].
  split; [exact Hin|]. split; [reflexivity|]. split; [exact Hon|].
  split; [|split].
  - apply in_links_new_other; [|apply Hne].
    apply (Hin2 _ 0); [exact H0 | reflexivity].
  - apply in_links_new_other; [|apply Hne].
    apply (Hin2 _ 1); [exact H1 | reflexivity].
  - apply in_links_new_same.
Qed.

End ExtractorWhite.

(** C6, the claim as stated fails: the extractor, run on a single occlusion
    texture and no color texture, creates a constant-white node, feeds it to
    input 0 of the combiner, and connects the combiner to Base Color. *)
Lemma C6_extractor_substitutes_white :
  let texs := [Example.t_ao] in
  let r := TextureExtractor.connect_textures_to_material
             Example.luxcore_host true Example.disney texs None None
             (Example.tree_of texs) in
  TextureExtractor.color_texture_node (TextureExtractor.specials texs) = None
  /\ TextureExtractor.ao_texture_node (TextureExtractor.specials texs)
     = Some Example.t_ao
  /\ map bl_idname (nodes (graph (snd r)))
     = ["LuxCoreNodeMatDisney"; "LuxCoreNodeTexImagemap"; "LuxCoreNodeTexMath";
        "LuxCoreNodeTexConstantFloat3"]
  /\ links (graph (snd r))
     = [ mkLink (mkSocket 3 0) (mkSocket 2 0);
         mkLink (mkSocket 1 0) (mkSocket 2 1);
         mkLink (mkSocket 2 0) Example.base_color_socket ]
  /\ TextureExtractor.is_linked Example.base_color_socket (graph (snd r))
     = true.
Proof. vm_compute. repeat split. Qed.

(** C6 (occlusion without a color texture), amended. In a run of the
    texture-connect operator in which no texture is classified as color,
    whether or not an occlusion channel exists, no edge into Base Color is
    added and no combiner or constant node is created: Base Color is left as
    it was. In the extractor, when neither a color texture nor the fallback
    search gives a color source and an occlusion channel [ch] exists, the
    combine step creates a combiner and a constant-white node, feeds the
    constant to input 0 and [ch] to input 1, and links the combiner to Base
    Color (on a host that offers both node kinds). *)
Theorem C6_no_color_texture (host : Host) (material_node : Node)
    (bc : Socket) (s : St) :
  input_named material_node "Base Color" = Some bc ->
  nid material_node < next_id (graph s) ->
  (forall (uv : bool) (texs : list Node) (mp mo : option Node),
      (forall t, In t texs -> nid t <> nid material_node) ->
      (forall m, mo = Some m -> nid m <> nid material_node) ->
      (forall t, In t texs ->
                 TextureConnect.tex_type_of (name t) (image t) <> Some color) ->
      let g' := graph (snd (TextureConnect.connect_textures_to_material
                              host uv material_node texs mp mo s)) in
      (forall l, In l (links g') -> to_socket l = bc -> In l (links (graph s)))
      /\ (forall n, In n (nodes g') -> In (bl_idname n) combine_kinds ->
                    In n (nodes (graph s))))
  /\ (forall (uv : bool) (sp : TextureExtractor.Special) (mp : option Node)
             (count : nat) (ch : Socket) (wsch : Schema) (o : string)
             (os : list string),
         offers_combiner host TextureExtractor.multiply_node_types ->
         host "LuxCoreNodeTexConstantFloat3" = Some wsch ->
         sch_outputs wsch = o :: os ->
         mem "value" (sch_attrs wsch) = true ->
         TextureExtractor.color_texture_node sp = None ->
         TextureExtractor.fallback_color sp (nodes (graph s)) = None ->
         white_combined TextureExtractor.multiply_node_types (graph s)
           (graph (snd (TextureExtractor.combine_color_ao host uv material_node
                          sp mp (Some ch) count s)))
           ch bc).
Proof.
  intros Hbc Hfresh. split.
  - intros uv texs mp mo Htex Hmo Hcol g'.
    destruct (tc_no_color_quiet host uv material_node texs mp mo bc s
                Hbc Hfresh Htex Hmo Hcol) as (_ & H2 & H3).
    split; assumption.
  - intros uv sp mp count ch wsch o os Hoff Hw Hwo Hattr Hc Hfb.
    exact (te_combine_white host uv material_node ch bc sp mp count wsch o os s
             Hoff Hw Hwo Hattr Hbc Hfresh Hc Hfb).
Qed.

Lemma C6_no_color_texture_witness :
  let s := Example.tree_of [Example.t_ao] in
  let g' := graph (snd (TextureConnect.connect_textures_to_material
                          Example.luxcore_host true Example.disney
                          [Example.t_ao] None None s)) in
  input_named Example.disney "Base Color" = Some Example.base_color_socket
  /\ nid Example.disney < next_id (graph s)
  /\ (forall l, In l (links g') -> to_socket l = Example.base_color_socket ->
                In l (links (graph s))).
Proof.
  intros s g'.
  assert (H1 : input_named Example.disney "Base Color"
               = Some Example.base_color_socket) by reflexivity.
  assert (H2 : nid Example.disney < next_id (graph s)) by (simpl; lia).
  split; [exact H1|]. split; [exact H2|].
  refine (proj1 (proj1 (C6_no_color_texture Example.luxcore_host Example.disney
                          Example.base_color_socket s H1 H2)
                   true [Example.t_ao] None None _ _ _)).
  - intros t [<-|[]]. discriminate.
  - intros m Hm. discriminate.
  - intros t [<-|[]]. vm_compute. discriminate.
Defined.

(** ** Coverage suppression *)
Section Coverage.

Lemma perm3 {A : Type} (a b c : A) (l : list A) :
  Permutation l [a; b; c] ->
  l = [a; b; c] \/ l = [a; c; b] \/ l = [b; a; c]
  \/ l = [b; c; a] \/ l = [c; a; b] \/ l = [c; b; a].
Proof.
  intros H.
  destruct (Permutation_vs_cons_inv H) as (l1 & l2 & ->).
  apply (Permutation_app_inv l1 l2 [] [b; c] a) in H. simpl in H.
  apply Permutation_sym, Permutation_length_2_inv in H.
  destruct H as [H|H];
    destruct l1 as [|x [|y [|z l1]]]; simpl in H; inversion H; subst;
    simpl; tauto.
Qed.

Lemma tc_type_entry nm img ty :
  TextureConnect.tex_type_of nm img = Some ty ->
  exists info, TextureConnect.best_match nm img = Some (ty, info).
Proof.
  unfold TextureConnect.tex_type_of.
  destruct (TextureConnect.best_match nm img) as [[t info]|]; [|discriminate].
  intros H; inversion H; subst. now exists info.
Qed.

Lemma tc_info_list_three (texs : list Node) (a b c : Node) :
  TextureConnect.tex_type_of (name a) (image a) = Some orm ->
  TextureConnect.tex_type_of (name b) (image b) = Some metallic ->
  TextureConnect.tex_type_of (name c) (image c) = Some roughness ->
  Permutation texs [a; b; c] ->
  exists ia ib ic,
    TextureConnect.texture_info_list texs
    = [(a, (orm, ia)); (b, (metallic, ib)); (c, (roughness, ic))]
    /\ TextureConnect.texture_info_list [a] = [(a, (orm, ia))].
Proof.
  intros Ha Hb Hc Hp.
  apply tc_type_entry in Ha as (ia & Ha).
  apply tc_type_entry in Hb as (ib & Hb).
  apply tc_type_entry in Hc as (ic & Hc).
  exists ia, ib, ic.
  unfold TextureConnect.texture_info_list, TextureConnect.first_pass.
  split.
  - destruct (perm3 a b c texs Hp) as [-> | [-> | [-> | [-> | [-> | ->]]]]];
      simpl flat_map; rewrite Ha, Hb, Hc; reflexivity.
  - simpl flat_map. rewrite Ha. reflexivity.
Qed.

Variable host : Host.

Lemma tc_process_orm_vars uv material_node mp mo v a info s :
  exists ch,
    fst (TextureConnect.process_texture host uv material_node mp mo v
           (a, (orm, info)) s)
    = TextureConnect.incr_if (TextureConnect.is_some ch)
        (TextureConnect.set_orm a ch
           (TextureConnect.cover [metallic; roughness; ao] v)).
Proof.
  unfold TextureConnect.process_texture. cbn [existsb TexType_eqb andb orb].
  unfold bind.
  match goal with
  | |- context [let (_, _) := ?x in _] => destruct x as [u s1]
  end.
  destruct (TextureConnect.setup_combined_texture host material_node a orm s1)
    as [ch s2].
  exists ch. reflexivity.
Qed.

Lemma tc_process_skipped uv material_node mp mo v t ty info s :
  In ty [metallic; roughness; ao; specular] ->
  TextureConnect.covered ty v = true ->
  let r := TextureConnect.process_texture host uv material_node mp mo v
             (t, (ty, info)) s in
  fst r = v /\ graph (snd r) = graph s.
Proof.
  intros Hin Hcov. unfold TextureConnect.process_texture.
  assert (E : existsb (TexType_eqb ty) [metallic; roughness; ao; specular]
              = true).
  { apply existsb_exists. exists ty. split; [exact Hin|].
    apply TexType_eqb_refl. }
  rewrite E, Hcov. split; reflexivity.
Qed.

Lemma covered_incr_if b v ty :
  TextureConnect.covered ty (TextureConnect.incr_if b v)
  = TextureConnect.covered ty v.
Proof. destruct b; reflexivity. Qed.

Lemma color_node_incr_if b v :
  TextureConnect.color_node (TextureConnect.incr_if b v)
  = TextureConnect.color_node v.
Proof. destruct b; reflexivity. Qed.

Lemma bind_snd {A B : Type} (m : M A) (f : A -> M B) (s : St) :
  snd (bind m f s) = snd (f (fst (m s)) (snd (m s))).
Proof. unfold bind. destruct (m s); reflexivity. Qed.

Lemma bind_fst {A B : Type} (m : M A) (f : A -> M B) (s : St) :
  fst (bind m f s) = fst (f (fst (m s)) (snd (m s))).
Proof. unfold bind. destruct (m s); reflexivity. Qed.

Lemma nodes_new_some k sch (s : St) :
  host k = Some sch ->
  nodes_new host k s
  = (Some (made k sch (graph s)), with_node (made k sch (graph s)) s).
Proof. intros H. unfold nodes_new. rewrite H. reflexivity. Qed.

Lemma sn_print ns nx msg : preserves (same_nodes ns nx) (print msg).
Proof. intros s H; exact H. Qed.

Lemma sn_links_new ns nx src dst :
  preserves (same_nodes ns nx) (links_new src dst).
Proof. intros s H; exact H. Qed.

Lemma sn_links_remove ns nx l : preserves (same_nodes ns nx) (links_remove l).
Proof. intros s H; exact H. Qed.

Lemma sn_get_links ns nx : preserves (same_nodes ns nx) get_links.
Proof. intros s H; exact H. Qed.

Lemma sn_get_nodes ns nx : preserves (same_nodes ns nx) get_nodes.
Proof. intros s H; exact H. Qed.

End Coverage.

Ltac sn_prim :=
  first [ apply sn_print | apply sn_links_new | apply sn_links_remove
        | apply sn_get_links | apply sn_get_nodes ].

Ltac sn := preserve_with sn_prim.

Section CoverageRun.
Variable host : Host.

Lemma sn_link_named_or_like ns nx src n nm frag :
  preserves (same_nodes ns nx) (link_named_or_like src n nm frag).
Proof. unfold link_named_or_like. sn. Qed.

Lemma sn_tc_mapping ns nx m t :
  preserves (same_nodes ns nx) (TextureConnect.connect_mapping_to_texture m t).
Proof. unfold TextureConnect.connect_mapping_to_texture. sn. Qed.

Lemma tc_setup_combined_nodes material_node t ty sch (s : St) :
  host "LuxCoreNodeTexSplitFloat3" = Some sch ->
  nodes (graph (snd (TextureConnect.setup_combined_texture host material_node
                       t ty s)))
  = nodes (graph s) ++ [made "LuxCoreNodeTexSplitFloat3" sch (graph s)].
Proof.
  intros Hh. unfold TextureConnect.setup_combined_texture.
  rewrite bind_snd, (nodes_new_some host _ sch s Hh). cbn [fst snd].
  match goal with
  | |- nodes (graph (snd (?m ?s1))) = ?ns =>
      assert (H : preserves (same_nodes ns (S (next_id (graph s)))) m)
  end.
  { preserve_with ltac:(first [sn_prim | apply sn_link_named_or_like]). }
  apply H. split; reflexivity.
Qed.

End CoverageRun.

Section CoverageTheorem.
Variable host : Host.

Lemma tc_combine_no_color material_node v (s : St) :
  TextureConnect.color_node v = None ->
  TextureConnect.combine_color_ao host material_node v s = (v, s).
Proof.
  intros H. unfold TextureConnect.combine_color_ao. rewrite H. reflexivity.
Qed.

Lemma tc_run_orm_alone uv material_node mp mo a ia (s : St) :
  TextureConnect.texture_info_list [a] = [(a, (orm, ia))] ->
  TextureConnect.connect_textures_to_material host uv material_node [a] mp mo s
  = TextureConnect.process_texture host uv material_node mp mo
      TextureConnect.init_vars (a, (orm, ia)) s.
Proof.
  intros Hl. unfold TextureConnect.connect_textures_to_material.
  rewrite Hl. cbn [for_each]. unfold bind.
  destruct (tc_process_orm_vars host uv material_node mp mo
              TextureConnect.init_vars a ia s) as (ch & Hv).
  destruct (TextureConnect.process_texture _ _ _ _ _ _ _ s) as [v1 s1].
  cbn [fst] in Hv. cbn [ret].
  apply tc_combine_no_color. rewrite Hv, color_node_incr_if. reflexivity.
Qed.

Lemma tc_run_three uv material_node mp mo a b c ia ib ic texs (s : St) :
  TextureConnect.texture_info_list texs
  = [(a, (orm, ia)); (b, (metallic, ib)); (c, (roughness, ic))] ->
  let r := TextureConnect.connect_textures_to_material host uv material_node
             texs mp mo s in
  let r1 := TextureConnect.process_texture host uv material_node mp mo
              TextureConnect.init_vars (a, (orm, ia)) s in
  fst r = fst r1 /\ graph (snd r) = graph (snd r1).
Proof.
  intros Hl. unfold TextureConnect.connect_textures_to_material.
  rewrite Hl. cbn [for_each]. unfold bind.
  destruct (tc_process_orm_vars host uv material_node mp mo
              TextureConnect.init_vars a ia s) as (ch & Hv).
  destruct (TextureConnect.process_texture _ _ _ _ _ _ (a, _) s) as [v1 s1].
  cbn [fst snd] in *.
  assert (Hm : TextureConnect.covered metallic v1 = true)
    by (rewrite Hv, covered_incr_if; reflexivity).
  assert (Hr : TextureConnect.covered roughness v1 = true)
    by (rewrite Hv, covered_incr_if; reflexivity).
  assert (Hc : TextureConnect.color_node v1 = None)
    by (rewrite Hv, color_node_incr_if; reflexivity).
  destruct (tc_process_skipped host uv material_node mp mo v1 b metallic ib s1)
    as [Hb1 Hb2]; [simpl; tauto | exact Hm |].
  destruct (TextureConnect.process_texture _ _ _ _ _ _ (b, _) s1) as [v2 s2].
  cbn [fst snd] in *. subst v2.
  destruct (tc_process_skipped host uv material_node mp mo v1 c roughness ic s2)
    as [Hc1 Hc2]; [simpl; tauto | exact Hr |].
  destruct (TextureConnect.process_texture _ _ _ _ _ _ (c, _) s2) as [v3 s3].
  cbn [fst snd ret] in *. subst v3.
  rewrite (tc_combine_no_color material_node v1 s3 Hc). cbn [fst snd].
  split; [reflexivity | congruence].
Qed.

Lemma tc_process_orm_nodes uv material_node mp mo v a ia sch (s : St) :
  host "LuxCoreNodeTexSplitFloat3" = Some sch ->
  nodes (graph (snd (TextureConnect.process_texture host uv material_node mp mo
                       v (a, (orm, ia)) s)))
  = nodes (graph s) ++ [made "LuxCoreNodeTexSplitFloat3" sch (graph s)].
Proof.
  intros Hh. unfold TextureConnect.process_texture.
  cbn [existsb TexType_eqb andb orb].
  rewrite bind_snd.
  set (m := match mp with Some _ => _ | None => _ end).
  assert (Hm : same_nodes (nodes (graph s)) (next_id (graph s)) (snd (m s))).
  { assert (Hp : preserves (same_nodes (nodes (graph s)) (next_id (graph s)))
                           m).
    { subst m. preserve_with ltac:(first [sn_prim | apply sn_tc_mapping]). }
    apply Hp. split; reflexivity. }
  destruct Hm as [Hn Hx]. rewrite bind_snd. cbn [ret snd].
  rewrite (tc_setup_combined_nodes host material_node a orm sch _ Hh).
  rewrite Hn. unfold made. rewrite Hx. reflexivity.
Qed.

End CoverageTheorem.

Section DisneyCoverage.
Import DisneySetup.

Lemma ds_classify_in force_type nm e :
  classify force_type nm = Some e -> In e texture_mapping.
Proof.
  unfold classify, first_entry, entry_of.
  repeat match goal with
         | |- context [find ?p ?l] =>
             let E := fresh "E" in
             destruct (find p l) eqn:E;
             [apply find_some in E; destruct E as [E _]|]
         end;
    try (intros H; inversion H; subst; assumption).
  all: destruct (force_map force_type); try discriminate.
  all: intros H; apply find_some in H; tauto.
Qed.

Lemma ds_type_priority force_type nm ty :
  tex_type_of force_type nm = Some ty ->
  exists info, classify force_type nm = Some (ty, info)
               /\ priority info = priority_of texture_mapping ty.
Proof.
  unfold tex_type_of. destruct (classify force_type nm) as [[t i]|] eqn:E;
    [|discriminate].
  intros H. inversion H; subst t. exists i. split; [reflexivity|].
  apply ds_classify_in in E. simpl in E.
  repeat (destruct E as [E|E]; [inversion E; reflexivity|]).
  contradiction.
Qed.

Lemma ds_load_list_three force_type (files : list FileInfo) (a b c : FileInfo) :
  tex_type_of force_type (f_name a) = Some orm ->
  tex_type_of force_type (f_name b) = Some metallic ->
  tex_type_of force_type (f_name c) = Some roughness ->
  Permutation files [a; b; c] ->
  exists ia ib ic,
    textures_to_load force_type files
    = [data_of a orm ia; data_of b metallic ib; data_of c roughness ic]
    /\ textures_to_load force_type [a] = [data_of a orm ia].
Proof.
  intros Ha Hb Hc Hp.
  apply ds_type_priority in Ha as (ia & Ha & Pa).
  apply ds_type_priority in Hb as (ib & Hb & Pb).
  apply ds_type_priority in Hc as (ic & Hc & Pc).
  exists ia, ib, ic.
  change (priority ia = 100%Z) in Pa. change (priority ib = 60%Z) in Pb.
  change (priority ic = 50%Z) in Pc.
  unfold textures_to_load, identify.
  split.
  - destruct (perm3 a b c files Hp) as [-> | [-> | [-> | [-> | [-> | ->]]]]];
      simpl flat_map; rewrite Ha, Hb, Hc;
      repeat (simpl; rewrite ?Pa, ?Pb, ?Pc); reflexivity.
  - simpl flat_map. rewrite Ha. reflexivity.
Qed.

Variable Locals : Type.
Variable load_and_connect : Locals -> TexData -> M Locals.

Lemma ds_load_three da db dc loc (s : St) :
  tex_type da = orm -> tex_type db = metallic -> tex_type dc = roughness ->
  let step := load_step Locals load_and_connect in
  let r := for_each [da; db; dc] step (init_cover, loc) s in
  let r1 := for_each [da] step (init_cover, loc) s in
  fst r = fst r1 /\ graph (snd r) = graph (snd r1).
Proof.
  intros Ha Hb Hc. cbv zeta. cbn [for_each]. unfold load_step.
  rewrite Ha, Hb, Hc. cbn [existsb TexType_eqb andb orb].
  unfold init_cover, covered, cover, set_orm, bind, print, ret.
  cbn [covered_types orm_node ors_node app existsb TexType_eqb orb andb
       graph log].
  match goal with
  | |- context [load_and_connect loc da ?s0] =>
      destruct (load_and_connect loc da s0) as [loc1 s1]
  end.
  cbn [fst snd graph]. split; reflexivity.
Qed.

End DisneyCoverage.

Section DisneyLoaded.
Import DisneySetup.

Local Abbreviation record :=
  (fun (loc : list TexData) (tex_data : TexData) => ret (loc ++ [tex_data])).

Lemma ds_step_cases (cv : Cover) (loc : list TexData) (d : TexData) (s : St) :
  fst (load_step (list TexData) record (cv, loc) d s)
  = if existsb (TexType_eqb (tex_type d)) [metallic; roughness; ao; specular]
       && covered (tex_type d) cv
    then (cv, loc)
    else (after_load cv d, loc ++ [d]).
Proof.
  unfold load_step, after_load.
  rewrite bind_fst.
  destruct (existsb (TexType_eqb (tex_type d)) _ && covered (tex_type d) cv).
  - rewrite bind_fst. reflexivity.
  - destruct (tex_type d); rewrite ?bind_fst; reflexivity.
Qed.

(** the loop, as far as the coverage variables and the record of the loaded
    assets go *)
Lemma ds_loop_fst (l : list TexData) (st : Cover * list TexData) (s : St) :
  fst (for_each l (load_step (list TexData) record) st s)
  = fold_left
      (fun st d =>
         if existsb (TexType_eqb (tex_type d))
                    [metallic; roughness; ao; specular]
            && covered (tex_type d) (fst st)
         then st
         else (after_load (fst st) d, snd st ++ [d]))
      l st.
Proof.
  revert st s. induction l as [|d l IH]; intros [cv loc] s; [reflexivity|].
  cbn [for_each fold_left]. rewrite bind_fst, IH, ds_step_cases.
  cbn [fst snd].
  destruct (existsb (TexType_eqb (tex_type d)) _ && covered (tex_type d) cv);
    reflexivity.
Qed.

Lemma ds_loaded_three force_type (files : list FileInfo) (a b c : FileInfo) :
  tex_type_of force_type (f_name a) = Some orm ->
  tex_type_of force_type (f_name b) = Some metallic ->
  tex_type_of force_type (f_name c) = Some roughness ->
  Permutation files [a; b; c] ->
  exists ia, loaded_assets force_type files = [data_of a orm ia].
Proof.
  intros Ha Hb Hc Hp.
  destruct (ds_load_list_three force_type files a b c Ha Hb Hc Hp)
    as (ia & ib & ic & H3 & _).
  exists ia. unfold loaded_assets, load_textures. rewrite H3.
  rewrite ds_loop_fst. reflexivity.
Qed.

End DisneyLoaded.

Section DisneyConcrete.
Import DisneySetup.
Variable host : Host.
Variable load_image : string -> string -> option string.
Variable auto_connect : bool.
Variable connect_by_type : Node -> TexData -> Vars -> M (Vars * bool).
Variable disney_node : Node.
Variable mapping_node : option Node.

Lemma sn_ds_connect_mapping ns nx m t :
  preserves (same_nodes ns nx) (connect_mapping m t).
Proof. unfold connect_mapping. sn. Qed.

Lemma sn_ds_connect_channel ns nx sp i ch nm frag :
  preserves (same_nodes ns nx) (connect_channel disney_node sp i ch nm frag).
Proof. unfold connect_channel. sn. Qed.

Lemma map_replace_fresh (n' : Node) (id : nat) (l : list Node) :
  (forall x, In x l -> nid x < id) ->
  map (fun x => if nid x =? id then n' else x) l = l.
Proof.
  intros H. induction l as [|x l IH]; simpl; [reflexivity|].
  assert (Hx : (nid x =? id) = false)
    by (apply Nat.eqb_neq; specialize (H x (or_introl eq_refl)); lia).
  rewrite Hx, IH; [reflexivity|]. intros y Hy. apply H. now right.
Qed.

(** the body of the loop on a combined texture: one image node is added and
    recorded as loaded *)
Lemma ds_body_combined (v : Vars) (d : TexData) sch img (s : St) :
  tex_type d = orm \/ tex_type d = ors ->
  host "LuxCoreNodeTexImagemap" = Some sch ->
  load_image (filename d) (filepath d) = Some img ->
  (forall x, In x (nodes (graph s)) -> nid x < next_id (graph s)) ->
  let r := load_and_connect host load_image auto_connect connect_by_type
             mapping_node v d s in
  fst r = append_loaded (mkLoaded (tex_type d) (filename d)
                                  (image_node sch img s)) v
  /\ same_nodes (nodes (graph s) ++ [image_node sch img s])
                (S (next_id (graph s))) (snd r).
Proof.
  intros Hty Hh Hl Hwf r. subst r. unfold load_and_connect.
  rewrite bind_fst, bind_snd, (nodes_new_some host _ sch s Hh).
  cbn [fst snd]. rewrite Hl.
  assert (Hb : has_branch (tex_type d) = false)
    by (destruct Hty as [-> | ->]; reflexivity).
  assert (Hs : store_special (tex_type d) (image_node sch img s) v = v)
    by (destruct Hty as [-> | ->]; reflexivity).
  rewrite Hb, andb_false_r.
  unfold set_image at 1 2.
  rewrite bind_fst, bind_snd. cbn [fst snd].
  change (mkNode (nid (made "LuxCoreNodeTexImagemap" sch (graph s)))
                 (bl_idname (made "LuxCoreNodeTexImagemap" sch (graph s)))
                 (name (made "LuxCoreNodeTexImagemap" sch (graph s)))
                 (Some img)
                 (inputs (made "LuxCoreNodeTexImagemap" sch (graph s)))
                 (outputs (made "LuxCoreNodeTexImagemap" sch (graph s)))
                 (attrs (made "LuxCoreNodeTexImagemap" sch (graph s))))
    with (image_node sch img s).
  rewrite Hs. rewrite !bind_fst, !bind_snd. cbn [ret fst snd].
  split; [reflexivity|].
  match goal with
  | |- same_nodes ?ns ?nx (snd (?m ?s1)) =>
      assert (Hp : preserves (same_nodes ns nx) m)
  end.
  { preserve_with ltac:(first [sn_prim | apply sn_ds_connect_mapping]). }
  apply Hp. split; [|reflexivity].
  cbn [graph nodes with_node made nid].
  rewrite map_app. cbn [map]. rewrite Nat.eqb_refl.
  rewrite (map_replace_fresh _ _ _ Hwf). reflexivity.
Qed.

Lemma ds_setup_split_nodes kind bch bnm bfrag tex sch (s : St) :
  host "LuxCoreNodeTexSplitFloat3" = Some sch ->
  nodes (graph (snd (setup_split host disney_node kind bch bnm bfrag tex s)))
  = nodes (graph s) ++ [made "LuxCoreNodeTexSplitFloat3" sch (graph s)].
Proof.
  intros Hh. unfold setup_split.
  rewrite bind_snd. unfold print at 1 2. cbn [fst snd].
  rewrite bind_snd, (nodes_new_some host _ sch _ Hh). cbn [fst snd graph].
  match goal with
  | |- nodes (graph (snd (?m ?s1))) = ?ns =>
      assert (H : preserves (same_nodes ns (S (next_id (graph s)))) m)
  end.
  { preserve_with ltac:(first [sn_prim | apply sn_ds_connect_channel]). }
  apply H. split; reflexivity.
Qed.

(** a turn of the loop for a combined texture *)
Lemma ds_step_combined (cv : Cover) (v : Vars) (d : TexData) sch img (s : St) :
  tex_type d = orm \/ tex_type d = ors ->
  host "LuxCoreNodeTexImagemap" = Some sch ->
  load_image (filename d) (filepath d) = Some img ->
  (forall x, In x (nodes (graph s)) -> nid x < next_id (graph s)) ->
  let r := load_step Vars
             (load_and_connect host load_image auto_connect connect_by_type
                               mapping_node) (cv, v) d s in
  fst r = (after_load cv d,
           append_loaded (mkLoaded (tex_type d) (filename d)
                                   (image_node sch img s)) v)
  /\ same_nodes (nodes (graph s) ++ [image_node sch img s])
                (S (next_id (graph s))) (snd r).
Proof.
  intros Hty Hh Hl Hwf r. subst r. unfold load_step, after_load.
  assert (Hg : existsb (TexType_eqb (tex_type d))
                 [metallic; roughness; ao; specular] = false)
    by (destruct Hty as [-> | ->]; reflexivity).
  rewrite Hg. cbn [andb].
  rewrite bind_fst, bind_snd.
  match goal with
  | |- context [snd (print ?msg s)] =>
      assert (G1 : graph (snd (print msg s)) = graph s) by reflexivity;
      set (s1 := snd (print msg s)) in *
  end.
  assert (Hcv : forall s', exists s'',
             (match tex_type d with
              | orm =>
                  print ("DEBUG: ORM found: " ++ filename d) ;;
                  ret (set_orm d (cover [metallic; roughness; ao] cv))
              | ors =>
                  print ("DEBUG: ORS found: " ++ filename d) ;;
                  ret (set_ors d (cover [specular; roughness; ao] cv))
              | _ => ret cv
              end) s'
             = (match tex_type d with
                | orm => set_orm d (cover [metallic; roughness; ao] cv)
                | ors => set_ors d (cover [specular; roughness; ao] cv)
                | _ => cv
                end, s'')
             /\ graph s'' = graph s').
  { intros s'. destruct Hty as [-> | ->]; eexists; split; reflexivity. }
  destruct (Hcv s1) as (s2 & E2 & G2).
  rewrite bind_fst, bind_snd, E2. cbn [fst snd].
  rewrite bind_fst, bind_snd. cbn [ret fst snd].
  assert (Gs : graph s2 = graph s) by (rewrite G2; exact G1).
  destruct (ds_body_combined v d sch img s2 Hty Hh Hl) as [Hf Hn].
  { rewrite Gs. exact Hwf. }
  cbv zeta in Hf, Hn. rewrite Hf.
  unfold image_node in *. rewrite Gs in *.
  split; [reflexivity | exact Hn].
Qed.

(** a turn of the loop for a covered texture, whatever the body *)
Lemma ds_step_skipped (Locals : Type) (body : Locals -> TexData -> M Locals)
    (cv : Cover) (loc : Locals) (d : TexData) (s : St) :
  existsb (TexType_eqb (tex_type d)) [metallic; roughness; ao; specular]
  && covered (tex_type d) cv = true ->
  let r := load_step Locals body (cv, loc) d s in
  fst r = (cv, loc) /\ graph (snd r) = graph s.
Proof.
  intros Hg r. subst r. unfold load_step. rewrite Hg.
  rewrite !bind_fst, !bind_snd. split; reflexivity.
Qed.

(** phases 1 and 2 on a combined texture followed by two textures that it
    covers *)
Lemma ds_run_three (da db dc : TexData) (v0 : Vars) sch_i sch_s img (s : St) :
  tex_type da = orm -> tex_type db = metallic -> tex_type dc = roughness ->
  loaded_textures v0 = [] ->
  host "LuxCoreNodeTexImagemap" = Some sch_i ->
  host "LuxCoreNodeTexSplitFloat3" = Some sch_s ->
  load_image (filename da) (filepath da) = Some img ->
  (forall x, In x (nodes (graph s)) -> nid x < next_id (graph s)) ->
  let body := load_and_connect host load_image auto_connect connect_by_type
                mapping_node in
  let st := for_each [da; db; dc] (load_step Vars body) (init_cover, v0) s in
  let im := image_node sch_i img s in
  loaded_textures (snd (fst st)) = [mkLoaded orm (filename da) im]
  /\ orm_node (fst (fst st)) = Some da
  /\ ors_node (fst (fst st)) = None
  /\ same_nodes (nodes (graph s) ++ [im]) (S (next_id (graph s))) (snd st).
Proof.
  intros Ha Hb Hc Hv0 Hi Hs Hl Hwf body st im. subst st.
  cbn [for_each]. rewrite !bind_fst, !bind_snd.
  destruct (ds_step_combined init_cover v0 da sch_i img s
              (or_introl Ha) Hi Hl Hwf) as [F1 N1].
  cbv zeta in F1, N1. fold body in F1, N1. fold im in F1, N1.
  set (r1 := load_step Vars body (init_cover, v0) da s) in *.
  assert (C1 : forall ty, In ty [metallic; roughness] ->
                 existsb (TexType_eqb ty) [metallic; roughness; ao; specular]
                 && covered ty (fst (fst r1)) = true).
  { intros ty Hty. rewrite F1. cbn [fst]. unfold after_load. rewrite Ha.
    destruct Hty as [<- | [<- | []]]; reflexivity. }
  destruct r1 as [[cv1 v1] s1]. cbn [fst snd] in *.
  destruct (ds_step_skipped Vars body cv1 v1 db s1) as [F2 G2];
    [rewrite Hb; apply C1; simpl; tauto|].
  cbv zeta in F2, G2.
  set (r2 := load_step Vars body (cv1, v1) db s1) in *.
  destruct r2 as [st2 s2]. cbn [fst snd] in *. subst st2.
  destruct (ds_step_skipped Vars body cv1 v1 dc s2) as [F3 G3];
    [rewrite Hc; apply C1; simpl; tauto|].
  cbv zeta in F3, G3.
  set (r3 := load_step Vars body (cv1, v1) dc s2) in *.
  destruct r3 as [st3 s3]. cbn [fst snd ret] in *. subst st3.
  inversion F1; subst cv1 v1. cbn [fst snd].
  unfold after_load, append_loaded. rewrite Ha, Hv0. cbn.
  repeat split; try reflexivity.
  - rewrite G3, G2. apply N1.
  - rewrite G3, G2. apply N1.
Qed.

Lemma ds_split_three {X : Type} (x : X) (da : TexData) (cv : Cover)
    (v : Vars) (im : Node) sch_s (s : St) :
  loaded_textures v = [mkLoaded orm (filename da) im] ->
  orm_node cv = Some da -> ors_node cv = None ->
  host "LuxCoreNodeTexSplitFloat3" = Some sch_s ->
  let r := (orm_ao_channel <- split_combined auto_connect "ORM" (orm_node cv)
                                orm (setup_orm_texture host disney_node) v ;;
            ors_ao_channel <- split_combined auto_connect "ORS" (ors_node cv)
                                ors (setup_ors_texture host disney_node) v ;;
            ret (x, (orm_ao_channel, ors_ao_channel))) s in
  nodes (graph (snd r))
  = nodes (graph s)
    ++ (if auto_connect
        then [made "LuxCoreNodeTexSplitFloat3" sch_s (graph s)]
        else []).
Proof.
  intros Hv Ho Hn Hs r. subst r.
  rewrite bind_snd, bind_snd. cbn [ret snd].
  rewrite Hn. unfold split_combined at 1. cbn [snd].
  rewrite Ho. unfold split_combined, loaded_of. rewrite Hv.
  cbn [find l_type TexType_eqb option_map l_node].
  destruct auto_connect.
  - rewrite bind_snd. unfold setup_orm_texture. cbn [ret snd].
    rewrite (ds_setup_split_nodes _ _ _ _ _ sch_s _ Hs). reflexivity.
  - cbn [ret snd]. now rewrite app_nil_r.
Qed.

End DisneyConcrete.

(** C2 (coverage suppression). In the texture-connect operator, a run over
    three textures classified CombinedORM, Metallic and Roughness, given in
    any order, leaves the same tree and the same count as the run over the
    CombinedORM texture alone: nothing at all is made for the Metallic and the
    Roughness texture; and when the host accepts the splitter kind, the nodes
    created in the run are exactly one splitter. In the Disney setup, over
    three files classified CombinedORM, Metallic and Roughness, selected in
    any order: the loading loop leaves the same tree and the same variables
    as the loop over the CombinedORM file alone, whatever the work done for a
    file that is not skipped; the body of the loop is run for the CombinedORM
    file and for no other; and when the host makes image and splitter nodes
    and the image loads, the nodes created by the loop and the handling of
    the combined textures that follows it are exactly the image node of the
    CombinedORM file and, under automatic connection, one splitter: no node
    is created for the Metallic and the Roughness file. *)
Theorem C2_coverage_suppression (host : Host) (uv : bool)
    (material_node : Node) (mp mo : option Node) (a b c : Node)
    (texs : list Node) (s : St)
    (Locals : Type)
    (load_and_connect : Locals -> DisneySetup.TexData -> M Locals)
    (force_type : DisneySetup.ForceType) (fa fb fc : DisneySetup.FileInfo)
    (files : list DisneySetup.FileInfo) (loc : Locals) (s' : St)
    (load_image : string -> string -> option string) (auto_connect : bool)
    (connect_by_type : Node -> DisneySetup.TexData -> DisneySetup.Vars ->
                       M (DisneySetup.Vars * bool))
    (disney_node : Node) (mapping_node : option Node) :
  TextureConnect.tex_type_of (name a) (image a) = Some orm ->
  TextureConnect.tex_type_of (name b) (image b) = Some metallic ->
  TextureConnect.tex_type_of (name c) (image c) = Some roughness ->
  Permutation texs [a; b; c] ->
  DisneySetup.tex_type_of force_type (DisneySetup.f_name fa) = Some orm ->
  DisneySetup.tex_type_of force_type (DisneySetup.f_name fb) = Some metallic ->
  DisneySetup.tex_type_of force_type (DisneySetup.f_name fc)
  = Some roughness ->
  Permutation files [fa; fb; fc] ->
  let run := fun l =>
    TextureConnect.connect_textures_to_material host uv material_node l mp mo
                                                s in
  let load := fun l =>
    DisneySetup.load_textures Locals load_and_connect force_type l loc s' in
  (graph (snd (run texs)) = graph (snd (run [a]))
   /\ TextureConnect.connected_count (fst (run texs))
      = TextureConnect.connected_count (fst (run [a]))
   /\ (forall sch, host "LuxCoreNodeTexSplitFloat3" = Some sch ->
         nodes (graph (snd (run texs)))
         = nodes (graph s)
           ++ [made "LuxCoreNodeTexSplitFloat3" sch (graph s)]))
  /\ (graph (snd (load files)) = graph (snd (load [fa]))
      /\ fst (load files) = fst (load [fa]))
  /\ (exists ia, DisneySetup.loaded_assets force_type files
                  = [DisneySetup.data_of fa orm ia])
  /\ (forall (sch_i sch_s : Schema) (img : string) (v0 : DisneySetup.Vars),
        DisneySetup.loaded_textures v0 = [] ->
        host "LuxCoreNodeTexImagemap" = Some sch_i ->
        host "LuxCoreNodeTexSplitFloat3" = Some sch_s ->
        load_image (DisneySetup.f_name fa) (DisneySetup.f_path fa)
        = Some img ->
        (forall x, In x (nodes (graph s')) -> nid x < next_id (graph s')) ->
        let r := DisneySetup.load_and_split host load_image auto_connect
                   connect_by_type disney_node mapping_node force_type files
                   v0 s' in
        let im := DisneySetup.image_node sch_i img s' in
        nodes (graph (snd r))
        = nodes (graph s')
          ++ im :: (if auto_connect
                    then [made "LuxCoreNodeTexSplitFloat3" sch_s
                               (graph (with_node im s'))]
                    else [])
        /\ DisneySetup.loaded_textures (snd (fst (fst r)))
           = [DisneySetup.mkLoaded orm (DisneySetup.f_name fa) im]).
Proof.
  intros Ha Hb Hc Hp Hfa Hfb Hfc Hfp run load.
  split; [|split; [|split]].
  - destruct (tc_info_list_three texs a b c Ha Hb Hc Hp)
      as (ia & ib & ic & H3 & H1).
    destruct (tc_run_three host uv material_node mp mo a b c ia ib ic texs s
                H3) as [Hv Hg].
    subst run. cbv beta.
    rewrite (tc_run_orm_alone host uv material_node mp mo a ia s H1).
    split; [exact Hg|]. split; [now rewrite Hv|].
    intros sch Hh. rewrite Hg.
    apply tc_process_orm_nodes. exact Hh.
  - destruct (ds_load_list_three force_type files fa fb fc Hfa Hfb Hfc Hfp)
      as (ia & ib & ic & H3 & H1).
    subst load. cbv beta. unfold DisneySetup.load_textures.
    rewrite H3, H1.
    destruct (ds_load_three Locals load_and_connect _ _ _ loc s'
                (eq_refl : DisneySetup.tex_type (DisneySetup.data_of fa orm ia)
                           = orm)
                (eq_refl : DisneySetup.tex_type
                             (DisneySetup.data_of fb metallic ib)
                           = metallic)
                (eq_refl : DisneySetup.tex_type
                             (DisneySetup.data_of fc roughness ic)
                           = roughness)) as [Hv Hg].
    split; assumption.
  - exact (ds_loaded_three force_type files fa fb fc Hfa Hfb Hfc Hfp).
  - intros sch_i sch_s img v0 Hv0 Hi Hs Hl Hwf r im.
    destruct (ds_load_list_three force_type files fa fb fc Hfa Hfb Hfc Hfp)
      as (ia & ib & ic & H3 & _).
    subst r. unfold DisneySetup.load_and_split, DisneySetup.load_textures.
    rewrite H3.
    destruct (ds_run_three host load_image auto_connect connect_by_type
                disney_node mapping_node
                (DisneySetup.data_of fa orm ia)
                (DisneySetup.data_of fb metallic ib)
                (DisneySetup.data_of fc roughness ic)
                v0 sch_i sch_s img s' eq_refl eq_refl eq_refl Hv0 Hi Hs Hl
                Hwf) as (Hld & Ho & Hn & Hnodes & Hnext).
    cbv zeta in Hld, Ho, Hn, Hnodes, Hnext. fold im in Hld, Hnodes.
    rewrite bind_snd, bind_fst.
    set (st := for_each _ _ _ s') in *.
    rewrite (ds_split_three host auto_connect disney_node (fst st)
               (DisneySetup.data_of fa orm ia) (fst (fst st)) (snd (fst st))
               im sch_s (snd st) Hld Ho Hn Hs).
    split.
    + rewrite Hnodes, <- app_assoc. cbn [app]. f_equal. f_equal.
      destruct auto_connect; [|reflexivity].
      unfold made. rewrite Hnext. reflexivity.
    + rewrite !bind_fst. cbn [ret fst snd]. exact Hld.
Qed.

Lemma C2_coverage_suppression_witness :
  let texs := [Example.t_roughness; Example.t_orm; Example.t_metallic] in
  let s := Example.tree_of
             [Example.t_orm; Example.t_metallic; Example.t_roughness] in
  let r := TextureConnect.connect_textures_to_material
             Example.luxcore_host true Example.disney texs None None s in
  let f_orm := DisneySetup.mkFile "/tex/wall_orm.png" "wall_orm.png" in
  let f_met := DisneySetup.mkFile "/tex/wall_metallic.png"
                                  "wall_metallic.png" in
  let f_rgh := DisneySetup.mkFile "/tex/wall_roughness.png"
                                  "wall_roughness.png" in
  let no_branch := fun (_ : Node) (_ : DisneySetup.TexData)
                       (v : DisneySetup.Vars) => ret (v, false) in
  let v0 := DisneySetup.mkVars None None [] [] [] None [] in
  let s0 := Example.tree_of [] in
  let d := DisneySetup.load_and_split Example.luxcore_host
             (fun filename _ => Some filename) true no_branch Example.disney
             None DisneySetup.AUTO [f_rgh; f_met; f_orm] v0 s0 in
  TextureConnect.tex_type_of "wall_orm.png" (Some "wall_orm.png") = Some orm
  /\ TextureConnect.tex_type_of "wall_metallic.png" (Some "wall_metallic.png")
     = Some metallic
  /\ TextureConnect.tex_type_of "wall_roughness.png"
       (Some "wall_roughness.png") = Some roughness
  /\ Permutation texs [Example.t_orm; Example.t_metallic; Example.t_roughness]
  /\ DisneySetup.tex_type_of DisneySetup.AUTO "wall_orm.png" = Some orm
  /\ DisneySetup.tex_type_of DisneySetup.AUTO "wall_metallic.png"
     = Some metallic
  /\ DisneySetup.tex_type_of DisneySetup.AUTO "wall_roughness.png"
     = Some roughness
  /\ Permutation [f_rgh; f_met; f_orm] [f_orm; f_met; f_rgh]
  /\ nodes (graph (snd r))
     = nodes (graph s)
       ++ [made "LuxCoreNodeTexSplitFloat3"
                (mkSchema "Split Float3" ["Color"] ["R"; "G"; "B"] [])
                (graph s)]
  /\ map (fun n => (nid n, bl_idname n, image n)) (nodes (graph (snd d)))
     = [(0, "LuxCoreNodeMatDisney", None);
        (1, "LuxCoreNodeTexImagemap", Some "wall_orm.png");
        (2, "LuxCoreNodeTexSplitFloat3", None)].
Proof.
  intros texs s r f_orm f_met f_rgh no_branch v0 s0 d.
  assert (H1 : TextureConnect.tex_type_of (name Example.t_orm)
                 (image Example.t_orm) = Some orm) by reflexivity.
  assert (H2 : TextureConnect.tex_type_of (name Example.t_metallic)
                 (image Example.t_metallic) = Some metallic) by reflexivity.
  assert (H3 : TextureConnect.tex_type_of (name Example.t_roughness)
                 (image Example.t_roughness) = Some roughness) by reflexivity.
  assert (H4 : Permutation texs
                 [Example.t_orm; Example.t_metallic; Example.t_roughness]).
  { subst texs.
    apply Permutation_trans
      with (l' := [Example.t_orm; Example.t_roughness; Example.t_metallic]).
    - apply perm_swap.
    - apply perm_skip, perm_swap. }
  assert (H5 : DisneySetup.tex_type_of DisneySetup.AUTO
                 (DisneySetup.f_name f_orm) = Some orm) by reflexivity.
  assert (H6 : DisneySetup.tex_type_of DisneySetup.AUTO
                 (DisneySetup.f_name f_met) = Some metallic) by reflexivity.
  assert (H7 : DisneySetup.tex_type_of DisneySetup.AUTO
                 (DisneySetup.f_name f_rgh) = Some roughness) by reflexivity.
  assert (H8 : Permutation [f_rgh; f_met; f_orm] [f_orm; f_met; f_rgh]).
  { change [f_rgh; f_met; f_orm] with (rev [f_orm; f_met; f_rgh]).
    apply Permutation_sym, Permutation_rev. }
  pose proof (C2_coverage_suppression Example.luxcore_host true
                Example.disney None None Example.t_orm Example.t_metallic
                Example.t_roughness texs s unit
                (fun _ _ => ret tt) DisneySetup.AUTO
                f_orm f_met f_rgh [f_rgh; f_met; f_orm] tt s0
                (fun filename _ => Some filename) true no_branch
                Example.disney None
                H1 H2 H3 H4 H5 H6 H7 H8) as H.
  cbv zeta in H. destruct H as (Htc & _ & _ & Hds).
  split; [exact H1|]. split; [exact H2|]. split; [exact H3|].
  split; [exact H4|]. split; [exact H5|]. split; [exact H6|].
  split; [exact H7|]. split; [exact H8|].
  split.
  - exact (proj2 (proj2 Htc) _ eq_refl).
  - assert (Hwf : forall x, In x (nodes (graph s0)) ->
                            nid x < next_id (graph s0)).
    { intros x [<- | []]. simpl. lia. }
    destruct (Hds (mkSchema "Imagemap" ["2D Mapping"] ["Color"; "Alpha"]
                            ["image"; "gamma"; "is_normal_map"])
                  (mkSchema "Split Float3" ["Color"] ["R"; "G"; "B"] [])
                  "wall_orm.png" v0 eq_refl eq_refl eq_refl eq_refl Hwf)
      as [Hn _].
    fold d in Hn. rewrite Hn. reflexivity.
Defined.

(** ** Two combined textures in one run *)

Section SortHead.
Context {A : Type} (key : A -> Z).

Lemma insert_desc_top (x : A) (l : list A) :
  (forall y, In y l -> (key y <= key x)%Z) -> insert_desc key x l = x :: l.
Proof.
  destruct l as [|h t]; [reflexivity|]. intros H. simpl.
  destruct (Z.leb_spec (key h) (key x)) as [_|Hlt]; [reflexivity|].
  specialize (H h (or_introl eq_refl)). lia.
Qed.

Lemma insert_desc_under (x h : A) (t : list A) :
  (key x < key h)%Z ->
  insert_desc key x (h :: t) = h :: insert_desc key x t.
Proof.
  intros H. simpl.
  destruct (Z.leb_spec (key h) (key x)) as [Hle|_]; [lia | reflexivity].
Qed.

(** the element whose key is above all others comes first *)
Lemma sort_desc_top (a : A) (l1 l2 : list A) :
  (forall y, In y (l1 ++ l2) -> (key y < key a)%Z) ->
  sort_desc key (l1 ++ a :: l2) = a :: sort_desc key (l1 ++ l2).
Proof.
  induction l1 as [|x l1 IH]; intros H; simpl.
  - apply insert_desc_top. intros y Hy. apply in_sort_desc in Hy.
    specialize (H y Hy). lia.
  - fold (sort_desc key (l1 ++ a :: l2)). fold (sort_desc key (l1 ++ l2)).
    rewrite IH by (intros y Hy; apply H; now right).
    apply insert_desc_under. apply H. now left.
Qed.

(** a list in which [a] and then [b] have the highest keys is sorted into
    [a], [b] and the sorted rest *)
Lemma sort_desc_top_two (a b : A) (rest l : list A) :
  Permutation l (a :: b :: rest) ->
  (key b < key a)%Z ->
  (forall y, In y rest -> (key y < key b)%Z) ->
  exists tl, sort_desc key l = a :: b :: tl
             /\ (forall y, In y tl -> In y rest).
Proof.
  intros Hp Hab Hrest.
  assert (Ha : In a l)
    by (eapply Permutation_in; [apply Permutation_sym, Hp | now left]).
  apply in_split in Ha as (l1 & l2 & ->).
  apply Permutation_sym, Permutation_cons_app_inv, Permutation_sym in Hp.
  assert (Hb : In b (l1 ++ l2))
    by (eapply Permutation_in; [apply Permutation_sym, Hp | now left]).
  apply in_split in Hb as (m1 & m2 & Hm).
  rewrite Hm in Hp.
  apply Permutation_sym, Permutation_cons_app_inv, Permutation_sym in Hp.
  exists (sort_desc key (m1 ++ m2)). split.
  - rewrite sort_desc_top.
    + rewrite Hm, sort_desc_top; [reflexivity|].
      intros y Hy. apply Hrest. eapply Permutation_in; eassumption.
    + rewrite Hm. intros y Hy. apply in_app_or in Hy.
      assert (Hy' : y = b \/ In y (m1 ++ m2)).
      { destruct Hy as [Hy|[Hy|Hy]]; [right|left|right]; auto;
          apply in_or_app; auto. }
      destruct Hy' as [->|Hy']; [exact Hab|].
      assert (In y rest) by (eapply Permutation_in; eassumption).
      specialize (Hrest y H). lia.
  - intros y Hy. apply in_sort_desc in Hy.
    eapply Permutation_in; eassumption.
Qed.

End SortHead.

Section TwoCombined.

Lemma tc_first_pass_in (texs : list Node) (e : Node * (TexType * TexInfo)) :
  In e (TextureConnect.first_pass texs) ->
  In (fst e) texs
  /\ TextureConnect.tex_type_of (name (fst e)) (image (fst e))
     = Some (fst (snd e)).
Proof.
  unfold TextureConnect.first_pass. intros H.
  apply in_flat_map in H as (n & Hn & He).
  unfold TextureConnect.tex_type_of.
  destruct (TextureConnect.best_match (name n) (image n)) as [[t i]|] eqn:E;
    [|contradiction].
  destruct He as [<-|[]]. simpl. rewrite E. split; [exact Hn | reflexivity].
Qed.

Lemma tc_priority_below (ty : TexType) :
  ty <> orm -> ty <> ors ->
  (priority_of TextureConnect.texture_mapping ty
   < priority_of TextureConnect.texture_mapping ors)%Z.
Proof. destruct ty; intros H1 H2; try contradiction; reflexivity. Qed.

Lemma tc_info_list_two (texs rest : list Node) (a b : Node) :
  TextureConnect.tex_type_of (name a) (image a) = Some orm ->
  TextureConnect.tex_type_of (name b) (image b) = Some ors ->
  (forall t, In t rest ->
     TextureConnect.tex_type_of (name t) (image t) <> Some orm
     /\ TextureConnect.tex_type_of (name t) (image t) <> Some ors) ->
  Permutation texs (a :: b :: rest) ->
  exists ia ib tl,
    TextureConnect.texture_info_list texs
    = (a, (orm, ia)) :: (b, (ors, ib)) :: tl
    /\ (forall e, In e tl -> fst (snd e) <> orm /\ fst (snd e) <> ors).
Proof.
  intros Ha Hb Hrest Hp.
  apply tc_type_entry in Ha as (ia & Ha).
  apply tc_type_entry in Hb as (ib & Hb).
  exists ia, ib.
  assert (Hr : forall e, In e (TextureConnect.first_pass rest) ->
                         fst (snd e) <> orm /\ fst (snd e) <> ors).
  { intros e He. apply tc_first_pass_in in He as [Hin Hty].
    destruct (Hrest _ Hin) as [H1 H2]. split; congruence. }
  destruct (sort_desc_top_two
              (fun x : Node * (TexType * TexInfo) =>
                 priority_of TextureConnect.texture_mapping (fst (snd x)))
              (a, (orm, ia)) (b, (ors, ib))
              (TextureConnect.first_pass rest)
              (TextureConnect.first_pass texs)) as (tl & Hs & Htl).
  - unfold TextureConnect.first_pass at 1.
    eapply Permutation_trans; [apply Permutation_flat_map, Hp|].
    simpl flat_map. rewrite Ha, Hb. apply Permutation_refl.
  - reflexivity.
  - intros y Hy. destruct (Hr y Hy). now apply tc_priority_below.
  - exists tl. split; [exact Hs|]. intros e He. apply Hr, Htl, He.
Qed.

End TwoCombined.

Section CombinedStep.
Variable host : Host.

Lemma tc_setup_combined_full material_node t ty sch (s : St) :
  host "LuxCoreNodeTexSplitFloat3" = Some sch ->
  let sp := made "LuxCoreNodeTexSplitFloat3" sch (graph s) in
  let r := TextureConnect.setup_combined_texture host material_node t ty s in
  fst r = output_at sp 0
  /\ same_nodes (nodes (graph s) ++ [sp]) (S (next_id (graph s))) (snd r).
Proof.
  intros Hh sp r. subst r. unfold TextureConnect.setup_combined_texture.
  rewrite bind_fst, bind_snd, (nodes_new_some host _ sch s Hh).
  cbn [fst snd]. fold sp. split.
  - rewrite !bind_fst. reflexivity.
  - match goal with
    | |- same_nodes ?ns ?nx (snd (?m ?s1)) =>
        assert (H : preserves (same_nodes ns nx) m)
    end.
    { preserve_with ltac:(first [sn_prim | apply sn_link_named_or_like]). }
    apply H. split; reflexivity.
Qed.

(** what the loop does with a combined texture: the texture is recorded with
    the channel 0 of a new splitter, and the splitter is the one node added *)
Lemma tc_process_combined uv material_node mp mo v t ty info sch (s : St) :
  host "LuxCoreNodeTexSplitFloat3" = Some sch ->
  ty = orm \/ ty = ors ->
  let sp := made "LuxCoreNodeTexSplitFloat3" sch (graph s) in
  let r := TextureConnect.process_texture host uv material_node mp mo v
             (t, (ty, info)) s in
  fst r
  = TextureConnect.incr_if (TextureConnect.is_some (output_at sp 0))
      (match ty with
       | orm => TextureConnect.set_orm t (output_at sp 0)
                  (TextureConnect.cover [metallic; roughness; ao] v)
       | _ => TextureConnect.set_ors t (output_at sp 0)
                  (TextureConnect.cover [specular; roughness; ao] v)
       end)
  /\ same_nodes (nodes (graph s) ++ [sp]) (S (next_id (graph s))) (snd r).
Proof.
  intros Hh Hty sp r. subst r. unfold TextureConnect.process_texture.
  set (m := match mp with Some _ => _ | None => _ end).
  assert (Hm : same_nodes (nodes (graph s)) (next_id (graph s)) (snd (m s))).
  { assert (Hp : preserves (same_nodes (nodes (graph s)) (next_id (graph s)))
                           m).
    { subst m. preserve_with ltac:(first [sn_prim | apply sn_tc_mapping]). }
    apply Hp. split; reflexivity. }
  destruct Hm as [Hn Hx].
  destruct (tc_setup_combined_full material_node t ty sch (snd (m s)) Hh)
    as [Hc Hs].
  assert (Hsp : made "LuxCoreNodeTexSplitFloat3" sch (graph (snd (m s))) = sp)
    by (unfold sp, made; rewrite Hx; reflexivity).
  rewrite Hsp in Hc, Hs. rewrite Hn, Hx in Hs.
  destruct Hty as [-> | ->]; cbn [existsb TexType_eqb andb orb];
    rewrite bind_fst, bind_snd, bind_fst, bind_snd; cbn [ret fst snd];
    rewrite Hc; (split; [reflexivity | exact Hs]).
Qed.

End CombinedStep.

Section AfterCombined.
Variable host : Host.

Lemma tc_process_combined_kept uv material_node mp mo oa ob c1 c2 v t ty info :
  ty <> orm -> ty <> ors ->
  TextureConnect.combined_kept oa ob c1 c2 v ->
  returns (TextureConnect.combined_kept oa ob c1 c2)
          (TextureConnect.process_texture host uv material_node mp mo v
             (t, (ty, info))).
Proof.
  intros H1 H2 Hv.
  pose proof Hv as (Hao & Hcov & Hv').
  unfold TextureConnect.process_texture.
  destruct ty; try contradiction;
    cbn [existsb TexType_eqb andb orb]; rewrite ?Hcov;
    returns_with fail;
    unfold TextureConnect.incr_if;
    repeat match goal with
           | |- context [if ?b then _ else _] => destruct b
           end;
    try exact Hv;
    unfold TextureConnect.combined_kept, TextureConnect.covered in *;
    simpl; rewrite ?existsb_app, ?Hcov; simpl; tauto.
Qed.

End AfterCombined.

Section ExtendsNodes.
Variable ns : list Node.

Lemma en_print msg : preserves (extends_nodes ns) (print msg).
Proof. intros s H; exact H. Qed.

Lemma en_nodes_new (host : Host) k :
  preserves (extends_nodes ns) (nodes_new host k).
Proof.
  intros s [tail H]. unfold nodes_new.
  destruct (host k) as [sch|]; [|now exists tail].
  exists (tail ++ [mkNode (next_id (graph s)) k (sch_name sch) None
                          (sch_inputs sch) (sch_outputs sch) (sch_attrs sch)]).
  simpl. rewrite H, app_assoc. reflexivity.
Qed.

Lemma en_links_new src dst : preserves (extends_nodes ns) (links_new src dst).
Proof. intros s H; exact H. Qed.

Lemma en_links_remove l : preserves (extends_nodes ns) (links_remove l).
Proof. intros s H; exact H. Qed.

Lemma en_get_links : preserves (extends_nodes ns) get_links.
Proof. intros s H; exact H. Qed.

Lemma en_get_nodes : preserves (extends_nodes ns) get_nodes.
Proof. intros s H; exact H. Qed.

End ExtendsNodes.

Ltac en_prim :=
  first [ apply en_print | apply en_nodes_new | apply en_links_new
        | apply en_links_remove | apply en_get_links | apply en_get_nodes ].

Ltac en := preserve_with en_prim.

Section ExtendsNodesLoop.
Variable host : Host.
Variable ns : list Node.

Lemma en_link_named_or_like src n nm frag :
  preserves (extends_nodes ns) (link_named_or_like src n nm frag).
Proof. unfold link_named_or_like. en. Qed.

Lemma en_tc_mapping m t :
  preserves (extends_nodes ns) (TextureConnect.connect_mapping_to_texture m t).
Proof. unfold TextureConnect.connect_mapping_to_texture. en. Qed.

Lemma en_tc_setup_combined m t ty :
  preserves (extends_nodes ns)
            (TextureConnect.setup_combined_texture host m t ty).
Proof.
  unfold TextureConnect.setup_combined_texture.
  preserve_with ltac:(first [en_prim | apply en_link_named_or_like]).
Qed.

Lemma en_tc_activate t :
  preserves (extends_nodes ns) (TextureConnect.activate_normal_map t).
Proof. unfold TextureConnect.activate_normal_map. en. Qed.

Lemma en_tc_setup_emission m t :
  preserves (extends_nodes ns) (TextureConnect.setup_emission host m t).
Proof. unfold TextureConnect.setup_emission. en. Qed.

Lemma en_tc_setup_bump m t :
  preserves (extends_nodes ns) (TextureConnect.setup_bump host m t).
Proof. unfold TextureConnect.setup_bump. en. Qed.

Lemma en_tc_setup_displacement m t mo :
  preserves (extends_nodes ns) (TextureConnect.setup_displacement host m t mo).
Proof. unfold TextureConnect.setup_displacement. en. Qed.

Lemma en_tc_process uv m mp mo v e :
  preserves (extends_nodes ns)
            (TextureConnect.process_texture host uv m mp mo v e).
Proof.
  unfold TextureConnect.process_texture.
  preserve_with ltac:(first [ en_prim | apply en_tc_mapping
                            | apply en_tc_setup_combined
                            | apply en_tc_activate
                            | apply en_tc_setup_emission
                            | apply en_tc_setup_bump
                            | apply en_tc_setup_displacement ]).
Qed.

End ExtendsNodesLoop.

(** C10, the claim as stated fails: in a run over a color, a standalone
    occlusion, a CombinedORS and a CombinedORM texture, the occlusion texture
    is skipped as covered; input 1 of the combiner is fed by channel 0 of the
    ORM splitter, and no edge leaves the occlusion texture. *)
Lemma C10_standalone_occlusion_not_selected :
  let t_ao := Example.texture 2 "wall_ao.png" in
  let texs := [Example.texture 1 "wall_basecolor.jpg"; t_ao;
               Example.texture 3 "wall_ors.png";
               Example.texture 4 "wall_orm.png"] in
  let r := TextureConnect.connect_textures_to_material
             Example.luxcore_host true Example.disney texs None None
             (Example.tree_of texs) in
  map (fun e => (nid (fst e), fst (snd e)))
      (TextureConnect.texture_info_list texs)
  = [(4, orm); (3, ors); (1, color); (2, ao)]
  /\ color_output t_ao = Some (mkSocket 2 0)
  /\ map (fun n => (nid n, bl_idname n)) (nodes (graph (snd r)))
     = [(0, "LuxCoreNodeMatDisney"); (1, "LuxCoreNodeTexImagemap");
        (2, "LuxCoreNodeTexImagemap"); (3, "LuxCoreNodeTexImagemap");
        (4, "LuxCoreNodeTexImagemap"); (5, "LuxCoreNodeTexSplitFloat3");
        (6, "LuxCoreNodeTexSplitFloat3"); (7, "LuxCoreNodeTexMath")]
  /\ links (graph (snd r))
     = [ mkLink (mkSocket 4 0) (mkSocket 5 0);
         mkLink (mkSocket 5 2) (mkSocket 0 2);
         mkLink (mkSocket 3 0) (mkSocket 6 0);
         mkLink (mkSocket 6 1) (mkSocket 0 5);
         mkLink (mkSocket 6 2) (mkSocket 0 3);
         mkLink (mkSocket 1 0) (mkSocket 7 0);
         mkLink (mkSocket 5 0) (mkSocket 7 1);
         mkLink (mkSocket 7 0) Example.base_color_socket ]
  /\ existsb (fun l => Socket_eqb (from_socket l) (mkSocket 2 0))
             (links (graph (snd r))) = false
  /\ TextureConnect.ao_node (fst r) = None
  /\ log (snd r)
     = ["Texture ao (wall_ao.png) ignorata perché già coperta da ORM/ORS"].
Proof. vm_compute. repeat split. Qed.

(** C10 (two combined textures in one run), amended. In a run that contains
    a CombinedORM and a CombinedORS texture, whatever else it contains and in
    whatever order, and on a host that makes splitter nodes: the ORM texture
    is processed first and the ORS texture second, and each gets a splitter
    of its own, the first two nodes added to the tree; no standalone
    occlusion texture is kept, such a texture being skipped as covered; and
    the occlusion channel handed to the AO combine is channel 0 of the ORM
    splitter, and channel 0 of the ORS splitter only when the ORM splitter
    has none. In general the channel is the output of the standalone
    occlusion texture the loop kept, which there is only in a run without a
    combined texture before it, else the ORM channel, else the ORS channel. *)
Theorem C10_two_combined_textures (host : Host) (uv : bool)
    (material_node : Node) (mp mo : option Node) (a b : Node)
    (rest texs : list Node) (sch : Schema) (s : St) :
  TextureConnect.tex_type_of (name a) (image a) = Some orm ->
  TextureConnect.tex_type_of (name b) (image b) = Some ors ->
  (forall t, In t rest ->
     TextureConnect.tex_type_of (name t) (image t) <> Some orm
     /\ TextureConnect.tex_type_of (name t) (image t) <> Some ors) ->
  Permutation texs (a :: b :: rest) ->
  host "LuxCoreNodeTexSplitFloat3" = Some sch ->
  let loop :=
    for_each (TextureConnect.texture_info_list texs)
      (TextureConnect.process_texture host uv material_node mp mo)
      TextureConnect.init_vars s in
  let v := fst loop in
  let split_orm := made "LuxCoreNodeTexSplitFloat3" sch (graph s) in
  let split_ors :=
    made "LuxCoreNodeTexSplitFloat3" sch (graph (with_node split_orm s)) in
  TextureConnect.connect_textures_to_material host uv material_node texs mp mo
                                              s
  = TextureConnect.combine_color_ao host material_node v (snd loop)
  /\ (exists ia ib tl,
        TextureConnect.texture_info_list texs
        = (a, (orm, ia)) :: (b, (ors, ib)) :: tl)
  /\ (exists tail,
        nodes (graph (snd loop))
        = nodes (graph s) ++ split_orm :: split_ors :: tail)
  /\ nid split_orm <> nid split_ors
  /\ TextureConnect.orm_node v = Some a
  /\ TextureConnect.ors_node v = Some b
  /\ TextureConnect.orm_ao_channel v = output_at split_orm 0
  /\ TextureConnect.ors_ao_channel v = output_at split_ors 0
  /\ TextureConnect.ao_node v = None
  /\ TextureConnect.select_ao_channel v
     = orelse (output_at split_orm 0) (output_at split_ors 0)
  /\ (forall w : TextureConnect.Vars,
        TextureConnect.select_ao_channel w
        = match TextureConnect.ao_node w with
          | Some n =>
              if 0 <? List.length (outputs n) then color_output n
              else orelse (TextureConnect.orm_ao_channel w)
                          (TextureConnect.ors_ao_channel w)
          | None => orelse (TextureConnect.orm_ao_channel w)
                           (TextureConnect.ors_ao_channel w)
          end).
Proof.
  intros Ha Hb Hrest Hp Hh loop v split_orm split_ors.
  destruct (tc_info_list_two texs rest a b Ha Hb Hrest Hp)
    as (ia & ib & tl & Hl & Htl).
  split.
  { unfold TextureConnect.connect_textures_to_material, bind.
    subst v loop. destruct (for_each _ _ _ s). reflexivity. }
  split; [now exists ia, ib, tl|].
  subst v loop. rewrite Hl. cbn [for_each].
  set (P := TextureConnect.process_texture host uv material_node mp mo).
  destruct (tc_process_combined host uv material_node mp mo
              TextureConnect.init_vars a orm ia sch s Hh (or_introl eq_refl))
    as [Hv1 [Hn1 Hx1]].
  fold P in Hv1, Hn1, Hx1. fold split_orm in Hv1, Hn1.
  set (r1 := P TextureConnect.init_vars (a, (orm, ia)) s) in *.
  destruct (tc_process_combined host uv material_node mp mo
              (fst r1) b ors ib sch (snd r1) Hh (or_intror eq_refl))
    as [Hv2 [Hn2 Hx2]].
  fold P in Hv2, Hn2, Hx2.
  assert (Hsp : made "LuxCoreNodeTexSplitFloat3" sch (graph (snd r1))
                = split_ors)
    by (unfold split_ors, made; rewrite Hx1; reflexivity).
  rewrite Hsp in Hv2, Hn2.
  set (r2 := P (fst r1) (b, (ors, ib)) (snd r1)) in *.
  assert (Hk : TextureConnect.combined_kept (Some a) (Some b)
                 (output_at split_orm 0) (output_at split_ors 0) (fst r2)).
  { rewrite Hv2, Hv1. unfold TextureConnect.combined_kept,
      TextureConnect.incr_if.
    destruct (TextureConnect.is_some (output_at split_orm 0)),
             (TextureConnect.is_some (output_at split_ors 0));
      repeat split; reflexivity. }
  assert (He : extends_nodes (nodes (graph s) ++ [split_orm; split_ors])
                             (snd r2)).
  { exists []. rewrite Hn2, Hn1, <- !app_assoc. reflexivity. }
  assert (Hloop : for_each ((a, (orm, ia)) :: (b, (ors, ib)) :: tl) P
                    TextureConnect.init_vars s
                  = for_each tl P (fst r2) (snd r2)).
  { cbn [for_each]. unfold bind. subst r2 r1.
    destruct (P TextureConnect.init_vars (a, (orm, ia)) s) as [v1 s1].
    cbn [fst snd]. destruct (P v1 (b, (ors, ib)) s1) as [v2 s2].
    reflexivity. }
  cbn [for_each] in Hloop. rewrite Hloop.
  assert (Hk' : TextureConnect.combined_kept (Some a) (Some b)
                  (output_at split_orm 0) (output_at split_ors 0)
                  (fst (for_each tl P (fst r2) (snd r2)))).
  { apply (returns_for_each
             (TextureConnect.combined_kept (Some a) (Some b)
                (output_at split_orm 0) (output_at split_ors 0)) tl P);
      [|exact Hk].
    intros w [t [ty info]] Hin Hw. destruct (Htl _ Hin) as [H1 H2].
    now apply tc_process_combined_kept. }
  assert (He' : extends_nodes (nodes (graph s) ++ [split_orm; split_ors])
                  (snd (for_each tl P (fst r2) (snd r2)))).
  { assert (Hpr : preserves
                    (extends_nodes (nodes (graph s) ++ [split_orm; split_ors]))
                    (for_each tl P (fst r2))).
    { apply preserves_for_each. intros. apply en_tc_process. }
    apply Hpr, He. }
  destruct Hk' as (K1 & K2 & K3 & K4 & K5 & K6).
  split.
  { destruct He' as [tail Ht]. exists tail. rewrite Ht, <- app_assoc.
    reflexivity. }
  split; [unfold split_ors, split_orm, made; simpl; lia|].
  repeat (split; [assumption|]).
  split; [|reflexivity].
  unfold TextureConnect.select_ao_channel. rewrite K1, K5, K6. reflexivity.
Qed.

Lemma C10_two_combined_textures_witness :
  let t_color := Example.texture 1 "wall_basecolor.jpg" in
  let t_ao := Example.texture 2 "wall_ao.png" in
  let t_ors := Example.texture 3 "wall_ors.png" in
  let t_orm := Example.texture 4 "wall_orm.png" in
  let texs := [t_color; t_ao; t_ors; t_orm] in
  let s := Example.tree_of texs in
  let loop :=
    for_each (TextureConnect.texture_info_list texs)
      (TextureConnect.process_texture Example.luxcore_host true Example.disney
                                      None None)
      TextureConnect.init_vars s in
  TextureConnect.tex_type_of (name t_orm) (image t_orm) = Some orm
  /\ TextureConnect.tex_type_of (name t_ors) (image t_ors) = Some ors
  /\ Permutation texs [t_orm; t_ors; t_color; t_ao]
  /\ Example.luxcore_host "LuxCoreNodeTexSplitFloat3"
     = Some (mkSchema "Split Float3" ["Color"] ["R"; "G"; "B"] [])
  /\ TextureConnect.select_ao_channel (fst loop) = Some (mkSocket 5 0).
Proof.
  intros t_color t_ao t_ors t_orm texs s loop.
  assert (H1 : TextureConnect.tex_type_of (name t_orm) (image t_orm)
               = Some orm) by reflexivity.
  assert (H2 : TextureConnect.tex_type_of (name t_ors) (image t_ors)
               = Some ors) by reflexivity.
  assert (H3 : forall t, In t [t_color; t_ao] ->
                 TextureConnect.tex_type_of (name t) (image t) <> Some orm
                 /\ TextureConnect.tex_type_of (name t) (image t) <> Some ors).
  { intros t [<- | [<- | []]]; split; vm_compute; discriminate. }
  assert (H4 : Permutation texs [t_orm; t_ors; t_color; t_ao]).
  { subst texs.
    change [t_color; t_ao; t_ors; t_orm]
      with ([t_color; t_ao] ++ [t_ors; t_orm]).
    change [t_orm; t_ors; t_color; t_ao]
      with ([t_orm; t_ors] ++ [t_color; t_ao]).
    eapply Permutation_trans; [apply Permutation_app_comm|].
    apply Permutation_app_tail, perm_swap. }
  assert (H5 : Example.luxcore_host "LuxCoreNodeTexSplitFloat3"
               = Some (mkSchema "Split Float3" ["Color"] ["R"; "G"; "B"] []))
    by reflexivity.
  split; [exact H1|]. split; [exact H2|]. split; [exact H4|].
  split; [exact H5|].
  pose proof (C10_two_combined_textures Example.luxcore_host true
                Example.disney None None t_orm t_ors [t_color; t_ao] texs
                _ s H1 H2 H3 H4 H5) as H.
  cbv zeta in H.
  destruct H as (_ & _ & _ & _ & _ & _ & _ & _ & _ & Hsel & _).
  exact Hsel.
Defined.

(** * Further properties of the classifiers *)

Section BoundarySearchComplete.
Import PyStr.

Lemma strip_prefix_append (kw rest : string) :
    strip_prefix kw (kw ++ rest) = Some rest.
Proof.
    induction kw as [|a kw IH]; simpl; [reflexivity|].
    now rewrite Ascii.eqb_refl.
Qed.

Lemma flanked_scan (kw pre post : string) (left_ok : bool) :
    left_flank left_ok pre -> right_boundary post = true ->
    scan left_ok kw (pre ++ kw ++ post) = true.
Proof.
    revert left_ok. induction pre as [|c pre IH]; intros left_ok Hl Hr.
    - destruct Hl as [[_ ->] | (p & c & H & _)].
      + simpl append. destruct (kw ++ post)%string eqn:E; simpl;
          rewrite <- ?E, strip_prefix_append, Hr; reflexivity.
      + destruct p; discriminate.
    - assert (Hn : left_flank (negb (is_alnum c)) pre).
      { destruct Hl as [[H _] | (p & c' & H & Hc)]; [discriminate|].
        destruct p as [|d p]; simpl in H; inversion H; subst.
        - left. split; [reflexivity|]. now rewrite Hc.
        - right. now exists p, c'. }
      simpl. rewrite (IH _ Hn Hr). apply orb_true_r.
Qed.
End BoundarySearchComplete.

(** X1. The keyword search of the classifiers has no false negative and no
    false positive: it succeeds exactly when the keyword occurs in the text
    with a non-alphanumeric character or an end of the text on each side. *)
Theorem X1_boundary_search_exact (kw text : string) :
  PyStr.boundary_search kw text = true <-> PyStr.flanked kw text.
Proof.
  split.
  - intros H. apply scan_flanked in H. exact H.
  - intros (pre & post & -> & Hl & Hr). now apply flanked_scan.
Qed.

Section BestMatch.
Variable text : string.

(** some keyword of the entry is found in the text *)
Local Abbreviation hit e :=
  (match first_keyword PyStr.boundary_search (keywords (snd e)) text with
   | Some _ => true
   | None => false
   end).

Lemma tc_fold_spec (l : list (TexType * TexInfo))
    (acc : option (TexType * TexInfo) * Z) :
  let r := fold_left (TextureConnect.match_step text) l acc in
  (snd acc <= snd r)%Z
  /\ (forall e, In e l -> hit e = true -> (priority (snd e) <= snd r)%Z)
  /\ (r = acc
      \/ exists e, fst r = Some e /\ In e l /\ hit e = true
                   /\ snd r = priority (snd e)).
Proof.
  revert acc. induction l as [|x l IH]; intros acc; simpl.
  - split; [lia|]. split; [intros e []|]. now left.
  - specialize (IH (TextureConnect.match_step text acc x)).
    destruct IH as (H1 & H2 & H3).
    set (r := fold_left (TextureConnect.match_step text) l
                        (TextureConnect.match_step text acc x)) in *.
    assert (Hstep : (snd acc <= snd (TextureConnect.match_step text acc x))%Z
                    /\ (hit x = true ->
                        (priority (snd x)
                         <= snd (TextureConnect.match_step text acc x))%Z)
                    /\ (TextureConnect.match_step text acc x = acc
                        \/ (TextureConnect.match_step text acc x
                            = (Some x, priority (snd x))
                            /\ hit x = true))).
    { unfold TextureConnect.match_step.
      destruct (first_keyword _ _ _).
      - destruct (Z.gtb_spec (priority (snd x)) (snd acc)); simpl.
        + repeat split; try lia. right. now split.
        + repeat split; try lia. now left.
      - repeat split; try lia; try discriminate. now left. }
    destruct Hstep as (S1 & S2 & S3).
    split; [lia|]. split.
    + intros e [<-|He] Hh; [specialize (S2 Hh); lia | now apply H2].
    + destruct H3 as [H3 | (e & E1 & E2 & E3 & E4)].
      * destruct S3 as [S3 | [S3 S4]].
        -- left. now rewrite H3.
        -- right. exists x. rewrite H3, S3. simpl. auto.
      * right. exists e. auto.
Qed.

Lemma tc_fold_none (l : list (TexType * TexInfo))
    (acc : option (TexType * TexInfo) * Z) :
  (forall e, In e l -> hit e = false) ->
  fold_left (TextureConnect.match_step text) l acc = acc.
Proof.
  revert acc. induction l as [|x l IH]; intros acc H; simpl; [reflexivity|].
  assert (Hx : TextureConnect.match_step text acc x = acc).
  { unfold TextureConnect.match_step.
    specialize (H x (or_introl eq_refl)).
    destruct (first_keyword _ _ _); [discriminate | reflexivity]. }
  rewrite Hx. apply IH. intros e He. apply H. now right.
Qed.

End BestMatch.

(** X2. The first pass of the texture-connect operator gives a texture the
    entry of highest priority among the entries of the table one keyword of
    which is found in the search text, and gives it no entry exactly when no
    keyword of the table is found. *)
Theorem X2_best_match_highest_priority (node_name : string)
    (image : option string) :
  let text := TextureConnect.search_text node_name image in
  let found := fun e : TexType * TexInfo =>
    first_keyword PyStr.boundary_search (keywords (snd e)) text in
  match TextureConnect.best_match node_name image with
  | Some e =>
      In e TextureConnect.texture_mapping
      /\ found e <> None
      /\ (forall e', In e' TextureConnect.texture_mapping ->
                     found e' <> None ->
                     (priority (snd e') <= priority (snd e))%Z)
  | None =>
      forall e, In e TextureConnect.texture_mapping -> found e = None
  end.
Proof.
  intros text found.
  pose proof (tc_fold_spec text TextureConnect.texture_mapping
                (None, (-1)%Z)) as H.
  cbv zeta in H. unfold TextureConnect.best_match. fold text.
  destruct H as (H1 & H2 & H3).
  assert (Hhit : forall e, found e <> None <->
                   match found e with Some _ => true | None => false end
                   = true).
  { intros e. destruct (found e); split; congruence. }
  destruct (fold_left (TextureConnect.match_step text)
                      TextureConnect.texture_mapping (None, (-1)%Z))
    as [b p] eqn:E.
  simpl in *. destruct b as [e|].
  - destruct H3 as [H3 | (e0 & E1 & E2 & E3 & E4)]; [discriminate|].
    inversion E1; subst e0. split; [exact E2|]. split.
    + apply Hhit. exact E3.
    + intros e' He' Hf. rewrite <- E4. apply H2; [exact He'|].
      apply Hhit. exact Hf.
  - destruct H3 as [H3 | (e0 & E1 & _)]; [|discriminate].
    inversion H3; subst p. intros e He.
    destruct (found e) eqn:Ef; [|reflexivity]. exfalso.
    assert (Hp : (priority (snd e) <= -1)%Z).
    { apply H2; [exact He|]. unfold found in Ef. now rewrite Ef. }
    assert (Hpos : forallb (fun x : TexType * TexInfo =>
                              (0 <? priority (snd x))%Z)
                           TextureConnect.texture_mapping = true)
      by reflexivity.
    rewrite forallb_forall in Hpos. specialize (Hpos e He).
    apply Z.ltb_lt in Hpos. lia.
Qed.

Section SortDesc.
Context {A : Type} (key : A -> Z).

Local Abbreviation above := (fun x y : A => (key y <= key x)%Z).

Lemma insert_desc_perm (x : A) (l : list A) :
  Permutation (insert_desc key x l) (x :: l).
Proof.
  induction l as [|y l IH]; simpl; [apply Permutation_refl|].
  destruct (key y <=? key x)%Z; [apply Permutation_refl|].
  eapply Permutation_trans; [apply perm_skip, IH | apply perm_swap].
Qed.

Lemma sort_desc_perm (l : list A) : Permutation (sort_desc key l) l.
Proof.
  induction l as [|x l IH]; simpl; [apply perm_nil|].
  eapply Permutation_trans; [apply insert_desc_perm | now apply perm_skip].
Qed.

Lemma insert_desc_sorted (x : A) (l : list A) :
  StronglySorted above l -> StronglySorted above (insert_desc key x l).
Proof.
  induction l as [|y l IH]; intros H; simpl.
  - constructor; constructor.
  - apply StronglySorted_inv in H as [Hl Hy].
    destruct (Z.leb_spec (key y) (key x)) as [Hle|Hlt].
    + constructor; [now constructor|].
      constructor; [exact Hle|].
      rewrite Forall_forall in *. intros z Hz. specialize (Hy z Hz).
      simpl in Hy. lia.
    + constructor; [now apply IH|].
      rewrite Forall_forall in *. intros z Hz.
      apply in_insert_desc in Hz as [->|Hz]; [lia | now apply Hy].
Qed.

Lemma sort_desc_sorted (l : list A) : StronglySorted above (sort_desc key l).
Proof.
  induction l as [|x l IH]; simpl; [constructor|].
  now apply insert_desc_sorted.
Qed.

End SortDesc.

(** X3. The list the second pass works through holds exactly the textures
    the first pass recognised, each once and with its table entry, in
    descending order of priority. *)
Theorem X3_texture_info_list_sorted (texs : list Node) :
  let prio := fun e : Node * (TexType * TexInfo) =>
    priority_of TextureConnect.texture_mapping (fst (snd e)) in
  Permutation (TextureConnect.texture_info_list texs)
              (TextureConnect.first_pass texs)
  /\ StronglySorted (fun x y => (prio y <= prio x)%Z)
                    (TextureConnect.texture_info_list texs)
  /\ (forall e, In e (TextureConnect.texture_info_list texs) ->
        In (fst e) texs
        /\ TextureConnect.best_match (name (fst e)) (image (fst e))
           = Some (snd e))
  /\ (forall n, In n texs ->
        TextureConnect.best_match (name n) (image n) <> None ->
        exists e, In (n, e) (TextureConnect.texture_info_list texs)).
Proof.
  intros prio. unfold TextureConnect.texture_info_list.
  split; [apply sort_desc_perm|]. split; [apply sort_desc_sorted|]. split.
  - intros e He. apply in_sort_desc in He.
    unfold TextureConnect.first_pass in He.
    apply in_flat_map in He as (n & Hn & He).
    destruct (TextureConnect.best_match (name n) (image n)) as [m|] eqn:E;
      [|contradiction].
    destruct He as [<-|[]]. simpl. now split.
  - intros n Hn Hm.
    destruct (TextureConnect.best_match (name n) (image n)) as [m|] eqn:E;
      [|contradiction].
    exists m. apply in_sort_desc. unfold TextureConnect.first_pass.
    apply in_flat_map. exists n. split; [exact Hn|]. rewrite E. now left.
Qed.

Section DisneyClassifier.
Import DisneySetup.

Lemma dash_contains (kw s : string) (left_ok : bool) :
  PyStr.scan_dash left_ok kw s = true -> PyStr.contains kw s = true.
Proof.
  revert left_ok. induction s as [|c t IH]; intros left_ok H.
  - simpl in *. destruct (PyStr.strip_prefix kw EmptyString); [reflexivity|].
    now rewrite andb_false_r in H.
  - simpl in *. destruct (PyStr.strip_prefix kw (String c t)); [reflexivity|].
    rewrite andb_false_r in H. simpl in H. exact (IH _ H).
Qed.

Lemma first_entry_none (hit : string -> bool) :
  first_entry hit = None <->
  (forall e kw, In e texture_mapping -> In kw (keywords (snd e)) ->
                hit kw = false).
Proof.
  unfold first_entry. split.
  - intros H e kw He Hkw.
    pose proof (find_none _ _ H e He) as Hf. simpl in Hf.
    destruct (hit kw) eqn:E; [|reflexivity].
    assert (existsb hit (keywords (snd e)) = true)
      by (apply existsb_exists; now exists kw).
    congruence.
  - intros H.
    destruct (find _ texture_mapping) as [e|] eqn:E; [|reflexivity].
    apply find_some in E as [He Hx]. simpl in Hx.
    apply existsb_exists in Hx as (kw & Hkw & Hh).
    rewrite (H e kw He Hkw) in Hh. discriminate.
Qed.

Lemma entry_of_forced (f : ForceType) (t : TexType) :
  force_map f = Some t -> exists info, entry_of t = Some (t, info).
Proof.
  destruct f; simpl; intros H; inversion H; subst; eexists; reflexivity.
Qed.

End DisneyClassifier.

(** X4. In the Disney setup a file is left unrecognised exactly when no
    keyword of the table occurs anywhere in its lowercased name without
    extension and no type is forced. A forced type is used only then: when a
    keyword occurs, the classification is the one of automatic recognition.
    The entry given is always one of the table. *)
Theorem X4_disney_classify_forced_last (force_type : DisneySetup.ForceType)
    (filename : string) :
  let text := fst (PyStr.splitext (PyStr.lower filename)) in
  let occurs :=
    exists e kw, In e DisneySetup.texture_mapping
                 /\ In kw (keywords (snd e))
                 /\ PyStr.contains kw text = true in
  (DisneySetup.classify force_type filename = None
   <-> force_type = DisneySetup.AUTO /\ ~ occurs)
  /\ (occurs ->
      DisneySetup.classify force_type filename
      = DisneySetup.classify DisneySetup.AUTO filename)
  /\ (forall e, DisneySetup.classify force_type filename = Some e ->
                In e DisneySetup.texture_mapping).
Proof.
  intros text occurs.
  assert (Hocc : occurs <->
                 DisneySetup.first_entry (fun kw => PyStr.contains kw text)
                 <> None).
  { rewrite first_entry_none. split.
    - intros (e & kw & He & Hkw & Hc) H. rewrite (H e kw He Hkw) in Hc.
      discriminate.
    - intros H.
      destruct (DisneySetup.first_entry (fun kw => PyStr.contains kw text))
        as [e|] eqn:E.
      + unfold DisneySetup.first_entry in E.
        apply find_some in E as [He Hx]. simpl in Hx.
        apply existsb_exists in Hx as (kw & Hkw & Hh).
        now exists e, kw.
      + exfalso. apply H. now apply first_entry_none. }
  assert (Hdash : DisneySetup.first_entry
                    (fun kw => PyStr.dash_search kw text) <> None ->
                  occurs).
  { intros H.
    destruct (DisneySetup.first_entry (fun kw => PyStr.dash_search kw text))
      as [e|] eqn:E; [|contradiction].
    unfold DisneySetup.first_entry in E.
    apply find_some in E as [He Hx]. simpl in Hx.
    apply existsb_exists in Hx as (kw & Hkw & Hh).
    exists e, kw. repeat split; auto. eapply dash_contains, Hh. }
  split; [|split].
  - unfold DisneySetup.classify. fold text.
    destruct (DisneySetup.first_entry (fun kw => PyStr.dash_search kw text))
      as [e|] eqn:E1.
    { split; [discriminate|]. intros [_ Hn]. exfalso. apply Hn, Hdash.
      discriminate. }
    destruct (DisneySetup.first_entry (fun kw => PyStr.contains kw text))
      as [e|] eqn:E2.
    { split; [discriminate|]. intros [_ Hn]. exfalso. apply Hn, Hocc.
      discriminate. }
    destruct (DisneySetup.force_map force_type) as [t|] eqn:E3.
    + destruct (entry_of_forced force_type t E3) as (info & Hi).
      rewrite Hi. split; [discriminate|].
      intros [-> _]. discriminate.
    + split; [|reflexivity]. intros _. split.
      * destruct force_type; try discriminate. reflexivity.
      * intros Ho. apply Hocc in Ho. now apply Ho.
  - intros Ho. apply Hocc in Ho. unfold DisneySetup.classify. fold text.
    destruct (DisneySetup.first_entry (fun kw => PyStr.dash_search kw text));
      [reflexivity|].
    destruct (DisneySetup.first_entry (fun kw => PyStr.contains kw text));
      [reflexivity | contradiction].
  - intros e. apply ds_classify_in.
Qed.

(** * The texture-connect operator as a whole *)

Section MaterialOutput.
Variable host : Host.

Lemma find_app_none {A : Type} (p : A -> bool) (l1 l2 : list A) :
  find p l1 = None -> find p (l1 ++ l2) = find p l2.
Proof.
  induction l1 as [|x l1 IH]; simpl; [reflexivity|].
  destruct (p x); [discriminate | exact IH].
Qed.

Lemma find_kind_made kinds k sch (g : Graph) :
  mem k kinds = true ->
  find_kind kinds (nodes g) = None ->
  find_kind kinds (nodes g ++ [made k sch g]) = Some (made k sch g).
Proof.
  intros Hk Hn. unfold find_kind in *. rewrite find_app_none by exact Hn.
  simpl. now rewrite Hk.
Qed.

End MaterialOutput.

(** X5. [find_or_create_material_output] returns the first output node of the
    tree when there is one, and leaves the tree as it is; it leaves the tree
    as it is too when it returns nothing. A node it returns is an output node
    of the resulting tree, and a second call returns the same node without
    changing the tree again. *)
Theorem X5_find_or_create_material_output (host : Host) (s : St) :
  let r := TextureConnect.find_or_create_material_output host s in
  TextureConnect.find_or_create_material_output host (snd r) = r
  /\ (forall n, find_kind ["LuxCoreNodeMatOutput"] (nodes (graph s)) = Some n ->
                r = (Some n, s))
  /\ (fst r = None -> snd r = s)
  /\ (forall n, fst r = Some n ->
                bl_idname n = "LuxCoreNodeMatOutput"
                /\ In n (nodes (graph (snd r)))).
Proof.
  unfold TextureConnect.find_or_create_material_output, bind, get_nodes.
  cbv zeta.
  destruct (find_kind ["LuxCoreNodeMatOutput"] (nodes (graph s)))
    as [n|] eqn:E.
  - cbn [ret fst snd]. rewrite E. cbn [ret].
    split; [reflexivity|]. split; [|split].
    + intros m Hm. now inversion Hm.
    + discriminate.
    + intros m Hm. inversion Hm; subst m. unfold find_kind in E.
      apply find_some in E as [Hin E]. split; [|exact Hin].
      unfold mem in E. simpl in E. rewrite orb_false_r in E.
      now apply String.eqb_eq in E.
  - unfold nodes_new.
    destruct (host "LuxCoreNodeMatOutput") as [sch|] eqn:Eh.
    + cbn [fst snd graph nodes].
      fold (made "LuxCoreNodeMatOutput" sch (graph s)).
      rewrite (find_kind_made ["LuxCoreNodeMatOutput"] "LuxCoreNodeMatOutput"
                 sch (graph s) eq_refl E). cbn [ret].
      split; [reflexivity|]. split; [|split].
      * discriminate.
      * discriminate.
      * intros m Hm. inversion Hm. split; [reflexivity|].
        apply in_or_app. right. now left.
    + cbn [fst snd]. rewrite E.
      split; [reflexivity|]. split; [|split].
      * discriminate.
      * reflexivity.
      * discriminate.
Qed.

Section OperatorKeepsNodes.
Variable host : Host.
Variable ns : list Node.

Lemma en_first_creatable kinds :
  preserves (extends_nodes ns) (first_creatable host kinds).
Proof. apply preserves_first_creatable. intros. apply en_nodes_new. Qed.

Lemma en_tc_connect_color_directly m c :
  preserves (extends_nodes ns) (TextureConnect.connect_color_directly m c).
Proof. unfold TextureConnect.connect_color_directly. en. Qed.

Lemma en_tc_math_input_step mn c ch st inp :
  preserves (extends_nodes ns) (TextureConnect.math_input_step mn c ch st inp).
Proof. unfold TextureConnect.math_input_step. en. Qed.

Lemma en_tc_setup_ao_multiply m c ch :
  preserves (extends_nodes ns) (TextureConnect.setup_ao_multiply host m c ch).
Proof.
  unfold TextureConnect.setup_ao_multiply.
  preserve_with ltac:(first [ en_prim | apply en_tc_math_input_step
                            | apply en_tc_connect_color_directly ]).
Qed.

Lemma en_tc_combine m v :
  preserves (extends_nodes ns) (TextureConnect.combine_color_ao host m v).
Proof.
  unfold TextureConnect.combine_color_ao.
  preserve_with ltac:(first [ en_prim | apply en_tc_setup_ao_multiply
                            | apply en_tc_connect_color_directly ]).
Qed.

Lemma en_tc_connect uv m texs mp mo :
  preserves (extends_nodes ns)
    (TextureConnect.connect_textures_to_material host uv m texs mp mo).
Proof.
  unfold TextureConnect.connect_textures_to_material.
  preserve_with ltac:(first [ apply en_tc_process | apply en_tc_combine ]).
Qed.

Lemma en_tc_execute uv d :
  preserves (extends_nodes ns) (TextureConnect.execute host uv d).
Proof.
  unfold TextureConnect.execute, TextureConnect.create_2d_mapping_node,
    TextureConnect.find_or_create_material_output, report.
  preserve_with ltac:(first [ en_prim | apply en_first_creatable
                            | apply en_tc_connect ]).
Qed.

End OperatorKeepsNodes.

Section OperatorSingleDestination.
Variable host : Host.

Lemma sd_tc_execute uv d :
  preserves single_dest_st (TextureConnect.execute host uv d).
Proof.
  unfold TextureConnect.execute, TextureConnect.create_2d_mapping_node,
    TextureConnect.find_or_create_material_output, report.
  preserve_with ltac:(first [ sd_prim | apply sd_tc_connect ]).
Qed.

End OperatorSingleDestination.

Section ExecuteCases.
Variable host : Host.

Lemma tc_execute_cancelled uv disney_node (s : St) :
  filter (fun n => mem (bl_idname n) TextureConnect.texture_node_types)
         (nodes (graph s)) = [] ->
  TextureConnect.execute host uv disney_node s
  = (CANCELLED,
     mkSt (graph s)
          (log s ++ ["WARNING: No texture nodes found in the node tree"])).
Proof.
  intros E. unfold TextureConnect.execute.
  unfold bind at 1. unfold get_nodes at 1. cbv beta iota zeta.
  rewrite E. reflexivity.
Qed.

Lemma tc_execute_finished uv disney_node (s : St) :
  filter (fun n => mem (bl_idname n) TextureConnect.texture_node_types)
         (nodes (graph s)) <> [] ->
  fst (TextureConnect.execute host uv disney_node s) = FINISHED.
Proof.
  intros E. unfold TextureConnect.execute.
  unfold bind at 1. unfold get_nodes at 1. cbv beta iota zeta.
  destruct (filter _ (nodes (graph s))) as [|x l]; [contradiction|].
  rewrite !bind_fst. reflexivity.
Qed.

End ExecuteCases.

(** X6. The operator is cancelled exactly when the tree holds no image
    texture node; it then leaves the tree as it is and reports a warning. In
    every other case it finishes, whether or not a texture was connected. *)
Theorem X6_execute_without_textures (host : Host) (uv : bool)
    (disney_node : Node) (s : St) :
  let r := TextureConnect.execute host uv disney_node s in
  let none :=
    forall n, In n (nodes (graph s)) ->
              mem (bl_idname n) TextureConnect.texture_node_types = false in
  (fst r = CANCELLED <-> none)
  /\ (fst r = FINISHED <-> ~ none)
  /\ (fst r = CANCELLED ->
      snd r = mkSt (graph s)
                (log s
                 ++ ["WARNING: No texture nodes found in the node tree"])).
Proof.
  intros r none.
  assert (Hnone : none <->
                  filter (fun n => mem (bl_idname n)
                                       TextureConnect.texture_node_types)
                         (nodes (graph s)) = []).
  { unfold none. split.
    - intros H. destruct (filter _ _) as [|x l] eqn:E; [reflexivity|].
      assert (Hx : In x (x :: l)) by now left.
      rewrite <- E in Hx. apply filter_In in Hx as [Hin Hk].
      rewrite (H x Hin) in Hk. discriminate.
    - intros H n Hn.
      destruct (mem (bl_idname n) TextureConnect.texture_node_types) eqn:E;
        [|reflexivity].
      assert (Hx : In n (filter (fun n => mem (bl_idname n)
                                   TextureConnect.texture_node_types)
                                (nodes (graph s))))
        by (apply filter_In; now split).
      rewrite H in Hx. contradiction. }
  destruct (list_eq_dec Nat.eq_dec
              (map nid (filter (fun n => mem (bl_idname n)
                                  TextureConnect.texture_node_types)
                               (nodes (graph s)))) []) as [E|E].
  - apply map_eq_nil in E.
    pose proof (tc_execute_cancelled host uv disney_node s E) as Hr.
    fold r in Hr. rewrite Hr. cbn [fst snd].
    split; [tauto|]. split; [|reflexivity].
    split; [discriminate|]. intros H. exfalso. apply H, Hnone, E.
  - assert (E' : filter (fun n => mem (bl_idname n)
                                   TextureConnect.texture_node_types)
                        (nodes (graph s)) <> [])
      by (intros H; apply E; now rewrite H).
    pose proof (tc_execute_finished host uv disney_node s E') as Hr.
    fold r in Hr. rewrite Hr.
    split; [|split].
    + split; [discriminate|]. intros H. apply Hnone in H. contradiction.
    + split; [|reflexivity]. intros _ H. apply Hnone in H. contradiction.
    + discriminate.
Qed.

(** X7. The operator never removes or reorders a node: the nodes of the tree
    it started from are the first nodes of the tree it leaves. And on a tree
    in which every destination port carries at most one incoming edge, it
    leaves such a tree. *)
Theorem X7_execute_keeps_the_tree (host : Host) (uv : bool)
    (disney_node : Node) (s : St) :
  single_dest (graph s) ->
  let r := TextureConnect.execute host uv disney_node s in
  extends_nodes (nodes (graph s)) (snd r) /\ single_dest (graph (snd r)).
Proof.
  intros H r. split.
  - apply (en_tc_execute host (nodes (graph s)) uv disney_node s).
    exists []. now rewrite app_nil_r.
  - apply (sd_tc_execute host uv disney_node s). exact H.
Qed.

Lemma X7_execute_keeps_the_tree_witness :
  let s := Example.tree_of [Example.t_color; Example.t_metallic] in
  let r := TextureConnect.execute Example.luxcore_host true Example.disney s in
  single_dest (graph s)
  /\ extends_nodes (nodes (graph s)) (snd r)
  /\ single_dest (graph (snd r)).
Proof.
  intros s r.
  assert (H : single_dest (graph s)) by (intros d; simpl; lia).
  split; [exact H|].
  exact (X7_execute_keeps_the_tree Example.luxcore_host true Example.disney
           s H).
Defined.

Section ConnectedCount.
Variable host : Host.

(** the textures counted so far, the kept color texture being counted at the
    end of the run *)
Local Abbreviation pending v :=
  (TextureConnect.connected_count v
   + match TextureConnect.color_node v with Some _ => 1 | None => 0 end).

Lemma tc_process_counts_one uv material_node mp mo v e :
  returns (fun v' => pending v' <= S (pending v))
          (TextureConnect.process_texture host uv material_node mp mo v e).
Proof.
  destruct e as [t [ty info]]. unfold TextureConnect.process_texture.
  returns_with fail;
    unfold TextureConnect.incr_if, TextureConnect.incr,
      TextureConnect.set_orm, TextureConnect.set_ors,
      TextureConnect.set_color, TextureConnect.set_ao, TextureConnect.cover;
    repeat match goal with
           | |- context [if ?b then _ else _] =>
               match type of b with bool => destruct b end
           end;
    simpl; destruct (TextureConnect.color_node v); lia.
Qed.

Lemma tc_loop_counts uv material_node mp mo l v (s : St) :
  pending (fst (for_each l
                  (TextureConnect.process_texture host uv material_node mp mo)
                  v s))
  <= pending v + List.length l.
Proof.
  revert v s. induction l as [|e l IH]; intros v s; simpl; [lia|].
  unfold bind.
  pose proof (tc_process_counts_one uv material_node mp mo v e s) as H.
  destruct (TextureConnect.process_texture host uv material_node mp mo v e s)
    as [v1 s1].
  simpl in H. specialize (IH v1 s1). lia.
Qed.

Lemma tc_combine_counts material_node v :
  returns (fun v' => TextureConnect.connected_count v' <= pending v)
          (TextureConnect.combine_color_ao host material_node v).
Proof.
  unfold TextureConnect.combine_color_ao.
  returns_with fail;
    unfold TextureConnect.incr_if, TextureConnect.incr;
    repeat match goal with
           | |- context [if ?b then _ else _] =>
               match type of b with bool => destruct b end
           end;
    simpl;
    repeat match goal with
           | H : TextureConnect.color_node v = _ |- _ => rewrite H
           end;
    lia.
Qed.

Lemma flat_map_length_le {A B : Type} (f : A -> list B) (l : list A) :
  (forall x, List.length (f x) <= 1) ->
  List.length (flat_map f l) <= List.length l.
Proof.
  intros H. induction l as [|x l IH]; simpl; [lia|].
  rewrite length_app. specialize (H x). lia.
Qed.

End ConnectedCount.

(** X8. The number of connected textures that a run returns never exceeds
    the number of textures the first pass recognised, and so never the number
    of texture nodes it was given. *)
Theorem X8_connected_count_bounded (host : Host) (uv : bool)
    (material_node : Node) (texs : list Node) (mp mo : option Node) (s : St) :
  let r := TextureConnect.connect_textures_to_material host uv material_node
             texs mp mo s in
  TextureConnect.connected_count (fst r)
  <= List.length (TextureConnect.first_pass texs)
  /\ List.length (TextureConnect.first_pass texs) <= List.length texs.
Proof.
  intros r. split.
  - subst r. unfold TextureConnect.connect_textures_to_material.
    rewrite bind_fst.
    pose proof (tc_loop_counts host uv material_node mp mo
                  (TextureConnect.texture_info_list texs)
                  TextureConnect.init_vars s) as Hl.
    pose proof (tc_combine_counts host material_node
                  (fst (for_each (TextureConnect.texture_info_list texs)
                          (TextureConnect.process_texture host uv
                             material_node mp mo)
                          TextureConnect.init_vars s))
                  (snd (for_each (TextureConnect.texture_info_list texs)
                          (TextureConnect.process_texture host uv
                             material_node mp mo)
                          TextureConnect.init_vars s))) as Hc.
    simpl in Hl, Hc.
    assert (Hlen : List.length (TextureConnect.texture_info_list texs)
                   = List.length (TextureConnect.first_pass texs))
      by (apply Permutation_length, sort_desc_perm).
    rewrite Hlen in Hl. lia.
  - unfold TextureConnect.first_pass. apply flat_map_length_le.
    intros n. destruct (TextureConnect.best_match (name n) (image n));
      simpl; lia.
Qed.

(** * The connectors of the selected texture *)

Section IncomingFacts.

Lemma filter_filter_neg {A : Type} (p : A -> bool) (l : list A) :
  filter p (filter (fun x => negb (p x)) l) = [].
Proof.
  induction l as [|x l IH]; simpl; [reflexivity|].
  destruct (p x) eqn:E; simpl; [exact IH|]. now rewrite E.
Qed.

Lemma incoming_links_new_same (src dst : Socket) (g : Graph) :
  incoming dst (links_new_graph src dst g) = [mkLink src dst].
Proof.
  unfold incoming, links_new_graph. simpl. rewrite filter_app.
  rewrite (filter_filter_neg (fun l => Socket_eqb (to_socket l) dst)).
  simpl. now rewrite Socket_eqb_refl.
Qed.

Lemma incoming_links_new_other (src dst d : Socket) (g : Graph) :
  d <> dst ->
  incoming d (links_new_graph src dst g) = incoming d g.
Proof.
  intros Hne. unfold incoming, links_new_graph. simpl. rewrite filter_app.
  simpl.
  assert (E : Socket_eqb dst d = false).
  { destruct (Socket_eqb dst d) eqn:E; [|reflexivity].
    apply Socket_eqb_eq in E. congruence. }
  rewrite E, app_nil_r.
  induction (links g) as [|x l IH]; simpl; [reflexivity|].
  destruct (Socket_eqb (to_socket x) dst) eqn:Ex; simpl.
  - apply Socket_eqb_eq in Ex. rewrite Ex, E. exact IH.
  - destruct (Socket_eqb (to_socket x) d); [now rewrite IH | exact IH].
Qed.

End IncomingFacts.

(** X9. Each of the five direct connectors (color, roughness, specular,
    metallic, opacity) succeeds exactly when the Disney node has the input of
    its name and the texture has an output named Color. When it fails the
    tree is left as it is. When it succeeds no node is added, the input has
    exactly one incoming edge afterwards, the one from the texture's Color
    output, and the edges into every other port are as before. *)
Theorem X9_direct_connectors
    (connect : Node -> Node -> M bool) (socket_name : string)
    (texture_node disney_node : Node) (s : St) :
  In (connect, socket_name)
     [ (ConnectSelected.connect_color, "Base Color");
       (ConnectSelected.connect_roughness, "Roughness");
       (ConnectSelected.connect_specular, "Specular");
       (ConnectSelected.connect_metallic, "Metallic");
       (ConnectSelected.connect_opacity, "Opacity") ] ->
  let r := connect texture_node disney_node s in
  (fst r = true <->
   input_named disney_node socket_name <> None
   /\ output_named texture_node "Color" <> None)
  /\ (fst r = false -> snd r = s)
  /\ (forall dst src,
        input_named disney_node socket_name = Some dst ->
        output_named texture_node "Color" = Some src ->
        nodes (graph (snd r)) = nodes (graph s)
        /\ incoming dst (graph (snd r)) = [mkLink src dst]
        /\ (forall d, d <> dst ->
                      incoming d (graph (snd r)) = incoming d (graph s))).
Proof.
  intros Hin r.
  assert (Hc : connect = ConnectSelected.connect_direct socket_name).
  { simpl in Hin.
    repeat (destruct Hin as [Hin|Hin]; [inversion Hin; reflexivity|]).
    contradiction. }
  subst r. rewrite Hc. unfold ConnectSelected.connect_direct.
  destruct (input_named disney_node socket_name) as [dst|];
    [destruct (output_named texture_node "Color") as [src|]|].
  - cbn. split; [split; [intros _; split; discriminate | reflexivity]|].
    split; [discriminate|].
    intros d0 s0 Hd Hs. inversion Hd; inversion Hs; subst d0 s0.
    split; [reflexivity|]. split.
    + apply incoming_links_new_same.
    + intros d Hne. now apply incoming_links_new_other.
  - cbn. split; [split; [discriminate | intros [_ H]; contradiction]|].
    split; [reflexivity|]. intros d0 s0 _ Hs. discriminate.
  - cbn. split; [split; [discriminate | intros [H _]; contradiction]|].
    split; [reflexivity|]. intros d0 s0 Hd. discriminate.
Qed.

Lemma X9_direct_connectors_witness :
  let t := Example.texture 1 "wall_rough.png" in
  let s := Example.tree_of [t] in
  let r := ConnectSelected.connect_roughness t Example.disney s in
  fst r = true
  /\ incoming (mkSocket 0 5) (graph (snd r))
     = [mkLink (mkSocket 1 0) (mkSocket 0 5)].
Proof.
  intros t s r.
  pose proof (X9_direct_connectors ConnectSelected.connect_roughness
                "Roughness" t Example.disney s
                (or_intror (or_introl eq_refl))) as (H1 & _ & H3).
  split.
  - apply H1. split; discriminate.
  - exact (proj1 (proj2 (H3 (mkSocket 0 5) (mkSocket 1 0) eq_refl eq_refl))).
Defined.

(** X10. [connect_occlusion] refuses, returning False with a report and
    leaving nodes and edges exactly as they were, when the Disney node has no
    Base Color input, when no edge ends at Base Color (a color texture has to
    be connected first), and when the host makes none of the Math node
    kinds. *)
Theorem X10_occlusion_refusals (host : Host) (texture_node disney_node : Node)
    (s : St) :
  let r := ConnectSelected.connect_occlusion host texture_node disney_node s in
  let says := fun msg => r = (false, mkSt (graph s) (log s ++ [msg])) in
  (input_named disney_node "Base Color" = None ->
   says "WARNING: No Base Color input found on Disney node")
  /\ (forall bc, input_named disney_node "Base Color" = Some bc ->
        incoming bc (graph s) = [] ->
        says "ERROR: Connect a Color Texture first")
  /\ (forall bc, input_named disney_node "Base Color" = Some bc ->
        incoming bc (graph s) <> [] ->
        (forall k, In k ConnectSelected.math_node_types -> host k = None) ->
        says "ERROR: Cannot create Math node for AO multiply").
Proof.
  intros r says. subst says r. cbv beta.
  unfold ConnectSelected.connect_occlusion.
  split; [|split].
  - intros H. rewrite H. reflexivity.
  - intros bc H Hin. rewrite H. unfold bind at 1. unfold get_links at 1.
    cbv beta iota.
    assert (Hf : find (fun l => Socket_eqb (to_socket l) bc) (links (graph s))
                 = None).
    { destruct (find _ _) as [l|] eqn:E; [|reflexivity].
      apply find_some in E.
      assert (Hl : In l (incoming bc (graph s)))
        by (apply filter_In; exact E).
      rewrite Hin in Hl. contradiction. }
    rewrite Hf. reflexivity.
  - intros bc H Hin Hnone. rewrite H. unfold bind at 1. unfold get_links at 1.
    cbv beta iota.
    destruct (find (fun l => Socket_eqb (to_socket l) bc) (links (graph s)))
      as [l|] eqn:E.
    + unfold bind at 1.
      destruct (first_creatable_cases host ConnectSelected.math_node_types s)
        as [[_ Hfc] | (k & sch & Hk & Hh & _)].
      * rewrite Hfc. reflexivity.
      * rewrite (Hnone k Hk) in Hh. discriminate.
    + exfalso. apply Hin. unfold incoming.
      destruct (filter _ _) as [|x xs] eqn:Ef; [reflexivity|].
      assert (Hx : In x (x :: xs)) by now left.
      rewrite <- Ef in Hx. apply filter_In in Hx as [Hx1 Hx2].
      pose proof (find_none _ _ E x Hx1) as Hn. simpl in Hn. congruence.
Qed.

Section Occlusion.
Variable host : Host.

Lemma cs_steps_done math t src (rest : list (nat * string)) (s : St) :
  for_each rest (ConnectSelected.occlusion_input_step math t src)
           (true, true) s
  = ((true, true), s).
Proof.
  induction rest as [|[i nm] rest IH]; simpl; [reflexivity|].
  unfold bind. simpl. exact IH.
Qed.

Lemma cs_steps_no_color math t src (rest : list (nat * string)) (s : St) :
  output_named t "Color" = None ->
  for_each rest (ConnectSelected.occlusion_input_step math t src)
           (true, false) s
  = ((true, false), s).
Proof.
  intros Hc. induction rest as [|[i nm] rest IH]; cbn [for_each];
    [reflexivity|].
  unfold bind. unfold ConnectSelected.occlusion_input_step at 1. rewrite Hc.
  cbn [negb andb].
  destruct (ConnectSelected.second_input_hint i (PyStr.lower nm));
    cbn [ret]; exact IH.
Qed.

Lemma cs_math_output_some n :
  outputs n <> [] ->
  exists out, ConnectSelected.math_output n = Some out /\ s_node out = nid n.
Proof.
  intros H. destruct (outputs n) as [|o os] eqn:E; [contradiction|].
  unfold ConnectSelected.math_output.
  destruct (output_where n _) as [x|] eqn:Ex; simpl.
  - exists x. split; [reflexivity | eapply output_where_node; eauto].
  - rewrite (output_at_first n o os E). eexists; split; reflexivity.
Qed.

Lemma cs_math_output_none n :
  outputs n = [] -> ConnectSelected.math_output n = None.
Proof.
  intros H. unfold ConnectSelected.math_output, output_where, output_at.
  rewrite H. reflexivity.
Qed.

(** the tree once both inputs of the Math node are fed *)
Lemma cs_occlusion_two_inputs t d bc l0 math i0 i1 rest ao (s s1 : St) :
  input_named d "Base Color" = Some bc ->
  find (fun l => Socket_eqb (to_socket l) bc) (links (graph s)) = Some l0 ->
  first_creatable host ConnectSelected.math_node_types s = (Some math, s1) ->
  inputs math = i0 :: i1 :: rest ->
  output_named t "Color" = Some ao ->
  let fed :=
    links_remove_graph l0
      (links_new_graph ao (mkSocket (nid math) 1)
         (links_new_graph (from_socket l0) (mkSocket (nid math) 0)
            (graph s1))) in
  ConnectSelected.connect_occlusion host t d s
  = match ConnectSelected.math_output math with
    | Some out => (true, mkSt (links_new_graph out bc fed) (log s1))
    | None => (false, mkSt fed (log s1))
    end.
Proof.
  intros Hbc Hfind Hfc Hin Hao fed.
  unfold ConnectSelected.connect_occlusion. rewrite Hbc.
  unfold bind at 1. unfold get_links at 1. cbv beta iota. rewrite Hfind.
  unfold bind at 1. rewrite Hfc.
  rewrite Hin, enumerate_two. cbn [for_each]. unfold bind.
  unfold ConnectSelected.occlusion_input_step at 1.
  cbn [negb andb Nat.eqb orb ConnectSelected.first_input_hint].
  unfold bind, links_new at 1. cbn [ret].
  unfold ConnectSelected.occlusion_input_step at 1.
  cbn [negb andb Nat.eqb orb ConnectSelected.second_input_hint].
  rewrite Hao. unfold bind, links_new at 1. cbn [ret].
  rewrite cs_steps_done. cbn [fst snd negb ret andb].
  unfold links_remove at 1. cbn [graph log].
  destruct (ConnectSelected.math_output math); reflexivity.
Qed.

(** the tree when the Math node has fewer than two inputs or the texture no
    Color output *)
Lemma cs_occlusion_short t d bc l0 math (s s1 : St) :
  input_named d "Base Color" = Some bc ->
  find (fun l => Socket_eqb (to_socket l) bc) (links (graph s)) = Some l0 ->
  first_creatable host ConnectSelected.math_node_types s = (Some math, s1) ->
  List.length (inputs math) < 2 \/ output_named t "Color" = None ->
  ConnectSelected.connect_occlusion host t d s
  = (false,
     mkSt (links_remove_graph l0
             (match inputs math with
              | [] => graph s1
              | _ :: _ =>
                  links_new_graph (from_socket l0) (mkSocket (nid math) 0)
                                  (graph s1)
              end))
          (log s1)).
Proof.
  intros Hbc Hfind Hfc Hshort.
  unfold ConnectSelected.connect_occlusion. rewrite Hbc.
  unfold bind at 1. unfold get_links at 1. cbv beta iota. rewrite Hfind.
  unfold bind at 1. rewrite Hfc.
  destruct (inputs math) as [|i0 [|i1 rest]] eqn:Hin.
  - cbn [TextureConnect.enumerate List.length seq combine for_each].
    unfold bind, input_at. rewrite Hin. reflexivity.
  - cbn [TextureConnect.enumerate List.length seq combine for_each].
    unfold bind. unfold ConnectSelected.occlusion_input_step at 1.
    cbn [negb andb Nat.eqb orb ConnectSelected.first_input_hint].
    unfold bind, links_new at 1. cbn [ret fst snd negb].
    unfold input_at. rewrite Hin. reflexivity.
  - destruct Hshort as [Hlen | Hc]; [simpl in Hlen; lia|].
    rewrite enumerate_two. cbn [for_each]. unfold bind.
    unfold ConnectSelected.occlusion_input_step at 1.
    cbn [negb andb Nat.eqb orb ConnectSelected.first_input_hint].
    unfold bind, links_new at 1. cbn [ret].
    unfold ConnectSelected.occlusion_input_step at 1.
    cbn [negb andb Nat.eqb orb ConnectSelected.second_input_hint].
    rewrite Hc. cbn [ret].
    rewrite (cs_steps_no_color _ _ _ _ _ Hc). cbn [fst snd negb ret andb].
    unfold input_at. rewrite Hin. reflexivity.
Qed.

End Occlusion.

Section RemoveFacts.

Lemma Link_eqb_refl (l : Link) : Link_eqb l l = true.
Proof. now apply Link_eqb_eq. Qed.

Lemma find_filter_head {A : Type} (p : A -> bool) (l : list A) (x : A) :
  find p l = Some x -> exists tl, filter p l = x :: tl.
Proof.
  induction l as [|y l IH]; simpl; [discriminate|].
  destruct (p y) eqn:E.
  - intros H. inversion H; subst. now exists (filter p l).
  - exact IH.
Qed.

Lemma incoming_remove_head (d : Socket) (l0 : Link) (tl : list Link)
    (g : Graph) :
  incoming d g = l0 :: tl ->
  incoming d (links_remove_graph l0 g) = tl.
Proof.
  unfold incoming, links_remove_graph. simpl.
  induction (links g) as [|x ls IH]; simpl; [discriminate|].
  destruct (Socket_eqb (to_socket x) d) eqn:E.
  - intros H. inversion H; subst. now rewrite Link_eqb_refl.
  - intros H. destruct (Link_eqb x l0) eqn:El.
    + apply Link_eqb_eq in El. subst x.
      assert (Hin : In l0 (filter (fun l => Socket_eqb (to_socket l) d) ls))
        by (rewrite H; now left).
      apply filter_In in Hin as [_ Hp]. congruence.
    + simpl. rewrite E. now apply IH.
Qed.

Lemma incoming_remove_other (d : Socket) (l0 : Link) (g : Graph) :
  to_socket l0 <> d ->
  incoming d (links_remove_graph l0 g) = incoming d g.
Proof.
  intros Hne. unfold incoming, links_remove_graph. simpl.
  induction (links g) as [|x ls IH]; simpl; [reflexivity|].
  destruct (Link_eqb x l0) eqn:El.
  - apply Link_eqb_eq in El. subst x.
    destruct (Socket_eqb (to_socket l0) d) eqn:E; [|reflexivity].
    apply Socket_eqb_eq in E. contradiction.
  - simpl. destruct (Socket_eqb (to_socket x) d); now rewrite IH.
Qed.

Lemma first_creatable_some (host : Host) kinds (s s1 : St) (n : Node) :
  first_creatable host kinds s = (Some n, s1) ->
  nid n = next_id (graph s) /\ In (bl_idname n) kinds /\ s1 = with_node n s.
Proof.
  intros H.
  destruct (first_creatable_cases host kinds s)
    as [[_ Hf] | (k & sch & Hk & _ & Hf)]; rewrite Hf in H; inversion H.
  repeat split. exact Hk.
Qed.

End RemoveFacts.

Section OcclusionOutcome.
Variable host : Host.
Variables (t d math : Node) (bc : Socket) (l0 : Link) (s s1 : St).
Hypothesis Hbc : input_named d "Base Color" = Some bc.
Hypothesis Hd : nid d < next_id (graph s).
Hypothesis Hfind :
  find (fun l => Socket_eqb (to_socket l) bc) (links (graph s)) = Some l0.
Hypothesis Hfc :
  first_creatable host ConnectSelected.math_node_types s = (Some math, s1).

Lemma cs_bc_not_math (i : nat) : bc <> mkSocket (nid math) i.
Proof.
  destruct (first_creatable_some _ _ _ _ _ Hfc) as (Hn & _ & _).
  pose proof (input_named_node _ _ _ Hbc) as Hs.
  intros E. rewrite E in Hs. simpl in Hs. lia.
Qed.

Lemma cs_l0_to : to_socket l0 = bc.
Proof.
  apply find_some in Hfind as [_ H]. now apply Socket_eqb_eq in H.
Qed.

Lemma cs_incoming_bc_s1 :
  exists tl, incoming bc (graph s) = l0 :: tl
             /\ incoming bc (graph s1) = l0 :: tl.
Proof.
  destruct (find_filter_head _ _ _ Hfind) as (tl & Htl).
  exists tl. split; [exact Htl|].
  destruct (first_creatable_some _ _ _ _ _ Hfc) as (_ & _ & ->).
  exact Htl.
Qed.

Lemma cs_nodes_s1 : nodes (graph s1) = nodes (graph s) ++ [math].
Proof.
  destruct (first_creatable_some _ _ _ _ _ Hfc) as (_ & _ & ->).
  reflexivity.
Qed.

(** the edges into Base Color once the old edge is removed, whatever had
    been linked to the inputs of the Math node before *)
Lemma cs_incoming_bc_removed (g : Graph) :
  incoming bc g = incoming bc (graph s1) ->
  incoming bc (links_remove_graph l0 g) = tl (incoming bc (graph s)).
Proof.
  intros Hg. destruct cs_incoming_bc_s1 as (tl0 & H0 & H1).
  rewrite H0. simpl. apply incoming_remove_head. now rewrite Hg.
Qed.

End OcclusionOutcome.

(** X11. [connect_occlusion] on a tree where an edge [l0] ends at Base Color
    and the host makes a Math node: it succeeds exactly when the Math node
    has at least two inputs and an output and the texture has an output named
    Color. After a success the Math node is the one node added, its input 0
    is fed by the source of [l0], its input 1 by the texture's Color output,
    and its output is the only edge into Base Color. *)
Theorem X11_occlusion_success (host : Host) (t d math : Node) (bc : Socket)
    (l0 : Link) (s s1 : St) :
  input_named d "Base Color" = Some bc ->
  nid d < next_id (graph s) ->
  find (fun l => Socket_eqb (to_socket l) bc) (links (graph s)) = Some l0 ->
  first_creatable host ConnectSelected.math_node_types s = (Some math, s1) ->
  let r := ConnectSelected.connect_occlusion host t d s in
  (fst r = true <->
   2 <= List.length (inputs math)
   /\ output_named t "Color" <> None /\ outputs math <> [])
  /\ (fst r = true ->
      exists ao out,
        output_named t "Color" = Some ao
        /\ s_node out = nid math
        /\ nodes (graph (snd r)) = nodes (graph s) ++ [math]
        /\ incoming (mkSocket (nid math) 0) (graph (snd r))
           = [mkLink (from_socket l0) (mkSocket (nid math) 0)]
        /\ incoming (mkSocket (nid math) 1) (graph (snd r))
           = [mkLink ao (mkSocket (nid math) 1)]
        /\ incoming bc (graph (snd r)) = [mkLink out bc]).
Proof.
  intros Hbc Hd Hfind Hfc r.
  pose proof (cs_bc_not_math host d math bc s s1 Hbc Hd Hfc) as Hne.
  pose proof (cs_l0_to bc l0 s Hfind) as Hto.
  pose proof (cs_nodes_s1 host math s s1 Hfc) as Hnodes.
  destruct (inputs math) as [|i0 [|i1 rest]] eqn:Hin;
    [| |destruct (output_named t "Color") as [ao|] eqn:Hao].
  1,2,4:
    (assert (Hr : fst r = false)
      by (subst r;
          rewrite (cs_occlusion_short host t d bc l0 math s s1 Hbc Hfind Hfc)
            by (rewrite ?Hin; simpl; first [left; lia | now right]);
          reflexivity);
     rewrite Hr; split;
     [split; [discriminate | simpl; intros (H1 & H2 & H3);
                              first [lia | contradiction]]
     | discriminate]).
  pose proof (cs_occlusion_two_inputs host t d bc l0 math i0 i1 rest ao s s1
                Hbc Hfind Hfc Hin Hao) as Hrun.
  cbv zeta in Hrun. fold r in Hrun.
  destruct (outputs math) as [|o os] eqn:Hout.
  - rewrite (cs_math_output_none math Hout) in Hrun. rewrite Hrun.
    split; [split; [discriminate | intros (_ & _ & H); contradiction]
           | discriminate].
  - destruct (cs_math_output_some math) as (out & Ho & Hso);
      [rewrite Hout; discriminate|].
    rewrite Ho in Hrun. rewrite Hrun. cbn [fst snd graph].
    split; [split; [intros _; simpl; repeat split; try lia; discriminate
                   | reflexivity]|].
    intros _. exists ao, out. split; [reflexivity|]. split; [exact Hso|].
    split; [exact Hnodes|].
    assert (H01 : mkSocket (nid math) 0 <> mkSocket (nid math) 1)
      by discriminate.
    split; [|split].
    + rewrite incoming_links_new_other by (intros E; apply (Hne 0); now symmetry).
      rewrite incoming_remove_other by (rewrite Hto; apply Hne).
      rewrite incoming_links_new_other by exact H01.
      apply incoming_links_new_same.
    + rewrite incoming_links_new_other by (intros E; apply (Hne 1); now symmetry).
      rewrite incoming_remove_other by (rewrite Hto; apply Hne).
      apply incoming_links_new_same.
    + apply incoming_links_new_same.
Qed.

Lemma X11_occlusion_success_witness :
  let t_color := Example.texture 1 "wall_basecolor.jpg" in
  let t_ao := Example.texture 2 "wall_ao.png" in
  let l0 := mkLink (mkSocket 1 0) Example.base_color_socket in
  let s := mkSt (mkGraph [Example.disney; t_color; t_ao] [l0] 3) [] in
  let math :=
    made "LuxCoreNodeTexMath"
         (mkSchema "Math" ["Value 1"; "Value 2"] ["Value"] ["mode"])
         (graph s) in
  let r := ConnectSelected.connect_occlusion Example.luxcore_host t_ao
             Example.disney s in
  input_named Example.disney "Base Color" = Some Example.base_color_socket
  /\ nid Example.disney < next_id (graph s)
  /\ find (fun l => Socket_eqb (to_socket l) Example.base_color_socket)
          (links (graph s)) = Some l0
  /\ first_creatable Example.luxcore_host ConnectSelected.math_node_types s
     = (Some math, with_node math s)
  /\ fst r = true
  /\ incoming Example.base_color_socket (graph (snd r))
     = [mkLink (mkSocket 3 0) Example.base_color_socket].
Proof.
  intros t_color t_ao l0 s math r.
  assert (H1 : input_named Example.disney "Base Color"
               = Some Example.base_color_socket) by reflexivity.
  assert (H2 : nid Example.disney < next_id (graph s)) by (simpl; lia).
  assert (H3 : find (fun l => Socket_eqb (to_socket l)
                                Example.base_color_socket)
                    (links (graph s)) = Some l0) by reflexivity.
  assert (H4 : first_creatable Example.luxcore_host
                 ConnectSelected.math_node_types s
               = (Some math, with_node math s)) by reflexivity.
  split; [exact H1|]. split; [exact H2|]. split; [exact H3|].
  split; [exact H4|].
  destruct (X11_occlusion_success Example.luxcore_host t_ao Example.disney
              math Example.base_color_socket l0 s (with_node math s)
              H1 H2 H3 H4) as [Hiff Hwire].
  assert (Ht : fst r = true).
  { apply Hiff. split; [simpl; lia|]. split; discriminate. }
  split; [exact Ht|].
  destruct (Hwire Ht) as (ao & out & _ & _ & _ & _ & _ & Hinc).
  vm_compute in Hinc. vm_compute. destruct out as [n i].
  inversion Hinc. reflexivity.
Defined.

(** X12. A failure of [connect_occlusion] after the Math node was made is
    not undone: the Math node stays in the tree, and the edge [l0] that ended
    at Base Color is removed, so that Base Color keeps only the edges that
    came after it (none, on a tree with one edge per port). This is what
    happens when the texture has no output named Color. *)
Theorem X12_occlusion_failure_unlinks (host : Host) (t d math : Node)
    (bc : Socket) (l0 : Link) (s s1 : St) :
  input_named d "Base Color" = Some bc ->
  nid d < next_id (graph s) ->
  find (fun l => Socket_eqb (to_socket l) bc) (links (graph s)) = Some l0 ->
  first_creatable host ConnectSelected.math_node_types s = (Some math, s1) ->
  let r := ConnectSelected.connect_occlusion host t d s in
  (output_named t "Color" = None -> fst r = false)
  /\ (fst r = false ->
      nodes (graph (snd r)) = nodes (graph s) ++ [math]
      /\ incoming bc (graph (snd r)) = tl (incoming bc (graph s))).
Proof.
  intros Hbc Hd Hfind Hfc r.
  pose proof (cs_bc_not_math host d math bc s s1 Hbc Hd Hfc) as Hne.
  pose proof (cs_nodes_s1 host math s s1 Hfc) as Hnodes.
  pose proof (cs_incoming_bc_removed host math bc l0 s s1 Hfind Hfc) as Hrem.
  assert (Hshort : List.length (inputs math) < 2
                   \/ output_named t "Color" = None ->
                   fst r = false
                   /\ nodes (graph (snd r)) = nodes (graph s) ++ [math]
                   /\ incoming bc (graph (snd r))
                      = tl (incoming bc (graph s))).
  { intros H. subst r.
    rewrite (cs_occlusion_short host t d bc l0 math s s1 Hbc Hfind Hfc H).
    cbn [fst snd graph]. split; [reflexivity|]. split.
    - destruct (inputs math); exact Hnodes.
    - apply Hrem. destruct (inputs math); [reflexivity|].
      apply incoming_links_new_other, Hne. }
  split.
  - intros Hc. apply Hshort. now right.
  - intros Hf.
    destruct (inputs math) as [|i0 [|i1 rest]] eqn:Hin;
      [apply Hshort; left; simpl; lia | apply Hshort; left; simpl; lia |].
    destruct (output_named t "Color") as [ao|] eqn:Hao;
      [|apply Hshort; now right].
    pose proof (cs_occlusion_two_inputs host t d bc l0 math i0 i1 rest ao
                  s s1 Hbc Hfind Hfc Hin Hao) as Hrun.
    cbv zeta in Hrun. fold r in Hrun, Hf.
    destruct (ConnectSelected.math_output math) as [out|].
    + rewrite Hrun in Hf. discriminate.
    + rewrite Hrun. cbn [fst snd graph]. split; [exact Hnodes|].
      apply Hrem.
      rewrite !incoming_links_new_other by apply Hne. reflexivity.
Qed.

Lemma X12_occlusion_failure_unlinks_witness :
  let t_color := Example.texture 1 "wall_basecolor.jpg" in
  let t_ao := mkNode 2 "LuxCoreNodeTexImagemap" "wall_ao.png"
                     (Some "wall_ao.png") ["2D Mapping"] ["Value"] [] in
  let l0 := mkLink (mkSocket 1 0) Example.base_color_socket in
  let s := mkSt (mkGraph [Example.disney; t_color; t_ao] [l0] 3) [] in
  let math :=
    made "LuxCoreNodeTexMath"
         (mkSchema "Math" ["Value 1"; "Value 2"] ["Value"] ["mode"])
         (graph s) in
  let r := ConnectSelected.connect_occlusion Example.luxcore_host t_ao
             Example.disney s in
  input_named Example.disney "Base Color" = Some Example.base_color_socket
  /\ nid Example.disney < next_id (graph s)
  /\ find (fun l => Socket_eqb (to_socket l) Example.base_color_socket)
          (links (graph s)) = Some l0
  /\ first_creatable Example.luxcore_host ConnectSelected.math_node_types s
     = (Some math, with_node math s)
  /\ fst r = false
  /\ incoming Example.base_color_socket (graph (snd r)) = [].
Proof.
  intros t_color t_ao l0 s math r.
  assert (H1 : input_named Example.disney "Base Color"
               = Some Example.base_color_socket) by reflexivity.
  assert (H2 : nid Example.disney < next_id (graph s)) by (simpl; lia).
  assert (H3 : find (fun l => Socket_eqb (to_socket l)
                                Example.base_color_socket)
                    (links (graph s)) = Some l0) by reflexivity.
  assert (H4 : first_creatable Example.luxcore_host
                 ConnectSelected.math_node_types s
               = (Some math, with_node math s)) by reflexivity.
  split; [exact H1|]. split; [exact H2|]. split; [exact H3|].
  split; [exact H4|].
  destruct (X12_occlusion_failure_unlinks Example.luxcore_host t_ao
              Example.disney math Example.base_color_socket l0 s
              (with_node math s) H1 H2 H3 H4) as [Hno Hfail].
  assert (Hf : fst r = false) by (apply Hno; reflexivity).
  split; [exact Hf|].
  exact (proj2 (Hfail Hf)).
Defined.
